(** * Intent resolver of the Mobilis chat bot

    A shallow embedding of the keyword classifier and of the reply lookup
    of the repository:

    - [MobilisChatBot.analyzeIntent], [MobilisChatBot.generateResponse]
      (the chat bot service class);
    - [MemStorage] (the in-memory store of bot responses and of
      conversations);
    - [Routes.analyzeIntent], [Routes.generateBotResponse] (the helper
      functions of the HTTP routes, which read the store), and the
      handlers that call them.

    The store is passed from call to call.  The arrays of messages are
    objects that are written in place: they are kept in a heap, by
    reference, next to the two maps.  A [jsonb] column holds any JSON
    value, and a call that uses an item of [keywords] that is not a string
    as a string raises a [TypeError]: [Completion] is the value returned
    or the exception raised.

    Strings are sequences of UTF-16 code units, as in the host language;
    [number] carries the values a quotient of two lengths can take.  The
    quotient itself is kept as an exact fraction: two quotients over the
    same message length compare as their numerators do, which is also what
    the double-precision quotients do for every length a string can have,
    and a double is below the double nearest to one tenth exactly when it
    is below one tenth.  The case table of the host is a parameter
    ([LowerCase]); the scenarios run with [latin]. *)

From Stdlib Require Import Ascii String.
From Stdlib Require Import List Bool Arith NArith ZArith QArith Lia.
Import ListNotations.
Close Scope Q_scope.

Set Implicit Arguments.

(** ** Strings and numbers of the host language *)

Module JS.

(** A string is the list of its UTF-16 code units; [length] is the
    [.length] property. *)
Definition codeunit := N.
Definition jsstring := list codeunit.

Definition strictEq (s t : jsstring) : bool :=
  if list_eq_dec N.eq_dec s t then true else false.

(** Reading of the literals of the source files: a literal is written in
    this file as in the source, in UTF-8, and decoded to code units (one
    unit per code point of the basic plane, a surrogate pair above). *)
Fixpoint utf16_of_utf8 (bs : list N) : jsstring :=
  match bs with
  | [] => []
  | b0 :: rest =>
      if (b0 <? 128)%N then b0 :: utf16_of_utf8 rest
      else if (b0 <? 224)%N then
        match rest with
        | b1 :: rest' =>
            N.lor (N.shiftl (N.land b0 31) 6) (N.land b1 63)
              :: utf16_of_utf8 rest'
        | _ => []
        end
      else if (b0 <? 240)%N then
        match rest with
        | b1 :: b2 :: rest' =>
            N.lor (N.shiftl (N.land b0 15) 12)
                  (N.lor (N.shiftl (N.land b1 63) 6) (N.land b2 63))
              :: utf16_of_utf8 rest'
        | _ => []
        end
      else
        match rest with
        | b1 :: b2 :: b3 :: rest' =>
            let cp :=
              N.lor (N.shiftl (N.land b0 7) 18)
                    (N.lor (N.shiftl (N.land b1 63) 12)
                           (N.lor (N.shiftl (N.land b2 63) 6) (N.land b3 63))) in
            let v := (cp - 65536)%N in
            (55296 + N.shiftr v 10)%N :: (56320 + N.land v 1023)%N
              :: utf16_of_utf8 rest'
        | _ => []
        end
  end.

Definition lit (s : string) : jsstring :=
  utf16_of_utf8 (map N_of_ascii (list_ascii_of_string s)).

(** [String.prototype.includes]: [t] occurs in [s] as a run of
    consecutive code units. *)
Fixpoint startsWith (s t : jsstring) {struct t} : bool :=
  match t, s with
  | [], _ => true
  | _ :: _, [] => false
  | c :: t', d :: s' => (c =? d)%N && startsWith s' t'
  end.

Fixpoint includes (s t : jsstring) : bool :=
  startsWith s t
  || match s with
     | [] => false
     | _ :: s' => includes s' t
     end.

(** [String.prototype.trim]: white space and line terminators are
    removed at both ends. *)
Definition isWhiteSpace (c : codeunit) : bool :=
  ((9 <=? c) && (c <=? 13) || (c =? 32) || (c =? 160) || (c =? 5760)
   || (8192 <=? c) && (c <=? 8202) || (c =? 8232) || (c =? 8233)
   || (c =? 8239) || (c =? 8287) || (c =? 12288) || (c =? 65279))%N.

Fixpoint trimStart (s : jsstring) : jsstring :=
  match s with
  | [] => []
  | c :: s' => if isWhiteSpace c then trimStart s' else s
  end.

Definition trimEnd (s : jsstring) : jsstring := rev (trimStart (rev s)).

Definition trim (s : jsstring) : jsstring := trimEnd (trimStart s).

(** Numbers: the finite values are kept as fractions, next to the two
    infinities and to NaN that a division by zero produces. *)
Inductive number : Type :=
| Finite (q : Q)
| PosInfinity
| NegInfinity
| NaN.

(** [a / b] for two lengths. *)
Definition div_length (a b : nat) : number :=
  match b with
  | O => match a with O => NaN | S _ => PosInfinity end
  | S _ => Finite (Z.of_nat a # Pos.of_nat b)
  end.

(** [x > y] and [x < y]; every comparison with NaN is false. *)
Definition num_gt (x y : number) : bool :=
  match x, y with
  | NaN, _ | _, NaN => false
  | Finite p, Finite q => negb (Qle_bool p q)
  | PosInfinity, PosInfinity => false
  | PosInfinity, _ => true
  | _, PosInfinity => false
  | NegInfinity, _ => false
  | Finite _, NegInfinity => true
  end.

Definition num_lt (x y : number) : bool := num_gt y x.

Definition num_ge (x y : number) : bool :=
  match x, y with
  | NaN, _ | _, NaN => false
  | _, _ => negb (num_gt y x)
  end.

(** [String.prototype.toLowerCase] follows the case table of the host,
    which is not part of the repository: the functions below take it as
    a parameter. *)
Class LowerCase : Type := toLowerCase : jsstring -> jsstring.

(** The part of the table of [String.prototype.toLowerCase] that the
    scenarios of this development use: Basic Latin, Latin-1 Supplement
    and the capital I with dot above, whose lower case is two code units;
    the other code units are left as they are (Arabic has no case). *)
Definition lowerUnit (c : codeunit) : jsstring :=
  if ((65 <=? c) && (c <=? 90))%N then [(c + 32)%N]
  else if ((192 <=? c) && (c <=? 222) && negb (c =? 215))%N then [(c + 32)%N]
  else if (c =? 304)%N then [105%N; 775%N]
  else [c].

Definition latinLowerCase (s : jsstring) : jsstring := flat_map lowerUnit s.

(** What a call completes with: the value it returns, or the exception
    it raises. *)
Inductive Error : Type := TypeError.

Inductive Completion (A : Type) : Type :=
| Normal (a : A)
| Throw (e : Error).
Arguments Throw {A}.

(** A loop whose body may raise: the first exception ends it. *)
Fixpoint foldM {A B} (f : A -> B -> Completion A) (l : list B) (a : A)
  : Completion A :=
  match l with
  | [] => Normal a
  | b :: l' =>
      match f a b with
      | Normal a' => foldM f l' a'
      | Throw e => Throw e
      end
  end.

End JS.

Import JS.

(** ** The shared schema *)

Inductive Language : Type := ar | fr.

Inductive Sender : Type := user | bot.

Unset Elimination Schemes.
(** A [jsonb] column holds any JSON value: neither the schema nor the
    handlers restrict it.  [keywords] is read only: it is used as an
    array when it is one and as the empty array otherwise, and each of
    its items is used as a string. *)
Inductive Json : Type :=
| JsonNull
| JsonBool (b : bool)
| JsonNumber (x : Q)
| JsonString (s : jsstring)
| JsonArray (items : list Json)
| JsonObject (members : list (jsstring * Json)).
Set Elimination Schemes.

(** The array of the strings [l]. *)
Definition strings (l : list jsstring) : Json := JsonArray (map JsonString l).

(** An array of messages is an object: it is written in place, and every
    value that holds it sees the messages pushed onto it.  [ref] names the
    array in the heap; the [messages] column holds an array or a value
    that is not one. *)
Definition ref : Type := nat.

Inductive MessagesValue : Type :=
| MessageArray (r : ref)
| NotArray.

Module ServiceIntent.
Record t : Type := mk
  { intent : jsstring;
    confidence : number;
    category : jsstring }.
End ServiceIntent.

Module BotResponse.
Record t : Type := mk
  { id : jsstring;
    intent : jsstring;
    keywords : Json;
    responseAr : jsstring;
    responseFr : jsstring;
    category : jsstring;
    isActive : bool;
    createdAt : option N }.
End BotResponse.

(** [text] is a string for every message that the web handler makes.
    The events of Messenger are not validated, and the text of one of
    them may be absent or not a string: [None]. *)
Module Message.
Record t : Type := mk
  { id : jsstring;
    text : option jsstring;
    sender : Sender;
    timestamp : N;
    language : option Language }.
End Message.

Module Conversation.
Record t : Type := mk
  { id : jsstring;
    userId : jsstring;
    platform : jsstring;
    messages : MessagesValue;
    isActive : bool;
    createdAt : option N;
    updatedAt : option N }.
End Conversation.

(** The arrays of messages, by reference: [items] gives the items of
    each array, and [next] is the reference that the next new array
    gets.  No method reads an item: an array is given by the messages
    pushed onto it, after the items it came with. *)
Module Heap.

Record t : Type := mk
  { items : ref -> list Message.t;
    next : ref }.

Definition empty : t := mk (fun _ => []) 0.

Definition read (h : t) (r : ref) : list Message.t := items h r.

(** [array.push(message)] on the array that [r] names. *)
Definition push (h : t) (r : ref) (message : Message.t) : t :=
  mk (fun r' => if Nat.eqb r' r then items h r ++ [message] else items h r')
     (next h).

(** A new array with the items [l]. *)
Definition alloc (h : t) (l : list Message.t) : ref * t :=
  (next h,
   mk (fun r' => if Nat.eqb r' (next h) then l else items h r') (S (next h))).

End Heap.

(** The result every classification starts from. *)
Definition unknownIntent : ServiceIntent.t :=
  ServiceIntent.mk (lit "unknown") (Finite 0) (lit "general").

(** ** The chat bot service (chatbot.ts) *)

Module MobilisChatBot.

Record IntentData : Type := mkData
  { keywords : list jsstring;
    category : jsstring }.

(** The object; [predefinedIntents] is kept as the list of [name, data]
    pairs that [Object.entries] enumerates, in that order. *)
Record t : Type := mkBot
  { predefinedIntents : list (jsstring * IntentData) }.

Definition mobilisBot : t :=
  {| predefinedIntents :=
       [ (lit "balance",
          mkData [lit "رصيد"; lit "balance"; lit "solde"; lit "credit"; lit "استعلام"]
                 (lit "balance"));
         (lit "recharge",
          mkData [lit "شحن"; lit "recharge"; lit "rechargement"; lit "credit"; lit "top-up"]
                 (lit "recharge"));
         (lit "plans",
          mkData [lit "باقة"; lit "باقات"; lit "forfait"; lit "plans"; lit "abonnement";
                  lit "subscription"]
                 (lit "plans"));
         (lit "support",
          mkData [lit "مساعدة"; lit "دعم"; lit "aide"; lit "support"; lit "problème";
                  lit "مشكلة"; lit "help"]
                 (lit "support"));
         (lit "greeting",
          mkData [lit "مرحبا"; lit "أهلا"; lit "السلام"; lit "bonjour"; lit "salut";
                  lit "hello"; lit "hi"]
                 (lit "general")) ] |}.

(** What reading a property of one of the two reply tables gives: the
    text stored under that name, or, for a name that every object
    inherits, a member of [Object.prototype], which is not a string. *)
Inductive value : Type :=
| Str (s : jsstring)
| Inherited (name : jsstring).

Definition objectPrototypeNames : list jsstring :=
  [ lit "constructor"; lit "__defineGetter__"; lit "__defineSetter__";
    lit "hasOwnProperty"; lit "__lookupGetter__"; lit "__lookupSetter__";
    lit "isPrototypeOf"; lit "propertyIsEnumerable"; lit "toString";
    lit "valueOf"; lit "__proto__"; lit "toLocaleString" ].

Definition responses (language : Language) : list (jsstring * jsstring) :=
  match language with
  | ar =>
      [ (lit "balance", lit "يمكنكم الاستعلام عن رصيدكم عبر الاتصال بـ *555# أو عبر تطبيق موبليس");
        (lit "recharge", lit "يمكنكم شحن رصيدكم عبر بطاقات الشحن أو عبر التطبيق المصرفي أو نقاط البيع المعتمدة");
        (lit "plans", lit "لدينا باقات متنوعة للمكالمات والإنترنت. اتصل بـ 600 للمزيد من التفاصيل أو زوروا أقرب وكالة موبليس");
        (lit "support", lit "فريق الدعم الفني متاح على 600 من 8:00 إلى 20:00، أو يمكنكم زيارة أقرب وكالة موبليس");
        (lit "greeting", lit "مرحباً بكم في خدمة عملاء موبليس! كيف يمكنني مساعدتكم اليوم؟");
        (lit "unknown", lit "عذراً، لم أفهم استفساركم. يمكنكم التواصل مع خدمة العملاء على 600 أو زيارة أقرب وكالة موبليس") ]
  | fr =>
      [ (lit "balance", lit "Vous pouvez consulter votre solde en composant *555# ou via l'application Mobilis");
        (lit "recharge", lit "Vous pouvez recharger via les cartes de recharge, l'application bancaire ou les points de vente agréés");
        (lit "plans", lit "Nous avons diverses offres d'appels et internet. Appelez le 600 pour plus de détails ou visitez une agence Mobilis");
        (lit "support", lit "Le support technique est disponible au 600 de 8h00 à 20h00, ou visitez l'agence Mobilis la plus proche");
        (lit "greeting", lit "Bienvenue chez Mobilis! Comment puis-je vous aider aujourd'hui?");
        (lit "unknown", lit "Désolé, je n'ai pas compris votre demande. Vous pouvez contacter le service client au 600 ou visiter une agence Mobilis") ]
  end.

(** [table[name]] for a table written as an object literal. *)
Definition getProperty (table : list (jsstring * jsstring)) (name : jsstring)
  : option value :=
  match find (fun kv => strictEq (fst kv) name) table with
  | Some kv => Some (Str (snd kv))
  | None =>
      if existsb (strictEq name) objectPrototypeNames
      then Some (Inherited name) else None
  end.

(** [responses[language].unknown] *)
Definition unknownResponse (language : Language) : jsstring :=
  match getProperty (responses language) (lit "unknown") with
  | Some (Str s) => s
  | _ => []
  end.

Section Methods.

Context {host : LowerCase}.

Definition analyzeIntent (this : t) (message : jsstring) : ServiceIntent.t :=
  let normalizedMessage := trim (toLowerCase message) in
  let bestMatch := unknownIntent in
  fold_left
    (fun bestMatch (entry : jsstring * IntentData) =>
       let (intentName, intentData) := entry in
       fold_left
         (fun bestMatch keyword =>
            if includes normalizedMessage (toLowerCase keyword) then
              let confidence := div_length (length keyword) (length message) in
              if num_gt confidence (ServiceIntent.confidence bestMatch) then
                ServiceIntent.mk intentName confidence (category intentData)
              else bestMatch
            else bestMatch)
         (keywords intentData) bestMatch)
    (predefinedIntents this) bestMatch.

Definition generateResponse (intent : ServiceIntent.t) (language : Language)
  : value :=
  if num_lt (ServiceIntent.confidence intent) (Finite (1 # 10)) then
    Str (unknownResponse language)
  else
    match getProperty (responses language) (ServiceIntent.intent intent) with
    | Some (Str []) | None => Str (unknownResponse language)
    | Some v => v
    end.

End Methods.

End MobilisChatBot.

(** ** The in-memory store (storage.ts) *)

(** A [Map] with string keys: the entries in insertion order, one per key. *)
Module JSMap.

Definition t (V : Type) : Type := list (jsstring * V).

Definition get {V} (m : t V) (key : jsstring) : option V :=
  option_map snd (find (fun kv => strictEq (fst kv) key) m).

Fixpoint set {V} (m : t V) (key : jsstring) (v : V) : t V :=
  match m with
  | [] => [(key, v)]
  | kv :: m' =>
      if strictEq (fst kv) key then (key, v) :: m' else kv :: set m' key v
  end.

Definition has {V} (m : t V) (key : jsstring) : bool :=
  existsb (fun kv => strictEq (fst kv) key) m.

Definition delete {V} (m : t V) (key : jsstring) : t V :=
  filter (fun kv => negb (strictEq (fst kv) key)) m.

Definition values {V} (m : t V) : list V := map snd m.

End JSMap.

Module MemStorage.

(** The two maps that the classifier and its callers touch, with the
    arrays that the conversations hold ([arrays] is the part of the heap
    that the methods read and write); the Facebook settings and the
    statistics of the class are not read by them. *)
Record t : Type := mkStore
  { botResponses : JSMap.t BotResponse.t;
    conversations : JSMap.t Conversation.t;
    arrays : Heap.t }.

(** A method runs on the store and returns its result with the store it
    leaves. *)
Definition M (A : Type) : Type := t -> A * t.

Definition ret {A} (a : A) : M A := fun st => (a, st).

Definition bind {A B} (c : M A) (k : A -> M B) : M B :=
  fun st => let (a, st') := c st in k a st'.

Definition defaultResponses : list BotResponse.t :=
  [ BotResponse.mk [] (lit "balance_inquiry")
      (strings [lit "رصيد"; lit "balance"; lit "solde"; lit "credit"])
      (lit "يمكنكم الاستعلام عن رصيدكم عبر الاتصال بـ *555# أو عبر تطبيق موبليس")
      (lit "Vous pouvez consulter votre solde en composant *555# ou via l'application Mobilis")
      (lit "balance") true None;
    BotResponse.mk [] (lit "recharge")
      (strings [lit "شحن"; lit "recharge"; lit "rechargement"; lit "credit"])
      (lit "يمكنكم شحن رصيدكم عبر بطاقات الشحن أو عبر التطبيق المصرفي")
      (lit "Vous pouvez recharger via les cartes de recharge ou l'application bancaire")
      (lit "recharge") true None;
    BotResponse.mk [] (lit "plans")
      (strings [lit "باقة"; lit "باقات"; lit "forfait"; lit "plans"; lit "abonnement"])
      (lit "لدينا باقات متنوعة للمكالمات والإنترنت. اتصل بـ 600 للمزيد من التفاصيل")
      (lit "Nous avons diverses offres d'appels et internet. Appelez le 600 pour plus de détails")
      (lit "plans") true None;
    BotResponse.mk [] (lit "support")
      (strings [lit "مساعدة"; lit "دعم"; lit "aide"; lit "support"; lit "problème"; lit "مشكلة"])
      (lit "فريق الدعم الفني متاح على 600 من 8:00 إلى 20:00")
      (lit "Le support technique est disponible au 600 de 8h00 à 20h00")
      (lit "support") true None;
    BotResponse.mk [] (lit "greeting")
      (strings [lit "مرحبا"; lit "أهلا"; lit "السلام"; lit "bonjour"; lit "salut"; lit "hello"])
      (lit "مرحباً بكم في خدمة عملاء موبليس! كيف يمكنني مساعدتكم؟")
      (lit "Bienvenue chez Mobilis! Comment puis-je vous aider?")
      (lit "general") true None ].

(** [{ ...response, id }] *)
Definition withId (response : BotResponse.t) (id : jsstring) : BotResponse.t :=
  BotResponse.mk id (BotResponse.intent response) (BotResponse.keywords response)
    (BotResponse.responseAr response) (BotResponse.responseFr response)
    (BotResponse.category response) (BotResponse.isActive response)
    (BotResponse.createdAt response).

(** The identifiers that [randomUUID] draws are an input: [uuids] gives
    them in the order of the draws. *)
Definition initializeDefaultResponses (uuids : list jsstring) : M unit :=
  fun st =>
    (tt,
     mkStore
       (fold_left
          (fun m (ri : BotResponse.t * jsstring) =>
             JSMap.set m (snd ri) (withId (fst ri) (snd ri)))
          (combine defaultResponses uuids) (botResponses st))
       (conversations st) (arrays st)).

(** The constructor, up to the statistics of the day. *)
Definition new (uuids : list jsstring) : t :=
  snd (initializeDefaultResponses uuids (mkStore [] [] Heap.empty)).

Definition getAllBotResponses : M (list BotResponse.t) :=
  fun st =>
    (filter BotResponse.isActive (JSMap.values (botResponses st)), st).

Definition getBotResponseByIntent (intent : jsstring) : M (option BotResponse.t) :=
  fun st =>
    (find (fun r => strictEq (BotResponse.intent r) intent && BotResponse.isActive r)
          (JSMap.values (botResponses st)),
     st).

Definition deleteBotResponse (id : jsstring) : M bool :=
  fun st =>
    (JSMap.has (botResponses st) id,
     mkStore (JSMap.delete (botResponses st) id) (conversations st) (arrays st)).

(** An array literal, and the array of a parsed body: a new array of
    the heap. *)
Definition newArray (items : list Message.t) : M ref :=
  fun st =>
    let (messages, heap) := Heap.alloc (arrays st) items in
    (messages, mkStore (botResponses st) (conversations st) heap).

(** [messages.push(message)] *)
Definition push (messages : ref) (message : Message.t) : M unit :=
  fun st =>
    (tt,
     mkStore (botResponses st) (conversations st)
             (Heap.push (arrays st) messages message)).

(** [updateConversation(id, { messages })], the one use this development
    needs; [now] is the date the call reads. *)
Definition updateConversation (id : jsstring) (messages : MessagesValue) (now : N)
  : M (option Conversation.t) :=
  fun st =>
    match JSMap.get (conversations st) id with
    | None => (None, st)
    | Some conversation =>
        let updated :=
          Conversation.mk (Conversation.id conversation)
            (Conversation.userId conversation) (Conversation.platform conversation)
            messages (Conversation.isActive conversation)
            (Conversation.createdAt conversation) (Some now) in
        (Some updated,
         mkStore (botResponses st) (JSMap.set (conversations st) id updated)
                 (arrays st))
    end.

(** The message is pushed onto the array that the conversation holds,
    in place, or onto a new array when it holds none. *)
Definition addMessageToConversation (conversationId : jsstring)
    (message : Message.t) (now : N) : M bool :=
  fun st =>
    match JSMap.get (conversations st) conversationId with
    | None => (false, st)
    | Some conversation =>
        let (messages, st) :=
          match Conversation.messages conversation with
          | MessageArray messages => (messages, st)
          | NotArray => newArray [] st
          end in
        let (_, st) := push messages message st in
        let (_, st) :=
          updateConversation conversationId (MessageArray messages) now st in
        (true, st)
    end.

End MemStorage.

Notation "x <- c ;; k" := (MemStorage.bind c (fun x => k))
  (at level 61, c at next level, right associativity).

(** ** The helpers of the HTTP routes (routes part of storage.ts) *)

Module Routes.

Import MemStorage.

(** The values a request draws from the clock and from the generator of
    identifiers. *)
Record Fresh : Type := mkFresh
  { messageId : jsstring;
    messageTime : N;
    messageStored : N;
    botMessageId : jsstring;
    botMessageTime : N;
    botMessageStored : N }.

(** The answers of the handler: 404, the 400 of its [catch], or the
    message with the bot message, if any. *)
Inductive Reply : Type :=
| Status404
| Status400 (error : Error)
| Json (message : Message.t) (botResponse : option Message.t).

Section Helpers.

Context {host : LowerCase}.

(** [keyword.toLowerCase()] raises a [TypeError] for an item that is
    not a string: no other value has the method. *)
Definition analyzeIntent (text : jsstring) : M (Completion ServiceIntent.t) :=
  let normalizedText := toLowerCase text in
  responses <- getAllBotResponses ;;
  let bestMatch := unknownIntent in
  ret
    (foldM
       (fun bestMatch response =>
          let keywords :=
            match BotResponse.keywords response with
            | JsonArray ks => ks
            | _ => []
            end in
          foldM
            (fun bestMatch keyword =>
               match keyword with
               | JsonString keyword =>
                   Normal
                     (if includes normalizedText (toLowerCase keyword) then
                        let confidence :=
                          div_length (length keyword) (length text) in
                        if num_gt confidence (ServiceIntent.confidence bestMatch) then
                          ServiceIntent.mk (BotResponse.intent response) confidence
                            (BotResponse.category response)
                        else bestMatch
                      else bestMatch)
               | _ => Throw TypeError
               end)
            keywords bestMatch)
       responses bestMatch).

(** The two fixed texts of the low-confidence branch. *)
Definition unknownMessage (language : Language) : jsstring :=
  match language with
  | ar => lit "عذراً، لم أفهم استفساركم. يمكنكم التواصل مع خدمة العملاء على 600"
  | fr => lit "Désolé, je n'ai pas compris votre demande. Vous pouvez contacter le service client au 600"
  end.

(** [null] is [None]. *)
Definition generateBotResponse (intent : ServiceIntent.t) (language : Language)
  : M (option jsstring) :=
  if num_lt (ServiceIntent.confidence intent) (Finite (1 # 10)) then
    ret (Some (unknownMessage language))
  else
    response <- getBotResponseByIntent (ServiceIntent.intent intent) ;;
    match response with
    | None => ret None
    | Some response =>
        ret (Some (match language with
                   | ar => BotResponse.responseAr response
                   | fr => BotResponse.responseFr response
                   end))
    end.

(** What the handler does with the text it received for the reply: a
    text that is neither [null] nor empty becomes a bot message that is
    stored; otherwise no bot message is made. *)
Definition botReply (id : jsstring) (language : option Language)
    (fresh : Fresh) (response : option jsstring) : M (option Message.t) :=
  match response with
  | Some ((_ :: _) as response) =>
      let botMessage :=
        Message.mk (botMessageId fresh) (Some response) bot
          (botMessageTime fresh) language in
      _ <- addMessageToConversation id botMessage (botMessageStored fresh) ;;
      ret (Some botMessage)
  | _ => ret None
  end.

(** The handler of [POST /api/conversations/:id/messages], after the
    body has been parsed: [text] is a string, [sender] and [language]
    are of their enumerations.  An exception of the classification is
    caught by the handler, which answers 400; the message of the user is
    in the store by then. *)
Definition postMessage (id text : jsstring) (sender : Sender)
    (language : option Language) (fresh : Fresh) : M Reply :=
  let message :=
    Message.mk (messageId fresh) (Some text) sender (messageTime fresh) language in
  success <- addMessageToConversation id message (messageStored fresh) ;;
  if negb success then ret Status404
  else
    match sender with
    | user =>
        intent <- analyzeIntent text ;;
        match intent with
        | Throw error => ret (Status400 error)
        | Normal intent =>
            response <- generateBotResponse intent
                          (match language with Some l => l | None => ar end) ;;
            botResponse <- botReply id language fresh response ;;
            ret (Json message botResponse)
        end
    | bot => ret (Json message None)
    end.

End Helpers.

End Routes.

(** ** Vocabulary of the statements *)

(** What the two classifiers read of a catalog entry. *)
Record entry : Type := mkEntry
  { entryIntent : jsstring;
    entryCategory : jsstring;
    entryKeywords : list jsstring }.

(** The items that the loop of the routes takes from an entry, and the
    strings among them. *)
Definition keywordItems (r : BotResponse.t) : list Json :=
  match BotResponse.keywords r with
  | JsonArray ks => ks
  | _ => []
  end.

Definition isString (j : Json) : bool :=
  match j with
  | JsonString _ => true
  | _ => false
  end.

Definition keywordList (r : BotResponse.t) : list jsstring :=
  flat_map (fun j => match j with JsonString s => [s] | _ => [] end)
           (keywordItems r).

(** Every item of a keyword array of an active entry is a string. *)
Definition stringKeywords (st : MemStorage.t) : bool :=
  forallb (fun r => forallb isString (keywordItems r))
          (fst (MemStorage.getAllBotResponses st)).

Definition StringKeywords (st : MemStorage.t) : Prop := stringKeywords st = true.

(** What the classifier of the routes completes with on store [st]: a
    result with property [P] when the keywords of the active entries are
    strings, and a [TypeError] when one of them is not. *)
Definition Completes (st : MemStorage.t) (P : ServiceIntent.t -> Prop)
    (c : Completion ServiceIntent.t) : Prop :=
  match c with
  | Normal r => StringKeywords st /\ P r
  | Throw e => e = TypeError /\ ~ StringKeywords st
  end.

(** The catalog of the chat bot service, in the order of its loop. *)
Definition botEntries (this : MobilisChatBot.t) : list entry :=
  map (fun e => mkEntry (fst e) (MobilisChatBot.category (snd e))
                        (MobilisChatBot.keywords (snd e)))
      (MobilisChatBot.predefinedIntents this).

(** The catalog of the routes: the active entries of the store, in the
    order of the map. *)
Definition activeEntries (st : MemStorage.t) : list entry :=
  map (fun r => mkEntry (BotResponse.intent r) (BotResponse.category r)
                        (keywordList r))
      (fst (MemStorage.getAllBotResponses st)).

(** Every (entry, keyword) pair, in the order the nested loops visit them. *)
Definition visits (entries : list entry) : list (entry * jsstring) :=
  flat_map (fun e => map (pair e) (entryKeywords e)) entries.

(** The result that selecting keyword [k] of entry [e] writes. *)
Definition selection (len : nat) (e : entry) (k : jsstring) : ServiceIntent.t :=
  ServiceIntent.mk (entryIntent e) (div_length (length k) len) (entryCategory e).

Section Scan.

Context {host : LowerCase}.

(** The test of the inner loop. *)
Definition matches (normalized keyword : jsstring) : bool :=
  includes normalized (toLowerCase keyword).

(** One turn of the inner loop. *)
Definition consider (normalized : jsstring) (len : nat)
    (best : ServiceIntent.t) (v : entry * jsstring) : ServiceIntent.t :=
  if matches normalized (snd v) then
    if num_gt (div_length (length (snd v)) len) (ServiceIntent.confidence best)
    then selection len (fst v) (snd v)
    else best
  else best.

Definition scan (normalized : jsstring) (len : nat) (entries : list entry)
  : ServiceIntent.t :=
  fold_left (consider normalized len) (visits entries) unknownIntent.

(** Keyword [k] of entry [e] is found in the normalized message. *)
Definition hit (normalized : jsstring) (e : entry) (k : jsstring) : Prop :=
  In k (entryKeywords e) /\ matches normalized k = true.

(** [r] is the selection of the first visit among those of a matching
    keyword of greatest length, or the unknown result when every
    matching keyword is empty. *)
Definition Selected (normalized : jsstring) (len : nat)
    (vs : list (entry * jsstring)) (r : ServiceIntent.t) : Prop :=
  (r = unknownIntent
   /\ forall v, In v vs -> matches normalized (snd v) = true -> length (snd v) = 0)
  \/ (exists l1 v l2,
        vs = l1 ++ v :: l2
        /\ matches normalized (snd v) = true
        /\ 0 < length (snd v)
        /\ r = selection len (fst v) (snd v)
        /\ (forall v', In v' l1 -> matches normalized (snd v') = true ->
                       length (snd v') < length (snd v))
        /\ (forall v', In v' l2 -> matches normalized (snd v') = true ->
                       length (snd v') <= length (snd v))).

(** A best match, for a message of length [len]: the confidence is
    positive, it is the quotient of a matching keyword of
    the entry whose intent and category are returned, and no matching
    keyword has a greater quotient. *)
Definition BestMatch (normalized : jsstring) (len : nat)
    (entries : list entry) (r : ServiceIntent.t) : Prop :=
  num_gt (ServiceIntent.confidence r) (Finite 0) = true
  /\ (exists e k,
        In e entries /\ hit normalized e k
        /\ ServiceIntent.intent r = entryIntent e
        /\ ServiceIntent.category r = entryCategory e
        /\ ServiceIntent.confidence r = div_length (length k) len)
  /\ (forall e k,
        In e entries -> hit normalized e k ->
        num_ge (ServiceIntent.confidence r) (div_length (length k) len) = true).

End Scan.

(** The normalized message of the specification: lower-cased, then
    trimmed. *)
Definition normalize {host : LowerCase} (message : jsstring) : jsstring :=
  trim (toLowerCase message).

(** Trimming the lower-cased message changes no match of a keyword of
    the catalog. *)
Definition TrimNeutral {host : LowerCase} (message : jsstring)
    (entries : list entry) : Prop :=
  forall e k, In e entries -> In k (entryKeywords e) ->
              matches (toLowerCase message) k = matches (normalize message) k.

(** The confidence is the number 0. *)
Definition isZero (x : number) : Prop :=
  exists q, x = Finite q /\ (q == 0)%Q.

Section Outcomes.

Context {host : LowerCase}.

(** Entry [e] comes first among the entries whose longest matching
    keyword has the greatest length, [n]. *)
Definition FirstSeen (normalized : jsstring) (pre : list entry) (e : entry)
    (post : list entry) (n : nat) : Prop :=
  0 < n
  /\ (exists k, hit normalized e k /\ length k = n)
  /\ (forall k, hit normalized e k -> length k <= n)
  /\ (forall e' k, In e' pre -> hit normalized e' k -> length k < n)
  /\ (forall e' k, In e' post -> hit normalized e' k -> length k <= n).

(** The result is the unknown one, or it has a positive confidence and
    the intent and category of an entry with a non-empty keyword found
    in the normalized message; its confidence is 0 exactly when it is
    the unknown result, and, in a catalog without an entry named
    unknown, exactly when its intent is unknown. *)
Definition Outcome (normalized : jsstring) (entries : list entry)
    (r : ServiceIntent.t) : Prop :=
  (r = unknownIntent
   \/ (num_gt (ServiceIntent.confidence r) (Finite 0) = true
       /\ exists e k,
            In e entries /\ hit normalized e k /\ k <> []
            /\ ServiceIntent.intent r = entryIntent e
            /\ ServiceIntent.category r = entryCategory e))
  /\ (isZero (ServiceIntent.confidence r) <-> r = unknownIntent)
  /\ ((forall e, In e entries -> entryIntent e <> lit "unknown") ->
      (ServiceIntent.intent r = lit "unknown"
       <-> isZero (ServiceIntent.confidence r))).

End Outcomes.

(** The confidence is a fraction between 0 and 1. *)
Definition inUnitInterval (x : number) : Prop :=
  exists q, x = Finite q /\ (0 <= q)%Q /\ (q <= 1)%Q.

Section Bounds.

Context {host : LowerCase}.

(** The confidence is not below 0, and it is 0 when no keyword is found
    in the normalized message. *)
Definition LowerBound (normalized : jsstring) (entries : list entry)
    (r : ServiceIntent.t) : Prop :=
  num_ge (ServiceIntent.confidence r) (Finite 0) = true
  /\ ((forall e k, In e entries -> ~ hit normalized e k) ->
      ServiceIntent.confidence r = Finite 0).

(** The confidence is not above 1, and it is the quotient of the length
    of the message by itself when a keyword as long as the message is
    found in the normalized message. *)
Definition UpperBound (normalized : jsstring) (len : nat) (entries : list entry)
    (r : ServiceIntent.t) : Prop :=
  inUnitInterval (ServiceIntent.confidence r)
  /\ ((exists e k, In e entries /\ hit normalized e k /\ length k = len) ->
      0 < len ->
      ServiceIntent.confidence r = div_length len len).

End Bounds.

(** ** Stores and messages of the scenarios *)

(** The case table of the scenarios. *)
Definition latin : LowerCase := latinLowerCase.

Definition uuids : list jsstring :=
  [ lit "3f2b6c1e-0001"; lit "3f2b6c1e-0002"; lit "3f2b6c1e-0003";
    lit "3f2b6c1e-0004"; lit "3f2b6c1e-0005" ].

(** The store as the constructor leaves it. *)
Definition defaultStore : MemStorage.t := MemStorage.new uuids.

Definition storeOf (rs : list BotResponse.t) : MemStorage.t :=
  MemStorage.mkStore (map (fun r => (BotResponse.id r, r)) rs) [] Heap.empty.

(** The entry of the round-trip scenario. *)
Definition balanceEntry : BotResponse.t :=
  BotResponse.mk (lit "b1") (lit "balance_inquiry")
    (strings [lit "balance"; lit "solde"])
    (lit "...") (lit "Vous pouvez consulter votre solde...")
    (lit "balance") true None.

(** An entry whose keyword list ends with the empty keyword, as the
    administration form produces for a list typed with a final comma. *)
Definition trailingCommaEntry : BotResponse.t :=
  BotResponse.mk (lit "p1") (lit "plans")
    (strings [lit "forfait"; lit ""])
    (lit "...") (lit "Nous avons diverses offres")
    (lit "plans") true None.

(** An entry whose keyword is a small i followed by a combining dot. *)
Definition dottedEntry : BotResponse.t :=
  BotResponse.mk (lit "d1") (lit "greeting")
    (strings [[105; 775]%N])
    (lit "...") (lit "Bienvenue") (lit "general") true None.

(** An entry whose keyword ends with a space. *)
Definition spacedEntry : BotResponse.t :=
  BotResponse.mk (lit "g1") (lit "greeting")
    (strings [lit "hello "])
    (lit "...") (lit "Bienvenue") (lit "general") true None.

(** An entry that carries the name of the sentinel. *)
Definition sentinelEntry : BotResponse.t :=
  BotResponse.mk (lit "s1") (lit "unknown")
    (strings [lit "hi"])
    (lit "...") (lit "Bonjour") (lit "general") true None.

(** Two entries whose best keywords have the same length. *)
Definition tieEntries : list BotResponse.t :=
  [ BotResponse.mk (lit "t1") (lit "balance_inquiry")
      (strings [lit "solde"]) (lit "...") (lit "Solde") (lit "balance") true None;
    BotResponse.mk (lit "t2") (lit "plans")
      (strings [lit "plans"]) (lit "...") (lit "Forfaits") (lit "plans") true None ].

(** The chat bot service with the catalog of [spacedEntry]. *)
Definition spacedBot : MobilisChatBot.t :=
  MobilisChatBot.mkBot
    [ (lit "greeting", MobilisChatBot.mkData [lit "hello "] (lit "general")) ].

(** An entry whose array of keywords holds a number, as the body of
    [POST /api/bot-responses] may: the column is not validated. *)
Definition numberEntry : BotResponse.t :=
  BotResponse.mk (lit "n1") (lit "plans")
    (JsonArray [JsonString (lit "forfait"); JsonNumber 42])
    (lit "...") (lit "Nous avons diverses offres")
    (lit "plans") true None.

(** An entry whose keyword is one space. *)
Definition spaceEntry : BotResponse.t :=
  BotResponse.mk (lit "g2") (lit "greeting")
    (strings [lit " "])
    (lit "...") (lit "Bienvenue") (lit "general") true None.

(** Two entries whose only keyword is the empty one. *)
Definition emptyKeywordEntries : list BotResponse.t :=
  [ BotResponse.mk (lit "e1") (lit "plans")
      (strings [lit ""]) (lit "...") (lit "Forfaits") (lit "plans") true None;
    BotResponse.mk (lit "e2") (lit "support")
      (strings [lit ""]) (lit "...") (lit "Support") (lit "support") true None ].

(** The default store after the balance entry has been deleted. *)
Definition deletedStore : MemStorage.t :=
  snd (MemStorage.deleteBotResponse (lit "3f2b6c1e-0001") defaultStore).

(** The classification of the message of the round trip. *)
Definition balanceIntent : ServiceIntent.t :=
  ServiceIntent.mk (lit "balance_inquiry") (Finite (5 # 18)) (lit "balance").

(** An intent that no reply table knows, and one whose name is the name
    of a member that every object inherits. *)
Definition refundIntent : ServiceIntent.t :=
  ServiceIntent.mk (lit "refund") (Finite (1 # 2)) (lit "general").

Definition constructorIntent : ServiceIntent.t :=
  ServiceIntent.mk (lit "constructor") (Finite (1 # 2)) (lit "general").

(** ** The other methods of the store (storage.ts) *)

(** The body of an insertion request.  [isActive] is given, as the
    callers of the repository do; a request without it stores no flag,
    which the records of the schema do not carry.  [messages] is the
    value that the caller holds: for an array, the array itself, not a
    copy of it. *)
Module InsertConversation.
Record t : Type := mk
  { userId : jsstring;
    platform : jsstring;
    messages : MessagesValue;
    isActive : bool }.
End InsertConversation.

Module InsertBotResponse.
Record t : Type := mk
  { intent : jsstring;
    keywords : Json;
    responseAr : jsstring;
    responseFr : jsstring;
    category : jsstring;
    isActive : bool }.
End InsertBotResponse.

(** [Partial<BotResponse>]: the fields that are present. *)
Module PartialBotResponse.
Record t : Type := mk
  { id : option jsstring;
    intent : option jsstring;
    keywords : option Json;
    responseAr : option jsstring;
    responseFr : option jsstring;
    category : option jsstring;
    isActive : option bool;
    createdAt : option (option N) }.
End PartialBotResponse.

Module Store.

Import MemStorage.

Definition getConversation (id : jsstring) : M (option Conversation.t) :=
  fun st => (JSMap.get (conversations st) id, st).

Definition getConversationByUserId (userId : jsstring) : M (option Conversation.t) :=
  fun st =>
    (find (fun conv => strictEq (Conversation.userId conv) userId
                       && Conversation.isActive conv)
          (JSMap.values (conversations st)),
     st).

(** [id] is the identifier that [randomUUID] draws and [now] the date
    the call reads. *)
Definition createConversation (insertConversation : InsertConversation.t)
    (id : jsstring) (now : N) : M Conversation.t :=
  fun st =>
    let conversation :=
      Conversation.mk id
        (InsertConversation.userId insertConversation)
        (InsertConversation.platform insertConversation)
        (InsertConversation.messages insertConversation)
        (InsertConversation.isActive insertConversation)
        (Some now) (Some now) in
    (conversation,
     mkStore (botResponses st) (JSMap.set (conversations st) id conversation)
             (arrays st)).

Definition createBotResponse (response : InsertBotResponse.t)
    (id : jsstring) (now : N) : M BotResponse.t :=
  fun st =>
    let botResponse :=
      BotResponse.mk id
        (InsertBotResponse.intent response)
        (InsertBotResponse.keywords response)
        (InsertBotResponse.responseAr response)
        (InsertBotResponse.responseFr response)
        (InsertBotResponse.category response)
        (InsertBotResponse.isActive response)
        (Some now) in
    (botResponse,
     mkStore (JSMap.set (botResponses st) id botResponse) (conversations st)
             (arrays st)).

(** [{ ...response, ...updates }] *)
Definition spread (response : BotResponse.t) (updates : PartialBotResponse.t)
  : BotResponse.t :=
  let pick {A} (o : option A) (d : A) := match o with Some a => a | None => d end in
  BotResponse.mk
    (pick (PartialBotResponse.id updates) (BotResponse.id response))
    (pick (PartialBotResponse.intent updates) (BotResponse.intent response))
    (pick (PartialBotResponse.keywords updates) (BotResponse.keywords response))
    (pick (PartialBotResponse.responseAr updates) (BotResponse.responseAr response))
    (pick (PartialBotResponse.responseFr updates) (BotResponse.responseFr response))
    (pick (PartialBotResponse.category updates) (BotResponse.category response))
    (pick (PartialBotResponse.isActive updates) (BotResponse.isActive response))
    (pick (PartialBotResponse.createdAt updates) (BotResponse.createdAt response)).

Definition updateBotResponse (id : jsstring) (updates : PartialBotResponse.t)
  : M (option BotResponse.t) :=
  fun st =>
    match JSMap.get (botResponses st) id with
    | None => (None, st)
    | Some response =>
        let updated := spread response updates in
        (Some updated,
         mkStore (JSMap.set (botResponses st) id updated) (conversations st)
                 (arrays st))
    end.

End Store.

(** The messages of a conversation in a store, as
    [addMessageToConversation] reads them: the items of its array. *)
Definition messageList (st : MemStorage.t) (c : Conversation.t) : list Message.t :=
  match Conversation.messages c with
  | MessageArray r => Heap.read (MemStorage.arrays st) r
  | NotArray => []
  end.

(** The array that receives a message added to the conversation: the
    array that it holds, or the new one. *)
Definition targetArray (st : MemStorage.t) (c : Conversation.t) : ref :=
  match Conversation.messages c with
  | MessageArray r => r
  | NotArray => Heap.next (MemStorage.arrays st)
  end.

(** Two conversations hold the same array. *)
Definition sameArray (c c' : Conversation.t) : bool :=
  match Conversation.messages c, Conversation.messages c' with
  | MessageArray r, MessageArray r' => Nat.eqb r r'
  | _, _ => false
  end.

(** The value is not an array, or it is an array that the heap holds. *)
Definition Allocated (st : MemStorage.t) (messages : MessagesValue) : Prop :=
  match messages with
  | MessageArray r => r < Heap.next (MemStorage.arrays st)
  | NotArray => True
  end.

(** The arrays that the conversations hold are arrays of the heap, as
    every array that a value holds is. *)
Definition ArraysAllocated (st : MemStorage.t) : Prop :=
  forall id c, JSMap.get (MemStorage.conversations st) id = Some c ->
               Allocated st (Conversation.messages c).

(** Every entry of a map is stored under its own identifier. *)
Definition KeyedBy {V} (ident : V -> jsstring) (m : JSMap.t V) : Prop :=
  forall kv, In kv m -> fst kv = ident (snd kv).

(** No key occurs twice, as in every [Map]. *)
Definition UniqueKeys {V} (m : JSMap.t V) : Prop := NoDup (map fst m).

(** The stores that the methods of the class keep to. *)
Definition WellFormed (st : MemStorage.t) : Prop :=
  UniqueKeys (MemStorage.botResponses st)
  /\ UniqueKeys (MemStorage.conversations st)
  /\ KeyedBy BotResponse.id (MemStorage.botResponses st)
  /\ KeyedBy Conversation.id (MemStorage.conversations st).

(** A conversation on the web with an empty array of messages, added
    to the default store, and a message of its user. *)
Definition webConversation (messages : MessagesValue) : InsertConversation.t :=
  InsertConversation.mk (lit "user_1") (lit "web") messages true.

Definition chatStore : MemStorage.t :=
  snd ((messages <- MemStorage.newArray [] ;;
        Store.createConversation (webConversation (MessageArray messages))
          (lit "c-0001") 1000) defaultStore).

(** Two conversations made from one insertion object, which hold the
    same array. *)
Definition sharedStore : MemStorage.t :=
  snd ((messages <- MemStorage.newArray [] ;;
        let insertConversation := webConversation (MessageArray messages) in
        _ <- Store.createConversation insertConversation (lit "c-0001") 1000 ;;
        Store.createConversation insertConversation (lit "c-0002") 1001)
         defaultStore).

Definition soldeMessage : Message.t :=
  Message.mk (lit "m-0001") (Some (lit "quel est mon solde")) user 2000 (Some fr).

Definition merciMessage : Message.t :=
  Message.mk (lit "m-0002") (Some (lit "merci")) user 3000 (Some fr).

(** Adding messages one after the other; each comes with the date its
    call reads. *)
Definition addAll (id : jsstring) (batch : list (Message.t * N))
    (st : MemStorage.t) : MemStorage.t :=
  fold_left
    (fun st mn => snd (MemStorage.addMessageToConversation id (fst mn) (snd mn) st))
    batch st.

(** A new entry for the catalog: a second entry for the balance intent,
    and an entry with a long keyword. *)
Definition secondBalance : InsertBotResponse.t :=
  InsertBotResponse.mk (lit "balance_inquiry") (strings [lit "compte"])
    (lit "...") (lit "Votre compte") (lit "balance") true.

Definition soldeRestant : InsertBotResponse.t :=
  InsertBotResponse.mk (lit "remaining") (strings [lit "mon solde"])
    (lit "...") (lit "Solde restant") (lit "balance") true.

(** The reply of an entry in a language. *)
Definition localized (language : Language) (r : BotResponse.t) : jsstring :=
  match language with
  | ar => BotResponse.responseAr r
  | fr => BotResponse.responseFr r
  end.

(** What the catalog reads of a new entry. *)
Definition entryOf (r : BotResponse.t) : entry :=
  mkEntry (BotResponse.intent r) (BotResponse.category r) (keywordList r).

(** Updates: a change of the French reply only, and a deactivation. *)
Definition replyUpdate : PartialBotResponse.t :=
  PartialBotResponse.mk None None None None (Some (lit "Composez *555#")) None None None.

Definition deactivation : PartialBotResponse.t :=
  PartialBotResponse.mk None None None None None None (Some false) None.

(** The values that the handler of the web messages draws for the
    scenarios. *)
Definition webFresh : Routes.Fresh :=
  Routes.mkFresh (lit "m-0001") 2000 2001 (lit "m-0002") 2002 2003.

(** A long message with one short keyword, and the default store with
    its entries in the opposite order. *)
Definition longMessage : jsstring :=
  lit "j'ai besoin d'aide pour configurer la messagerie vocale".

Definition reversedStore : MemStorage.t :=
  storeOf (rev (JSMap.values (MemStorage.botResponses defaultStore))).

(** The quick replies of the chat bot service (chatbot.ts). *)
Module QuickReply.
Record t : Type := mk
  { title : jsstring;
    payload : jsstring }.
End QuickReply.

Definition generateServiceQuickReplies (language : Language) : list QuickReply.t :=
  match language with
  | ar =>
      [ QuickReply.mk (lit "الرصيد") (lit "balance");
        QuickReply.mk (lit "الشحن") (lit "recharge");
        QuickReply.mk (lit "الباقات") (lit "plans");
        QuickReply.mk (lit "الدعم") (lit "support") ]
  | fr =>
      [ QuickReply.mk (lit "Solde") (lit "balance");
        QuickReply.mk (lit "Recharge") (lit "recharge");
        QuickReply.mk (lit "Forfaits") (lit "plans");
        QuickReply.mk (lit "Support") (lit "support") ]
  end.

(** ** The settings, the statistics and the Messenger side *)

(** A field that is absent, [null] or given. *)
Inductive nullable (A : Type) : Type :=
| Undefined
| Null
| Value (a : A).
Arguments Undefined {A}.
Arguments Null {A}.

(** [InsertFacebookSettings]; the stored settings keep these fields as
    they were given. *)
Module InsertFacebookSettings.
Record t : Type := mk
  { pageAccessToken : nullable jsstring;
    verifyToken : nullable jsstring;
    webhookUrl : nullable jsstring;
    isActive : option bool }.
End InsertFacebookSettings.

Module FacebookSettings.
Record t : Type := mk
  { id : jsstring;
    given : InsertFacebookSettings.t;
    updatedAt : N }.
End FacebookSettings.

Module ChatStats.
Record t : Type := mk
  { id : jsstring;
    date : jsstring;
    totalConversations : jsstring;
    resolvedQueries : jsstring;
    balanceInquiries : jsstring;
    averageResponses : jsstring }.
End ChatStats.

(** [Partial<InsertChatStats>] *)
Module PartialChatStats.
Record t : Type := mk
  { date : option jsstring;
    totalConversations : option jsstring;
    resolvedQueries : option jsstring;
    balanceInquiries : option jsstring;
    averageResponses : option jsstring }.
End PartialChatStats.

(** The whole object of the class: the two maps of [MemStorage.t] with
    the settings and the statistics. *)
Module Storage.

Record t : Type := mk
  { core : MemStorage.t;
    facebookSettings : option FacebookSettings.t;
    chatStats : JSMap.t ChatStats.t }.

Definition S (A : Type) : Type := t -> A * t.


(** [a || b] on two texts and [a || b] on an absent or given text. *)
Definition orText (a b : jsstring) : jsstring :=
  match a with
  | [] => b
  | _ :: _ => a
  end.

Definition orGiven (a : option jsstring) (b : jsstring) : jsstring :=
  match a with
  | Some ((_ :: _) as s) => s
  | _ => b
  end.

(** The statistics that the constructor stores for the day: [id] is the
    identifier drawn and [today] the date read. *)
Definition initializeTodayStats (id today : jsstring) : S unit :=
  fun st =>
    let stats :=
      ChatStats.mk id today (lit "324") (lit "289") (lit "156") (lit "2.3") in
    (tt, mk (core st) (facebookSettings st) (JSMap.set (chatStats st) today stats)).

Definition new (uuids : list jsstring) (statsId today : jsstring) : t :=
  snd (initializeTodayStats statsId today (mk (MemStorage.new uuids) None [])).

Definition getFacebookSettings : S (option FacebookSettings.t) :=
  fun st => (facebookSettings st, st).

(** [uuid] is the identifier that is drawn when none is kept. *)
Definition updateFacebookSettings (settings : InsertFacebookSettings.t)
    (uuid : jsstring) (now : N) : S FacebookSettings.t :=
  fun st =>
    let id :=
      orText (match facebookSettings st with
              | Some old => FacebookSettings.id old
              | None => []
              end) uuid in
    let stored := FacebookSettings.mk id settings now in
    (stored, mk (core st) (Some stored) (chatStats st)).

Definition getChatStats (date : jsstring) : S (option ChatStats.t) :=
  fun st => (JSMap.get (chatStats st) date, st).

Definition updateChatStats (date : jsstring) (updates : PartialChatStats.t)
    (uuid : jsstring) : S ChatStats.t :=
  fun st =>
    let existing := JSMap.get (chatStats st) date in
    let kept (field : ChatStats.t -> jsstring) : jsstring :=
      match existing with
      | Some e => field e
      | None => []
      end in
    let stats :=
      ChatStats.mk
        (orText (kept ChatStats.id) uuid)
        date
        (orGiven (PartialChatStats.totalConversations updates)
           (orText (kept ChatStats.totalConversations) (lit "0")))
        (orGiven (PartialChatStats.resolvedQueries updates)
           (orText (kept ChatStats.resolvedQueries) (lit "0")))
        (orGiven (PartialChatStats.balanceInquiries updates)
           (orText (kept ChatStats.balanceInquiries) (lit "0")))
        (orGiven (PartialChatStats.averageResponses updates)
           (orText (kept ChatStats.averageResponses) (lit "0"))) in
    (stats, mk (core st) (facebookSettings st) (JSMap.set (chatStats st) date stats)).

End Storage.

(** The Messenger routes. *)
Module Messenger.

Import Storage.

(** A value of the query string: absent, a text, or an array or object. *)
Inductive QueryValue : Type :=
| QAbsent
| QText (s : jsstring)
| QOther.

(** [token === settings.verifyToken] *)
Definition sameToken (token : QueryValue) (verifyToken : nullable jsstring) : bool :=
  match token, verifyToken with
  | QAbsent, Undefined => true
  | QText s, Value t => strictEq s t
  | _, _ => false
  end.

Inductive Verification : Type :=
| Challenge (challenge : QueryValue)
| Forbidden
| BadRequest.

(** The handler of [GET /webhook/messenger]. *)
Definition verifyWebhook (mode token challenge : QueryValue) : S Verification :=
  fun st =>
    match mode with
    | QText m =>
        if strictEq m (lit "subscribe") then
          let (settings, st') := getFacebookSettings st in
          match settings with
          | Some settings =>
              if sameToken token
                   (InsertFacebookSettings.verifyToken (FacebookSettings.given settings))
              then (Challenge challenge, st')
              else (Forbidden, st')
          | None => (Forbidden, st')
          end
        else (BadRequest, st)
    | _ => (BadRequest, st)
    end.

(** The request that [sendFacebookMessage] posts to the Graph API. *)
Record Outbound : Type := mkOutbound
  { accessToken : jsstring;
    recipient : jsstring;
    text : jsstring }.

(** The reply of the Graph API is only logged: the function is the
    request it makes, if any. *)
Definition sendFacebookMessage (recipientId messageText : jsstring)
  : S (option Outbound) :=
  fun st =>
    let (settings, st') := getFacebookSettings st in
    match settings with
    | Some settings =>
        match InsertFacebookSettings.pageAccessToken (FacebookSettings.given settings) with
        | Value ((_ :: _) as token) => (Some (mkOutbound token recipientId messageText), st')
        | _ => (None, st')
        end
    | None => (None, st')
    end.


(** The values that one call draws from the clock and from the generator
    of identifiers. *)
Record Fresh : Type := mkFresh
  { conversationId : jsstring;
    conversationCreated : N;
    userMessageId : jsstring;
    userMessageStored : N;
    botMessageId : jsstring;
    botMessageTime : N;
    botMessageStored : N }.

Section Handler.

Context {host : LowerCase}.



End Handler.

End Messenger.

(** Scenarios of the settings and of Messenger. *)
Definition fullStore : Storage.t :=
  Storage.new uuids (lit "s-0001") (lit "2025-01-15").


Definition tokenOnly : InsertFacebookSettings.t :=
  InsertFacebookSettings.mk Undefined (Value (lit "other")) Undefined None.





(** A counter that an update does not carry, or carries empty. *)
Definition blank (o : option jsstring) : Prop := o = None \/ o = Some [].

(** Statistics stored under their date, with an identifier and four
    counters that are not empty. *)
Definition WellStats (date : jsstring) (s : ChatStats.t) : Prop :=
  ChatStats.date s = date
  /\ ChatStats.id s <> []
  /\ ChatStats.totalConversations s <> []
  /\ ChatStats.resolvedQueries s <> []
  /\ ChatStats.balanceInquiries s <> []
  /\ ChatStats.averageResponses s <> [].

(** * Properties *)

(** ** Strings *)

Lemma startsWith_length (s t : jsstring) :
  startsWith s t = true -> length t <= length s.
Proof.
  revert s; induction t as [|c t IH]; intros [|d s] H; simpl in *;
    try lia; try discriminate.
  apply andb_true_iff in H as [_ H]. apply IH in H. lia.
Qed.

Lemma includes_length (s t : jsstring) :
  includes s t = true -> length t <= length s.
Proof.
  induction s as [|d s IH]; intros H.
  - destruct t; [simpl; lia|discriminate H].
  - cbn [includes] in H. apply orb_true_iff in H as [H|H].
    + now apply startsWith_length in H.
    + apply IH in H. simpl. lia.
Qed.

Lemma includes_nil (t : jsstring) : includes [] t = true -> t = [].
Proof.
  intros H. apply includes_length in H. destruct t; [reflexivity|simpl in H; lia].
Qed.

Lemma trimStart_length (s : jsstring) : length (trimStart s) <= length s.
Proof.
  induction s as [|c s IH]; simpl; [lia|].
  destruct (isWhiteSpace c); simpl; lia.
Qed.

Lemma trim_length (s : jsstring) : length (trim s) <= length s.
Proof.
  unfold trim, trimEnd. rewrite length_rev.
  pose proof (trimStart_length (rev (trimStart s))) as H.
  rewrite length_rev in H. pose proof (trimStart_length s). lia.
Qed.

Lemma strictEq_true (s t : jsstring) : strictEq s t = true <-> s = t.
Proof.
  unfold strictEq. destruct (list_eq_dec N.eq_dec s t); split; congruence.
Qed.

Lemma lowerUnit_length (c : codeunit) : 1 <= length (lowerUnit c).
Proof.
  unfold lowerUnit.
  repeat match goal with |- context [if ?b then _ else _] => destruct b end;
    simpl; lia.
Qed.

Lemma latinLowerCase_length (s : jsstring) : length s <= length (latinLowerCase s).
Proof.
  induction s as [|c s IH]; simpl; [lia|].
  rewrite length_app. pose proof (lowerUnit_length c). lia.
Qed.

Lemma startsWith_spec (s t : jsstring) :
  startsWith s t = true <-> exists b, s = t ++ b.
Proof.
  revert s; induction t as [|c t IH]; intros s.
  - split; [exists s; reflexivity|reflexivity].
  - destruct s as [|d s]; simpl.
    + split; [discriminate|intros [b E]; discriminate].
    + rewrite andb_true_iff, IH, N.eqb_eq. split.
      * intros [-> [b ->]]. now exists b.
      * intros [b E]. injection E as -> ->. split; [reflexivity|now exists b].
Qed.

Lemma includes_spec (s t : jsstring) :
  includes s t = true <-> exists a b, s = a ++ t ++ b.
Proof.
  induction s as [|d s IH]; cbn [includes]; rewrite orb_true_iff, startsWith_spec.
  - split.
    + intros [[b E]|H]; [exists [], b; assumption|discriminate].
    + intros (a & b & E). left. destruct a; [now exists b|discriminate].
  - rewrite IH. split.
    + intros [[b E]|(a & b & E)]; [exists [], b; assumption|].
      exists (d :: a), b. simpl. now rewrite E.
    + intros ([|x a] & b & E).
      * left. now exists b.
      * right. injection E as -> E. now exists a, b.
Qed.

Lemma includes_empty (s : jsstring) : includes s [] = true.
Proof. destruct s; reflexivity. Qed.

Lemma trimStart_suffix (s : jsstring) : exists ws, s = ws ++ trimStart s.
Proof.
  induction s as [|c s [ws E]]; [now exists []|]. simpl.
  destruct (isWhiteSpace c); [|now exists []].
  exists (c :: ws). simpl. now rewrite <- E.
Qed.

Lemma trimEnd_prefix (s : jsstring) : exists ws, s = trimEnd s ++ ws.
Proof.
  unfold trimEnd. destruct (trimStart_suffix (rev s)) as [ws E].
  exists (rev ws). rewrite <- rev_app_distr, <- E. now rewrite rev_involutive.
Qed.

Lemma trimStart_app (a r : jsstring) (c : codeunit) :
  isWhiteSpace c = false -> trimStart (a ++ c :: r) = trimStart a ++ c :: r.
Proof.
  intros Hc. induction a as [|x a IH]; simpl; [now rewrite Hc|].
  destruct (isWhiteSpace x); [assumption|reflexivity].
Qed.

Lemma trimEnd_app (a b : jsstring) (c : codeunit) :
  isWhiteSpace c = false -> trimEnd (a ++ c :: b) = a ++ c :: trimEnd b.
Proof.
  intros Hc. unfold trimEnd.
  rewrite rev_app_distr. cbn [rev]. rewrite <- app_assoc. cbn [app].
  rewrite trimStart_app by assumption.
  rewrite rev_app_distr. cbn [rev]. rewrite rev_involutive, <- app_assoc.
  reflexivity.
Qed.

(** A non-empty string that trimming leaves as it is begins and ends
    with a code unit that is not white space. *)
Lemma trimStart_fixed (t : jsstring) (c : codeunit) :
  trimStart (c :: t) = c :: t -> isWhiteSpace c = false.
Proof.
  simpl. destruct (isWhiteSpace c); [|reflexivity].
  intros E. pose proof (trimStart_length t) as L. rewrite E in L. simpl in L. lia.
Qed.

Lemma trim_fixed_start (t : jsstring) : trim t = t -> trimStart t = t.
Proof.
  intros E. destruct (trimStart_suffix t) as [ws Hws].
  pose proof (trimStart_length (rev (trimStart t))) as L.
  assert (Hlen : length t <= length (trimStart t)).
  { rewrite <- E at 1. unfold trim, trimEnd. rewrite length_rev.
    rewrite length_rev in L. assumption. }
  assert (length ws = 0).
  { apply (f_equal (@length _)) in Hws. rewrite length_app in Hws. lia. }
  destruct ws; [simpl in Hws; now symmetry|discriminate].
Qed.

Lemma trim_fixed_edges (t : jsstring) :
  t <> [] -> trim t = t ->
  exists c m d,
    isWhiteSpace c = false /\ isWhiteSpace d = false
    /\ (t = [c] /\ c = d \/ t = c :: m ++ [d]).
Proof.
  intros Hne E. pose proof (trim_fixed_start E) as Es.
  assert (Ee : trimStart (rev t) = rev t).
  { unfold trim in E. rewrite Es in E. unfold trimEnd in E.
    apply (f_equal (@rev _)) in E. now rewrite rev_involutive in E. }
  destruct t as [|c t]; [congruence|].
  pose proof (trimStart_fixed Es) as Hc.
  destruct (rev (c :: t)) as [|d u] eqn:R.
  - apply (f_equal (@length _)) in R. rewrite length_rev in R. discriminate.
  - pose proof (trimStart_fixed Ee) as Hd.
    apply (f_equal (@rev _)) in R. rewrite rev_involutive in R. cbn [rev] in R.
    exists c. destruct (rev u) as [|x m] eqn:U.
    + exists [], d. injection R as -> ->. repeat split; try assumption. now left.
    + exists m, d. injection R as -> ->. repeat split; try assumption. now right.
Qed.

(** Trimming a string changes no occurrence of a string that trimming
    leaves as it is. *)
Lemma includes_trim (s t : jsstring) :
  trim t = t -> includes (trim s) t = includes s t.
Proof.
  intros Ht. destruct t as [|c0 t0].
  { now rewrite !includes_empty. }
  assert (Hne : c0 :: t0 <> []) by discriminate.
  remember (c0 :: t0) as t eqn:Et. clear Et c0 t0.
  destruct (trim_fixed_edges Hne Ht) as (c & m & d & Hc & Hd & Hshape).
  destruct (includes s t) eqn:I.
  - apply includes_spec in I as (a & b & Es). apply includes_spec.
    exists (trimStart a), (trimEnd b). unfold trim. rewrite Es.
    destruct Hshape as [[E1 E2]|E1]; rewrite E1; cbn [app].
    + rewrite trimStart_app by assumption. now rewrite trimEnd_app.
    + rewrite trimStart_app by assumption.
      assert (X : forall z, trimStart a ++ c :: (m ++ [d]) ++ z
                            = (trimStart a ++ c :: m) ++ d :: z)
        by (intros z; rewrite <- !app_assoc; reflexivity).
      rewrite !X. now apply trimEnd_app.
  - destruct (includes (trim s) t) eqn:I'; [|reflexivity].
    apply includes_spec in I' as (a & b & E).
    assert (H : includes s t = true); [|congruence].
    apply includes_spec. unfold trim in E.
    destruct (trimStart_suffix s) as [ws1 E1].
    destruct (trimEnd_prefix (trimStart s)) as [ws2 E2].
    exists (ws1 ++ a), (b ++ ws2). rewrite E1, E2, E at 1.
    now rewrite <- !app_assoc.
Qed.

(** ** Quotients of lengths *)

Lemma num_gt_div_zero (a d : nat) :
  num_gt (div_length a d) (Finite 0) = (0 <? a).
Proof.
  destruct d as [|d]; destruct a as [|a]; reflexivity.
Qed.

Lemma Qle_bool_same_den (a b : nat) (p : positive) :
  Qle_bool (Z.of_nat a # p) (Z.of_nat b # p) = (a <=? b).
Proof.
  unfold Qle_bool; simpl.
  destruct (Nat.leb_spec a b); [apply Z.leb_le|apply Z.leb_gt]; nia.
Qed.

Lemma num_gt_div_div (a b d : nat) :
  0 < d -> num_gt (div_length a d) (div_length b d) = (b <? a).
Proof.
  destruct d as [|d]; [lia|intros _]. simpl.
  rewrite Qle_bool_same_den. rewrite Nat.ltb_antisym. reflexivity.
Qed.

Lemma num_ge_div_div (a b d : nat) :
  0 < d -> num_ge (div_length a d) (div_length b d) = (b <=? a).
Proof.
  destruct d as [|d]; [lia|intros _]. simpl.
  rewrite Qle_bool_same_den. now rewrite negb_involutive.
Qed.

Lemma num_gt_div_infinite (a b : nat) :
  0 < b -> num_gt (div_length a 0) (div_length b 0) = false.
Proof.
  destruct b as [|b]; [lia|intros _]. destruct a; reflexivity.
Qed.

Lemma div_length_unit (a d : nat) :
  0 < d -> a <= d -> inUnitInterval (div_length a d).
Proof.
  destruct d as [|d]; [lia|intros _ H].
  eexists; split; [reflexivity|].
  unfold Qle; cbn [Qnum Qden]. lia.
Qed.

(** ** The scan of the catalog *)

Lemma fold_left_flat_map {A B C} (f : A -> C -> A) (g : B -> list C)
    (l : list B) (a : A) :
  fold_left f (flat_map g l) a = fold_left (fun a x => fold_left f (g x) a) l a.
Proof.
  revert a; induction l as [|x l IH]; intros a; simpl; [reflexivity|].
  now rewrite fold_left_app, IH.
Qed.

Lemma fold_left_map {A B C} (f : A -> C -> A) (g : B -> C) (l : list B) (a : A) :
  fold_left f (map g l) a = fold_left (fun a x => f a (g x)) l a.
Proof.
  revert a; induction l as [|x l IH]; intros a; simpl; [reflexivity|apply IH].
Qed.

Lemma fold_left_ext_eq {A B} (f g : A -> B -> A) (l : list B) (a : A) :
  (forall a x, f a x = g a x) -> fold_left f l a = fold_left g l a.
Proof.
  intros E; revert a; induction l as [|x l IH]; intros a; simpl;
    [reflexivity|now rewrite E, IH].
Qed.

Lemma fold_left_ext_in {A B} (f g : A -> B -> A) (l : list B) (a : A) :
  (forall a x, In x l -> f a x = g a x) -> fold_left f l a = fold_left g l a.
Proof.
  revert a; induction l as [|x l IH]; intros a E; simpl; [reflexivity|].
  rewrite E by now left. apply IH. intros a' y Hy. apply E. now right.
Qed.

Lemma in_visits (entries : list entry) (e : entry) (k : jsstring) :
  In (e, k) (visits entries) <-> In e entries /\ In k (entryKeywords e).
Proof.
  unfold visits. rewrite in_flat_map. split.
  - intros (e' & He & Hk). apply in_map_iff in Hk as (k' & E & Hk).
    inversion E; subst. now split.
  - intros (He & Hk). exists e. split; [assumption|]. now apply in_map.
Qed.

Lemma in_visits_pair (entries : list entry) (v : entry * jsstring) :
  In v (visits entries) -> In (fst v) entries /\ In (snd v) (entryKeywords (fst v)).
Proof. destruct v as [e k]. apply in_visits. Qed.

Section ScanFacts.

Context {host : LowerCase}.


(** The chat bot service runs the scan on the trimmed lower-cased
    message. *)
Lemma bot_scan (this : MobilisChatBot.t) (message : jsstring) :
  MobilisChatBot.analyzeIntent this message
  = scan (trim (toLowerCase message)) (length message) (botEntries this).
Proof.
  unfold MobilisChatBot.analyzeIntent, scan, visits, botEntries.
  rewrite fold_left_flat_map, fold_left_map.
  apply fold_left_ext_eq. intros a [name data]. cbn [fst snd entryKeywords].
  rewrite fold_left_map. reflexivity.
Qed.

(** A loop over items that are used as strings runs over all of them
    when they are strings, and raises otherwise. *)
Lemma foldM_strings {A} (f : A -> jsstring -> A) (items : list Json) (a : A) :
  foldM (fun a j =>
           match j with
           | JsonString s => Normal (f a s)
           | _ => Throw TypeError
           end) items a
  = if forallb isString items
    then Normal
           (fold_left f
              (flat_map (fun j => match j with JsonString s => [s] | _ => [] end)
                        items) a)
    else Throw TypeError.
Proof.
  revert a. induction items as [|j items IH]; intros a; [reflexivity|].
  destruct j; cbn [foldM forallb isString andb flat_map app fold_left];
    try reflexivity.
  apply IH.
Qed.

Lemma foldM_all {A B} (f : A -> B -> Completion A) (g : A -> B -> A)
    (ok : B -> bool) (l : list B) (a : A) :
  (forall a b, f a b = if ok b then Normal (g a b) else Throw TypeError) ->
  foldM f l a = if forallb ok l then Normal (fold_left g l a) else Throw TypeError.
Proof.
  intros E. revert a. induction l as [|b l IH]; intros a; [reflexivity|].
  cbn [foldM forallb fold_left]. rewrite E.
  destruct (ok b); [apply IH|reflexivity].
Qed.

(** The routes run it on the lower-cased text and leave the store as
    it is; they raise when a keyword of an active entry is not a string. *)
Lemma routes_scan (text : jsstring) (st : MemStorage.t) :
  Routes.analyzeIntent text st
  = (if stringKeywords st
     then Normal (scan (toLowerCase text) (length text) (activeEntries st))
     else Throw TypeError, st).
Proof.
  unfold Routes.analyzeIntent, MemStorage.bind, MemStorage.ret,
    MemStorage.getAllBotResponses, stringKeywords, scan, visits, activeEntries.
  cbn [fst snd]. f_equal.
  rewrite (@foldM_all _ _ _
             (fun a r =>
                fold_left
                  (fun a k =>
                     consider (toLowerCase text) (length text) a
                       (mkEntry (BotResponse.intent r) (BotResponse.category r)
                                (keywordList r), k))
                  (keywordList r) a)
             (fun r => forallb isString (keywordItems r))).
  - destruct (forallb _ _); [|reflexivity]. f_equal.
    rewrite fold_left_flat_map, fold_left_map.
    apply fold_left_ext_eq. intros a r. cbn [entryKeywords].
    rewrite fold_left_map. reflexivity.
  - intros a r.
    exact (@foldM_strings _
             (fun a k =>
                consider (toLowerCase text) (length text) a
                  (mkEntry (BotResponse.intent r) (BotResponse.category r)
                           (keywordList r), k))
             (keywordItems r) a).
Qed.

Lemma routes_scan_ok (text : jsstring) (st : MemStorage.t) :
  StringKeywords st ->
  Routes.analyzeIntent text st
  = (Normal (scan (toLowerCase text) (length text) (activeEntries st)), st).
Proof. intros H. rewrite routes_scan. unfold StringKeywords in H. now rewrite H. Qed.

Lemma routes_raise (text : jsstring) (st : MemStorage.t) :
  stringKeywords st = false ->
  Routes.analyzeIntent text st = (Throw TypeError, st).
Proof. intros H. rewrite routes_scan. now rewrite H. Qed.

Lemma completes_returns (st : MemStorage.t) (P : ServiceIntent.t -> Prop)
    (c : Completion ServiceIntent.t) :
  StringKeywords st -> Completes st P c -> exists r, c = Normal r /\ P r.
Proof.
  intros Hs H. destruct c as [r|e]; cbn [Completes] in H.
  - exists r. split; [reflexivity|apply H].
  - exfalso. now apply (proj2 H).
Qed.

Lemma routes_normal (text : jsstring) (st : MemStorage.t) (r : ServiceIntent.t) :
  fst (Routes.analyzeIntent text st) = Normal r -> StringKeywords st.
Proof.
  rewrite routes_scan. cbn [fst]. unfold StringKeywords.
  now destruct (stringKeywords st).
Qed.

Lemma routes_throw (text : jsstring) (st : MemStorage.t) (e : Error) :
  fst (Routes.analyzeIntent text st) = Throw e ->
  e = TypeError /\ ~ StringKeywords st.
Proof.
  rewrite routes_scan. cbn [fst]. unfold StringKeywords.
  destruct (stringKeywords st); [discriminate|].
  intros [= <-]. split; [reflexivity|discriminate].
Qed.

(** What holds of the scan when the keywords are strings holds of what
    the routes complete with. *)
Lemma routes_completes (text : jsstring) (st : MemStorage.t)
    (P : ServiceIntent.t -> Prop) :
  (StringKeywords st ->
   P (scan (toLowerCase text) (length text) (activeEntries st))) ->
  Completes st P (fst (Routes.analyzeIntent text st)).
Proof.
  intros H. rewrite routes_scan. cbn [fst]. unfold StringKeywords in *.
  destruct (stringKeywords st) eqn:E; cbn [Completes].
  - split; [exact E|now apply H].
  - split; [reflexivity|]. unfold StringKeywords. congruence.
Qed.

(** Whatever the length of the message, the scan returns the unknown
    result or the selection of a non-empty matching keyword. *)
Lemma fold_consider_weak (normalized : jsstring) (len : nat)
    (vs : list (entry * jsstring)) :
  let r := fold_left (consider normalized len) vs unknownIntent in
  r = unknownIntent
  \/ exists v, In v vs /\ matches normalized (snd v) = true
               /\ 0 < length (snd v) /\ r = selection len (fst v) (snd v).
Proof.
  induction vs as [|x vs IH] using rev_ind; [now left|].
  cbv zeta in *. rewrite fold_left_app. cbn [fold_left].
  set (r := fold_left (consider normalized len) vs unknownIntent) in *.
  unfold consider.
  destruct (matches normalized (snd x)) eqn:Hm.
  2:{ destruct IH as [IH|(v & Hv & IH)]; [now left|right].
      exists v. split; [apply in_or_app; now left|assumption]. }
  destruct (num_gt _ _) eqn:Hgt.
  - right. exists x. split; [apply in_or_app; right; now left|].
    repeat split; try assumption.
    destruct IH as [IH|(v & _ & _ & Hpos & IH)]; rewrite IH in Hgt.
    + cbn [unknownIntent ServiceIntent.confidence] in Hgt.
      rewrite num_gt_div_zero in Hgt. now apply Nat.ltb_lt.
    + cbn [selection ServiceIntent.confidence] in Hgt.
      destruct len as [|len].
      * now rewrite num_gt_div_infinite in Hgt.
      * rewrite num_gt_div_div in Hgt by lia. apply Nat.ltb_lt in Hgt. lia.
  - destruct IH as [IH|(v & Hv & IH)]; [now left|right].
    exists v. split; [apply in_or_app; now left|assumption].
Qed.

(** For a non-empty message, the scan selects the first visit among
    those of a longest matching keyword. *)
Lemma fold_consider_selected (normalized : jsstring) (len : nat)
    (vs : list (entry * jsstring)) :
  0 < len ->
  Selected normalized len vs (fold_left (consider normalized len) vs unknownIntent).
Proof.
  intros Hlen. induction vs as [|x vs IH] using rev_ind.
  - left. split; [reflexivity|]. intros v [].
  - rewrite fold_left_app. cbn [fold_left].
    set (r := fold_left (consider normalized len) vs unknownIntent) in *.
    unfold consider.
    destruct (matches normalized (snd x)) eqn:Hm.
    + destruct IH as [[IH Hall]|(l1 & v & l2 & E & Hv & Hpos & IH & Hl1 & Hl2)];
        rewrite IH.
      * cbn [unknownIntent ServiceIntent.confidence].
        rewrite num_gt_div_zero. destruct (Nat.ltb_spec 0 (length (snd x))).
        -- right. exists vs, x, []. repeat split; try assumption.
           ++ intros v' Hv' Hm'. rewrite (Hall v' Hv' Hm'). assumption.
           ++ intros v' [].
        -- left. split; [reflexivity|].
           intros v' Hv' Hm'. apply in_app_or in Hv' as [Hv'|[<-|[]]];
             [now apply Hall|lia].
      * cbn [selection ServiceIntent.confidence].
        rewrite num_gt_div_div by assumption.
        destruct (Nat.ltb_spec (length (snd v)) (length (snd x))).
        -- right. exists vs, x, []. repeat split; try assumption; try lia.
           ++ intros v' Hv' Hm'. rewrite E in Hv'.
              apply in_app_or in Hv' as [Hv'|[<-|Hv']];
                [specialize (Hl1 v' Hv' Hm')|
                 |specialize (Hl2 v' Hv' Hm')]; lia.
           ++ intros v' [].
        -- right. exists l1, v, (l2 ++ [x]). repeat split; try assumption.
           ++ rewrite E, <- app_assoc. reflexivity.
           ++ intros v' Hv' Hm'. apply in_app_or in Hv' as [Hv'|[<-|[]]];
                [now apply Hl2|lia].
    + destruct IH as [[IH Hall]|(l1 & v & l2 & E & Hv & Hpos & IH & Hl1 & Hl2)].
      * left. split; [assumption|].
        intros v' Hv' Hm'. apply in_app_or in Hv' as [Hv'|[<-|[]]];
          [now apply Hall|congruence].
      * right. exists l1, v, (l2 ++ [x]). repeat split; try assumption.
        -- rewrite E, <- app_assoc. reflexivity.
        -- intros v' Hv' Hm'. apply in_app_or in Hv' as [Hv'|[<-|[]]];
             [now apply Hl2|congruence].
Qed.

End ScanFacts.

(** ** The scan, entry by entry *)

Section Classification.

Context {host : LowerCase}.

Lemma selection_positive (len : nat) (e : entry) (k : jsstring) :
  0 < length k ->
  num_gt (ServiceIntent.confidence (selection len e k)) (Finite 0) = true.
Proof.
  intros H. cbn [selection ServiceIntent.confidence].
  rewrite num_gt_div_zero. now apply Nat.ltb_lt.
Qed.

Lemma nonempty_length (k : jsstring) : k <> [] <-> 0 < length k.
Proof. destruct k; simpl; split; intros; try congruence; lia. Qed.

(** The scan returns the unknown result or the selection of a
    non-empty keyword found in the normalized message. *)
Lemma scan_unknown_or_selected (normalized : jsstring) (len : nat)
    (entries : list entry) :
  scan normalized len entries = unknownIntent
  \/ exists e k, In e entries /\ hit normalized e k /\ k <> []
                 /\ scan normalized len entries = selection len e k.
Proof.
  unfold scan.
  destruct (fold_consider_weak normalized len (visits entries))
    as [H|([e k] & Hin & Hm & Hpos & H)]; [now left|right].
  apply in_visits in Hin as [He Hk]. exists e, k.
  repeat split; try assumption. now apply nonempty_length.
Qed.

Lemma scan_no_match (normalized : jsstring) (len : nat) (entries : list entry) :
  (forall e k, In e entries -> hit normalized e k -> k = []) ->
  scan normalized len entries = unknownIntent.
Proof.
  intros Hnone.
  destruct (scan_unknown_or_selected normalized len entries)
    as [H|(e & k & He & Hk & Hne & _)]; [assumption|].
  exfalso. apply Hne. now apply (Hnone e).
Qed.

Lemma scan_best_match (normalized : jsstring) (len : nat) (entries : list entry) :
  0 < len ->
  (exists e k, In e entries /\ hit normalized e k /\ k <> []) ->
  BestMatch normalized len entries (scan normalized len entries).
Proof.
  intros Hlen (e & k & He & Hk & Hne). unfold scan.
  assert (Hin : In (e, k) (visits entries)) by (apply in_visits; split; [assumption|apply Hk]).
  destruct (fold_consider_selected normalized (visits entries) Hlen)
    as [[_ Hall]|(l1 & v & l2 & E & Hv & Hpos & -> & Hl1 & Hl2)].
  - apply nonempty_length in Hne. specialize (Hall _ Hin (proj2 Hk)).
    cbn [snd] in Hall. lia.
  - assert (Hvin : In v (visits entries)) by (rewrite E; apply in_elt).
    apply in_visits_pair in Hvin as [Hve Hvk].
    split; [now apply selection_positive|]. split.
    + exists (fst v), (snd v). repeat split; assumption.
    + intros e' k' He' Hk'. cbn [selection ServiceIntent.confidence].
      rewrite num_ge_div_div by assumption. apply Nat.leb_le.
      assert (Hin' : In (e', k') (visits entries))
        by (apply in_visits; split; [assumption|apply Hk']).
      rewrite E in Hin'. apply in_app_or in Hin' as [H|[->|H]].
      * specialize (Hl1 _ H (proj2 Hk')). cbn [snd] in Hl1. lia.
      * reflexivity.
      * apply (Hl2 _ H (proj2 Hk')).
Qed.

(** First seen wins: the entry whose best keyword is the longest is
    returned, and among entries of equal best length the earliest. *)
Lemma scan_first_seen (normalized : jsstring) (len n : nat)
    (pre post : list entry) (e : entry) :
  0 < len -> 0 < n ->
  (exists k, hit normalized e k /\ length k = n) ->
  (forall k, hit normalized e k -> length k <= n) ->
  (forall e' k, In e' pre -> hit normalized e' k -> length k < n) ->
  (forall e' k, In e' post -> hit normalized e' k -> length k <= n) ->
  scan normalized len (pre ++ e :: post)
  = ServiceIntent.mk (entryIntent e) (div_length n len) (entryCategory e).
Proof.
  intros Hlen Hn (k & Hk & Hkn) He Hpre Hpost. unfold scan.
  set (entries := pre ++ e :: post).
  assert (Hvis : visits entries
                 = (visits pre ++ map (pair e) (entryKeywords e)) ++ visits post).
  { unfold entries, visits. rewrite flat_map_app. cbn [flat_map].
    now rewrite app_assoc. }
  assert (Hek : In (e, k) (visits pre ++ map (pair e) (entryKeywords e))).
  { apply in_or_app. right. apply in_map. apply Hk. }
  destruct (fold_consider_selected normalized (visits entries) Hlen)
    as [[_ Hall]|(l1 & v & l2 & E & Hv & Hpos & -> & Hl1 & Hl2)].
  - assert (H : In (e, k) (visits entries))
      by (rewrite Hvis; apply in_or_app; now left).
    specialize (Hall _ H (proj2 Hk)). cbn [snd] in Hall. lia.
  - (* the selected visit has length [n] *)
    assert (Hge : n <= length (snd v)).
    { assert (H : In (e, k) (visits entries))
        by (rewrite Hvis; apply in_or_app; now left).
      rewrite E in H. apply in_app_or in H as [H|[->|H]].
      - specialize (Hl1 _ H (proj2 Hk)). cbn [snd] in Hl1. lia.
      - cbn [snd]. lia.
      - specialize (Hl2 _ H (proj2 Hk)). cbn [snd] in Hl2. lia. }
    assert (Hbound : forall v', In v' (visits entries) ->
              matches normalized (snd v') = true ->
              (In v' (visits pre) -> length (snd v') < n)
              /\ length (snd v') <= n).
    { intros [e' k'] H Hm'. cbn [snd] in *. split.
      - intros H'. apply in_visits in H' as [? ?]. apply (Hpre e'); [assumption|now split].
      - rewrite Hvis in H. apply in_app_or in H as [H|H];
          [apply in_app_or in H as [H|H]|].
        + apply in_visits in H as [? ?].
          apply Nat.lt_le_incl, (Hpre e'); [assumption|now split].
        + apply in_map_iff in H as (k'' & Heq & H). inversion Heq; subst.
          apply He. now split.
        + apply in_visits in H as [? ?]. apply (Hpost e'); [assumption|now split]. }
    assert (Hvin : In v (visits entries)) by (rewrite E; apply in_elt).
    destruct (Hbound v Hvin Hv) as [Hnotpre Hle].
    assert (Hlenv : length (snd v) = n) by lia.
    (* it is a visit of [e] *)
    assert (Hfst : fst v = e).
    { rewrite Hvis in E. apply app_eq_app in E as (l & [[E1 E2]|[E1 E2]]).
      - destruct l as [|x l].
        + rewrite app_nil_r in E1. subst l1.
          specialize (Hl1 _ Hek (proj2 Hk)). cbn [snd] in Hl1. lia.
        + inversion E2; subst x.
          assert (H : In v (visits pre ++ map (pair e) (entryKeywords e)))
            by (rewrite E1; apply in_or_app; right; now left).
          apply in_app_or in H as [H|H]; [apply Hnotpre in H; lia|].
          apply in_map_iff in H as (k'' & <- & _). reflexivity.
      - subst l1.
        assert (H : In (e, k) ((visits pre ++ map (pair e) (entryKeywords e)) ++ l))
          by (apply in_or_app; now left).
        specialize (Hl1 _ H (proj2 Hk)). cbn [snd] in Hl1. lia. }
    unfold selection. now rewrite Hfst, Hlenv.
Qed.

(** Lower-casing never yields the empty string from a non-empty one:
    then an empty normalized message matches no non-empty keyword. *)
Lemma scan_empty_normalized (len : nat) (entries : list entry) :
  (forall s, toLowerCase s = [] -> s = []) ->
  scan [] len entries = unknownIntent.
Proof.
  intros Hlow. apply scan_no_match. intros e k _ [_ Hm].
  apply Hlow. now apply includes_nil.
Qed.

Lemma scan_unit_interval (normalized : jsstring) (len : nat) (entries : list entry) :
  (forall s, length s <= length (toLowerCase s)) ->
  length normalized <= len ->
  inUnitInterval (ServiceIntent.confidence (scan normalized len entries)).
Proof.
  intros Hgrow Hlen.
  destruct (scan_unknown_or_selected normalized len entries)
    as [->|(e & k & He & [_ Hm] & Hne & ->)].
  - exists 0%Q. repeat split; discriminate.
  - cbn [selection ServiceIntent.confidence].
    apply includes_length in Hm. specialize (Hgrow k).
    apply nonempty_length in Hne. apply div_length_unit; lia.
Qed.

(** The scan depends on the normalized message through the matches of
   the keywords of the catalog only. *)
Lemma scan_ext (n1 n2 : jsstring) (len : nat) (entries : list entry) :
  (forall e k, In e entries -> In k (entryKeywords e) ->
               matches n1 k = matches n2 k) ->
  scan n1 len entries = scan n2 len entries.
Proof.
  intros E. unfold scan. apply fold_left_ext_in. intros a [e k] Hin.
  apply in_visits in Hin as [He Hk]. unfold consider. cbn [fst snd].
  now rewrite (E e k He Hk).
Qed.

Lemma routes_scan_trimmed (text : jsstring) (st : MemStorage.t) :
  TrimNeutral text (activeEntries st) ->
  Routes.analyzeIntent text st
  = (if stringKeywords st
     then Normal (scan (normalize text) (length text) (activeEntries st))
     else Throw TypeError, st).
Proof.
  intros H. rewrite routes_scan. f_equal.
  destruct (stringKeywords st); [|reflexivity]. f_equal. now apply scan_ext.
Qed.

Lemma routes_completes_trimmed (text : jsstring) (st : MemStorage.t)
    (P : ServiceIntent.t -> Prop) :
  TrimNeutral text (activeEntries st) ->
  (StringKeywords st ->
   P (scan (normalize text) (length text) (activeEntries st))) ->
  Completes st P (fst (Routes.analyzeIntent text st)).
Proof.
  intros Hn H. apply routes_completes. intros Hs.
  rewrite (@scan_ext (toLowerCase text) (normalize text)) by exact Hn.
  now apply H.
Qed.

(** Two cases in which trimming changes no match: a message without
    white space at its ends, and a catalog whose keywords, lower-cased,
    have none. *)
Lemma trimmed_text_neutral (message : jsstring) (entries : list entry) :
  normalize message = toLowerCase message -> TrimNeutral message entries.
Proof. intros E e k _ _. now rewrite E. Qed.

Lemma trimmed_keywords_neutral (message : jsstring) (entries : list entry) :
  (forall e k, In e entries -> In k (entryKeywords e) ->
               trim (toLowerCase k) = toLowerCase k) ->
  TrimNeutral message entries.
Proof.
  intros H e k He Hk. unfold matches, normalize. symmetry.
  apply includes_trim. now apply (H e).
Qed.

End Classification.

(** ** The case table of the scenarios *)

Lemma latin_nil : @toLowerCase latin [] = [].
Proof. reflexivity. Qed.

Lemma latin_grows (s : jsstring) : length s <= length (@toLowerCase latin s).
Proof. apply latinLowerCase_length. Qed.

(** Only the capital I with dot above changes the length. *)
Lemma latin_keeps_length (s : jsstring) :
  ~ In 304%N s -> length (@toLowerCase latin s) = length s.
Proof.
  induction s as [|c s IH]; intros H; [reflexivity|].
  change (@toLowerCase latin (c :: s)) with (lowerUnit c ++ @toLowerCase latin s).
  rewrite length_app, IH by (intros Hin; apply H; now right).
  assert (Hc : c <> 304%N) by (intros ->; apply H; now left).
  apply N.eqb_neq in Hc. unfold lowerUnit. rewrite Hc.
  now repeat match goal with |- context [if ?b then _ else _] => destruct b end.
Qed.

Lemma latin_nonempty (s : jsstring) : @toLowerCase latin s = [] -> s = [].
Proof.
  intros H. pose proof (latin_grows s) as L. rewrite H in L.
  destruct s; [reflexivity|simpl in L; lia].
Qed.

(** ** Classification *)

(** C1 (amended): for a non-empty message and a catalog in which a
    non-empty keyword, lower-cased, is a substring of the normalized
    message, the result has a confidence above 0, which is the quotient of
    the length of a matching keyword of the entry whose intent is returned
    by the length of the original message, and no matching keyword has a
    greater quotient.  For the routes the statement is made where
    trimming the lower-cased text changes no match of a keyword of the
    catalog; they return this result when the keywords of the active
    entries are strings, and raise a [TypeError] otherwise. *)
Theorem classify_best_match {host : LowerCase} (message : jsstring) :
  message <> [] ->
  (forall this,
      (exists e k, In e (botEntries this)
                   /\ hit (normalize message) e k /\ k <> []) ->
      BestMatch (normalize message) (length message) (botEntries this)
                (MobilisChatBot.analyzeIntent this message))
  /\ (forall st,
         TrimNeutral message (activeEntries st) ->
         (exists e k, In e (activeEntries st)
                      /\ hit (normalize message) e k /\ k <> []) ->
         Completes st
           (BestMatch (normalize message) (length message) (activeEntries st))
           (fst (Routes.analyzeIntent message st))).
Proof.
  intros Hne. apply nonempty_length in Hne. split.
  - intros this H. rewrite bot_scan. now apply scan_best_match.
  - intros st Hn H. apply routes_completes_trimmed; [assumption|intros _].
    now apply scan_best_match.
Qed.

(** The keywords of the default store have no white space at their
    ends. *)
Lemma defaultStore_neutral (message : jsstring) :
  @TrimNeutral latin message (activeEntries defaultStore).
Proof.
  apply trimmed_keywords_neutral. intros e k He Hk. cbn in He.
  repeat (destruct He as [He|He];
          [subst e; cbn in Hk;
           repeat (destruct Hk as [Hk|Hk]; [subst k; reflexivity|]);
           destruct Hk|]).
  destruct He.
Qed.

Lemma classify_best_match_witness :
  @BestMatch latin (@normalize latin (lit " quel est mon solde ")) 20
    (botEntries MobilisChatBot.mobilisBot)
    (@MobilisChatBot.analyzeIntent latin MobilisChatBot.mobilisBot
       (lit " quel est mon solde "))
  /\ Completes defaultStore
       (@BestMatch latin (@normalize latin (lit " quel est mon solde ")) 20
          (activeEntries defaultStore))
       (fst (@Routes.analyzeIntent latin (lit " quel est mon solde ") defaultStore)).
Proof.
  destruct (@classify_best_match latin (lit " quel est mon solde ")) as [Hbot Hroutes].
  - discriminate.
  - split.
    + apply Hbot. eexists. exists (lit "solde").
      split; [left; reflexivity|].
      split; [split; [right; right; left; reflexivity|reflexivity]|discriminate].
    + apply Hroutes; [apply defaultStore_neutral|].
      eexists. exists (lit "solde").
      split; [left; reflexivity|].
      split; [split; [right; right; left; reflexivity|reflexivity]|discriminate].
Defined.

(** C1, as stated, fails on an empty keyword: it is a substring of every
    message, and its quotient is 0. *)
Lemma classify_empty_keyword_counterexample :
  let text := lit "bonjour" in
  let st := storeOf [trailingCommaEntry] in
  text <> []
  /\ (exists e k, In e (activeEntries st) /\ In k (entryKeywords e)
                  /\ includes (@normalize latin text) k = true)
  /\ exists r,
       fst (@Routes.analyzeIntent latin text st) = Normal r
       /\ num_gt (ServiceIntent.confidence r) (Finite 0) = false.
Proof.
  cbv zeta. split; [discriminate|]. split.
  - eexists. exists (lit ""). split; [left; reflexivity|].
    split; [right; left; reflexivity|reflexivity].
  - eexists. split; [vm_compute; reflexivity|reflexivity].
Qed.

(** C3 (amended): on the empty message the chat bot service returns the
    unknown result, whatever the catalog; so do the routes, which leave
    the store as it is, when the keywords of the active entries are
    strings, and they raise a [TypeError] when one of them is not.  The
    same holds of the chat bot service for every message whose
    normalization is empty, and of the routes, which do not trim, where
    trimming changes no match. *)
Theorem classify_empty_message {host : LowerCase} :
  toLowerCase [] = [] ->
  (forall s, toLowerCase s = [] -> s = []) ->
  (forall this, MobilisChatBot.analyzeIntent this [] = unknownIntent)
  /\ (forall st,
         Routes.analyzeIntent [] st
         = (if stringKeywords st then Normal unknownIntent else Throw TypeError, st))
  /\ (forall this message,
         normalize message = [] ->
         MobilisChatBot.analyzeIntent this message = unknownIntent)
  /\ (forall st text,
         normalize text = [] ->
         TrimNeutral text (activeEntries st) ->
         Routes.analyzeIntent text st
         = (if stringKeywords st then Normal unknownIntent else Throw TypeError, st)).
Proof.
  intros Hnil Hlow. repeat split.
  - intros this. rewrite bot_scan, Hnil. now apply scan_empty_normalized.
  - intros st. rewrite routes_scan, Hnil. f_equal.
    destruct (stringKeywords st); [|reflexivity]. f_equal.
    now apply scan_empty_normalized.
  - intros this message Hn. rewrite bot_scan. unfold normalize in Hn. rewrite Hn.
    now apply scan_empty_normalized.
  - intros st text Hn Ht. rewrite routes_scan_trimmed, Hn by assumption.
    f_equal. destruct (stringKeywords st); [|reflexivity]. f_equal.
    now apply scan_empty_normalized.
Qed.

Lemma classify_empty_message_witness :
  @MobilisChatBot.analyzeIntent latin MobilisChatBot.mobilisBot [] = unknownIntent
  /\ @Routes.analyzeIntent latin [] defaultStore = (Normal unknownIntent, defaultStore)
  /\ @MobilisChatBot.analyzeIntent latin MobilisChatBot.mobilisBot (lit "  ")
     = unknownIntent
  /\ @Routes.analyzeIntent latin (lit "  ") defaultStore
     = (Normal unknownIntent, defaultStore).
Proof.
  destruct (@classify_empty_message latin latin_nil latin_nonempty)
    as (H1 & H2 & H3 & H4).
  split; [apply H1|]. split; [apply H2|]. split; [apply H3; reflexivity|].
  apply H4; [reflexivity|apply defaultStore_neutral].
Defined.

(** C3, as stated, fails on the routes in two ways.  With a keyword that
    is not a string the empty message raises a [TypeError]; and a message
    of white space, whose normalization is empty, is not short-circuited:
    its untrimmed text matches a keyword of white space. *)
Lemma classify_empty_message_counterexample :
  @Routes.analyzeIntent latin [] (storeOf [numberEntry])
  = (Throw TypeError, storeOf [numberEntry])
  /\ @normalize latin (lit "  ") = []
  /\ @Routes.analyzeIntent latin (lit "  ") (storeOf [spaceEntry])
     = (Normal (ServiceIntent.mk (lit "greeting") (Finite (1 # 2)) (lit "general")),
        storeOf [spaceEntry]).
Proof.
  split; [|split]; vm_compute; reflexivity.
Qed.

(** C4 (amended): the entries and their keywords are visited in catalog
    order and the best match is replaced only by a strictly greater
    confidence: for a non-empty message, the entry returned is the first
    of those whose longest matching keyword has the greatest length, when
    that length is not 0, so that of two entries with the same best
    confidence above 0 the earlier one is returned; when every matching
    keyword is empty, no entry is returned: the result is the unknown one.
    The matches of the routes are those in the untrimmed text; they raise
    a [TypeError] when a keyword of an active entry is not a string. *)
Theorem classify_first_seen_wins {host : LowerCase} (message : jsstring) :
  message <> [] ->
  (forall this pre e post n,
      botEntries this = pre ++ e :: post ->
      FirstSeen (normalize message) pre e post n ->
      MobilisChatBot.analyzeIntent this message
      = ServiceIntent.mk (entryIntent e) (div_length n (length message))
                         (entryCategory e))
  /\ (forall st pre e post n,
         activeEntries st = pre ++ e :: post ->
         FirstSeen (toLowerCase message) pre e post n ->
         Completes st
           (fun r => r = ServiceIntent.mk (entryIntent e)
                           (div_length n (length message)) (entryCategory e))
           (fst (Routes.analyzeIntent message st)))
  /\ (forall this,
         (forall e k, In e (botEntries this) -> hit (normalize message) e k ->
                      k = []) ->
         MobilisChatBot.analyzeIntent this message = unknownIntent)
  /\ (forall st,
         (forall e k, In e (activeEntries st) -> hit (toLowerCase message) e k ->
                      k = []) ->
         Completes st (fun r => r = unknownIntent)
                   (fst (Routes.analyzeIntent message st))).
Proof.
  intros Hne. apply nonempty_length in Hne. split; [|split; [|split]].
  - intros this pre e post n E (Hn & Hk & He & Hpre & Hpost).
    rewrite bot_scan, E. now apply scan_first_seen.
  - intros st pre e post n E (Hn & Hk & He & Hpre & Hpost).
    apply routes_completes. intros _. rewrite E. now apply scan_first_seen.
  - intros this Hall. rewrite bot_scan. now apply scan_no_match.
  - intros st Hall. apply routes_completes. intros _. now apply scan_no_match.
Qed.

(** Case analysis over the keywords of a concrete entry and over the
    entries of a concrete catalog. *)
Ltac each_keyword k Hin Hm :=
  cbn in Hin;
  repeat (destruct Hin as [Hin|Hin];
          [subst k; first [vm_compute in Hm; discriminate Hm | vm_compute; lia]|]);
  destruct Hin.

Ltac each_entry e He k Hin Hm :=
  cbn in He;
  repeat (destruct He as [He|He]; [subst e; each_keyword k Hin Hm|]);
  destruct He.

Ltac first_seen_at catalog H n :=
  let es := eval cbn in catalog in
  match es with
  | ?e :: ?post =>
      apply (H [] e post n eq_refl);
      split; [lia|];
      split; [exists (lit "credit"); split; [split; [cbn; tauto|]|]; reflexivity|];
      split; [intros k [Hin Hm]; each_keyword k Hin Hm|];
      split; [intros e' k []|];
      intros e' k He [Hin Hm]; each_entry e' He k Hin Hm
  end.

Lemma classify_first_seen_wins_witness :
  @MobilisChatBot.analyzeIntent latin MobilisChatBot.mobilisBot (lit "credit")
  = ServiceIntent.mk (lit "balance") (Finite (6 # 6)) (lit "balance")
  /\ fst (@Routes.analyzeIntent latin (lit "credit") defaultStore)
     = Normal (ServiceIntent.mk (lit "balance_inquiry") (Finite (6 # 6))
                 (lit "balance")).
Proof.
  destruct (@classify_first_seen_wins latin (lit "credit"))
    as (Hbot & Hroutes & _); [discriminate|].
  split.
  - first_seen_at (botEntries MobilisChatBot.mobilisBot)
      (Hbot MobilisChatBot.mobilisBot) 6.
  - assert (H : Completes defaultStore
                  (fun r => r = ServiceIntent.mk (lit "balance_inquiry")
                                  (div_length 6 (length (lit "credit")))
                                  (lit "balance"))
                  (fst (@Routes.analyzeIntent latin (lit "credit") defaultStore))).
    { first_seen_at (activeEntries defaultStore) (Hroutes defaultStore) 6. }
    destruct (fst (@Routes.analyzeIntent latin (lit "credit") defaultStore))
      as [r|e]; cbn [Completes] in H.
    + destruct H as [_ ->]. reflexivity.
    + destruct H as [_ H]. exfalso. apply H. reflexivity.
Defined.

(** C4, as stated, fails on a tie at confidence 0: the only keyword of
    each of the two entries is the empty one, which is found in the
    message with the quotient 0; the result is the unknown one, not the
    earlier entry. *)
Lemma classify_first_seen_wins_counterexample :
  let text := lit "bonjour" in
  let st := storeOf emptyKeywordEntries in
  (forall e, In e (activeEntries st) ->
     exists k, @hit latin (@toLowerCase latin text) e k
               /\ div_length (length k) (length text) = Finite (0 # 7)
               /\ forall k', @hit latin (@toLowerCase latin text) e k' -> k' = k)
  /\ map entryIntent (activeEntries st) = [lit "plans"; lit "support"]
  /\ fst (@Routes.analyzeIntent latin text st) = Normal unknownIntent
  /\ ServiceIntent.intent unknownIntent <> lit "plans".
Proof.
  cbv zeta. split; [|split; [reflexivity|split; [vm_compute; reflexivity|discriminate]]].
  intros e [<-|[<-|[]]]; exists [];
    (split; [split; [left; reflexivity|reflexivity]|]);
    (split; [reflexivity|]); intros k' [[<-|[]] _]; reflexivity.
Qed.

(** ** Bounds of the confidence *)

Lemma div_length_not_zero (a d : nat) : 0 < a -> ~ isZero (div_length a d).
Proof.
  intros Ha (q & E & Hq). destruct d as [|d]; destruct a as [|a];
    try lia; try discriminate.
  injection E as <-. unfold Qeq in Hq. cbn [Qnum Qden] in Hq. lia.
Qed.

Lemma div_length_nonnegative (a d : nat) :
  0 < a -> num_ge (div_length a d) (Finite 0) = true.
Proof.
  intros Ha. destruct d as [|d]; destruct a as [|a]; try lia; reflexivity.
Qed.

Lemma scan_lower_bound {host : LowerCase} (normalized : jsstring) (len : nat)
    (entries : list entry) :
  LowerBound normalized entries (scan normalized len entries).
Proof.
  split.
  - destruct (scan_unknown_or_selected normalized len entries)
      as [->|(e & k & _ & _ & Hne & ->)]; [reflexivity|].
    apply nonempty_length in Hne. now apply div_length_nonnegative.
  - intros Hnone. rewrite scan_no_match; [reflexivity|].
    intros e k He Hk. now apply Hnone in Hk.
Qed.

Lemma scan_upper_bound {host : LowerCase} (normalized : jsstring) (len : nat)
    (entries : list entry) :
  (forall s, length s <= length (toLowerCase s)) ->
  length normalized <= len ->
  UpperBound normalized len entries (scan normalized len entries).
Proof.
  intros Hgrow Hlen. split; [now apply scan_unit_interval|].
  intros (e & k & He & Hk & Hkl) Hpos.
  destruct (@scan_best_match _ normalized len entries Hpos)
    as (_ & (e' & k' & _ & [_ Hm'] & _ & _ & Hc) & Hmax).
  { exists e, k. repeat split; try assumption; try apply Hk.
    apply nonempty_length. lia. }
  specialize (Hmax e k He Hk). rewrite Hc, num_ge_div_div in Hmax by assumption.
  apply Nat.leb_le in Hmax. apply includes_length in Hm'.
  specialize (Hgrow k'). rewrite Hc. f_equal. lia.
Qed.

Lemma scan_outcome {host : LowerCase} (normalized : jsstring) (len : nat)
    (entries : list entry) :
  Outcome normalized entries (scan normalized len entries).
Proof.
  assert (Hz : isZero (ServiceIntent.confidence unknownIntent))
    by (exists 0%Q; split; reflexivity).
  destruct (scan_unknown_or_selected normalized len entries)
    as [->|(e & k & He & Hk & Hne & ->)].
  - split; [now left|]. split; [split; [reflexivity|intros _; exact Hz]|].
    intros _. split; intros _; [exact Hz|reflexivity].
  - pose proof Hne as Hpos. apply nonempty_length in Hpos.
    assert (Hnz : ~ isZero (ServiceIntent.confidence (selection len e k)))
      by now apply div_length_not_zero.
    split; [right|split].
    + split; [now apply selection_positive|]. exists e, k.
      split; [assumption|]. split; [assumption|]. split; [assumption|].
      split; reflexivity.
    + split; [tauto|]. intros E. rewrite E in Hnz. tauto.
    + intros Hnames. split; [|tauto]. intros E. now apply Hnames in He.
Qed.

(** C6 (amended): the confidence is never below 0, and it is 0 when
    nothing matches; given that lower-casing shortens no string, it lies
    between 0 and 1 whenever lower-casing does not lengthen the message,
    and, for a message that is not empty, it is 1 when a matched keyword
    is as long as the message.  The matches are those of each classifier:
    in the trimmed lower-cased message for the chat bot service, in the
    lower-cased text for the routes, which return a result when the
    keywords of the active entries are strings and raise a [TypeError]
    otherwise. *)
Theorem confidence_bounds {host : LowerCase} (message : jsstring) :
  (forall this,
      LowerBound (normalize message) (botEntries this)
                 (MobilisChatBot.analyzeIntent this message))
  /\ (forall st,
         Completes st (LowerBound (toLowerCase message) (activeEntries st))
                   (fst (Routes.analyzeIntent message st)))
  /\ ((forall s, length s <= length (toLowerCase s)) ->
      length (toLowerCase message) <= length message ->
      (forall this,
          UpperBound (normalize message) (length message) (botEntries this)
                     (MobilisChatBot.analyzeIntent this message))
      /\ (forall st,
             Completes st
               (UpperBound (toLowerCase message) (length message) (activeEntries st))
               (fst (Routes.analyzeIntent message st)))).
Proof.
  split; [|split].
  - intros this. rewrite bot_scan. apply scan_lower_bound.
  - intros st. apply routes_completes. intros _. apply scan_lower_bound.
  - intros Hgrow Hlen. split.
    + intros this. rewrite bot_scan. apply scan_upper_bound; [assumption|].
      unfold normalize. pose proof (trim_length (toLowerCase message)). lia.
    + intros st. apply routes_completes. intros _. now apply scan_upper_bound.
Qed.

Lemma confidence_bounds_witness :
  @UpperBound latin (@normalize latin (lit "SOLDE please")) 12
    (botEntries MobilisChatBot.mobilisBot)
    (@MobilisChatBot.analyzeIntent latin MobilisChatBot.mobilisBot
       (lit "SOLDE please"))
  /\ Completes defaultStore
       (@UpperBound latin (@toLowerCase latin (lit "SOLDE please")) 12
          (activeEntries defaultStore))
       (fst (@Routes.analyzeIntent latin (lit "SOLDE please") defaultStore)).
Proof.
  destruct (proj2 (proj2 (@confidence_bounds latin (lit "SOLDE please"))))
    as [Hbot Hroutes].
  - exact latin_grows.
  - vm_compute. lia.
  - split; [apply Hbot|apply Hroutes].
Defined.

(** C6, as stated, fails where lower-casing lengthens the message: the
    capital I with dot above is one code unit and its lower case two. *)
Lemma confidence_above_one_counterexample :
  exists r,
    fst (@Routes.analyzeIntent latin [304%N] (storeOf [dottedEntry])) = Normal r
    /\ ServiceIntent.confidence r = Finite (2 # 1)
    /\ ~ inUnitInterval (ServiceIntent.confidence r).
Proof.
  eexists. split; [vm_compute; reflexivity|]. split; [reflexivity|].
  intros (q & E & _ & H). vm_compute in E. injection E as <-.
  unfold Qle in H. cbn in H. lia.
Qed.

(** C10 (amended): the result is the unknown one, or it has a confidence
    above 0 and the intent and category of an entry with a non-empty
    keyword found in the normalized message; the confidence is 0 exactly
    when the result is the unknown one, and, when no entry of the catalog
    is named unknown, exactly when the returned intent is unknown.  For
    the routes the statement is made where trimming the lower-cased text
    changes no match of a keyword of the catalog; they return this result
    when the keywords of the active entries are strings, and raise a
    [TypeError] otherwise. *)
Theorem classify_outcome {host : LowerCase} (message : jsstring) :
  (forall this,
      Outcome (normalize message) (botEntries this)
              (MobilisChatBot.analyzeIntent this message))
  /\ (forall st,
         TrimNeutral message (activeEntries st) ->
         Completes st (Outcome (normalize message) (activeEntries st))
                   (fst (Routes.analyzeIntent message st))).
Proof.
  split.
  - intros this. rewrite bot_scan. apply scan_outcome.
  - intros st Hn. apply routes_completes_trimmed; [assumption|intros _].
    apply scan_outcome.
Qed.

Lemma classify_outcome_witness :
  Completes defaultStore
    (@Outcome latin (@normalize latin (lit " quel est mon solde "))
       (activeEntries defaultStore))
    (fst (@Routes.analyzeIntent latin (lit " quel est mon solde ") defaultStore)).
Proof.
  apply (proj2 (@classify_outcome latin (lit " quel est mon solde "))).
  apply defaultStore_neutral.
Defined.

(** C10, as stated, fails for a catalog with an entry named unknown: the
    returned intent is then unknown with a confidence above 0. *)
Lemma classify_sentinel_name_counterexample :
  exists r,
    fst (@Routes.analyzeIntent latin (lit "hi") (storeOf [sentinelEntry])) = Normal r
    /\ ServiceIntent.intent r = lit "unknown"
    /\ ServiceIntent.confidence r = Finite (2 # 2)
    /\ num_gt (ServiceIntent.confidence r) (Finite 0) = true
    /\ ~ isZero (ServiceIntent.confidence r).
Proof.
  eexists. split; [vm_compute; reflexivity|].
  split; [reflexivity|]. split; [reflexivity|]. split; [reflexivity|].
  intros (q & E & Hq). vm_compute in E. injection E as <-. discriminate Hq.
Qed.

(** ** The reply *)

Lemma num_ge_not_lt (x y : number) : num_ge x y = true -> num_lt x y = false.
Proof.
  unfold num_lt. destruct x, y; simpl; intros H; try discriminate; try reflexivity;
    now apply negb_true_iff in H.
Qed.

Lemma find_none_inactive (intent : jsstring) (st : MemStorage.t) :
  (forall r, In r (fst (MemStorage.getAllBotResponses st)) ->
             BotResponse.intent r <> intent) ->
  fst (MemStorage.getBotResponseByIntent intent st) = None.
Proof.
  intros Hnone. unfold MemStorage.getBotResponseByIntent. cbn [fst].
  destruct (find _ _) as [r|] eqn:F; [exfalso|reflexivity].
  apply find_some in F as [Hin Hp]. apply andb_true_iff in Hp as [Heq Hact].
  apply strictEq_true in Heq. apply (Hnone r); [|assumption].
  unfold MemStorage.getAllBotResponses. cbn [fst]. apply filter_In. now split.
Qed.

Lemma generateBotResponse_lookup (intent : ServiceIntent.t) (language : Language)
    (st : MemStorage.t) :
  num_lt (ServiceIntent.confidence intent) (Finite (1 # 10)) = false ->
  Routes.generateBotResponse intent language st
  = (match fst (MemStorage.getBotResponseByIntent
                  (ServiceIntent.intent intent) st) with
     | None => None
     | Some response =>
         Some (match language with
               | ar => BotResponse.responseAr response
               | fr => BotResponse.responseFr response
               end)
     end, st).
Proof.
  intros H. unfold Routes.generateBotResponse. rewrite H.
  unfold MemStorage.bind, MemStorage.getBotResponseByIntent.
  cbn [fst]. now destruct (find _ _).
Qed.

Lemma generateResponse_lookup (intent : ServiceIntent.t) (language : Language) :
  num_lt (ServiceIntent.confidence intent) (Finite (1 # 10)) = false ->
  MobilisChatBot.generateResponse intent language
  = match MobilisChatBot.getProperty (MobilisChatBot.responses language)
            (ServiceIntent.intent intent) with
    | Some (MobilisChatBot.Str []) | None =>
        MobilisChatBot.Str (MobilisChatBot.unknownResponse language)
    | Some v => v
    end.
Proof.
  intros H. unfold MobilisChatBot.generateResponse. now rewrite H.
Qed.

(** The handler, for a message of the user in a known conversation:
    the text is classified on the store that holds the message; when the
    classification raises, the handler answers 400; otherwise the reply
    is asked for the result, and [botReply] makes the bot message. *)
Lemma postMessage_user {host : LowerCase} (id text : jsstring)
    (language : option Language) (fresh : Routes.Fresh) (st st1 : MemStorage.t) :
  let message :=
    Message.mk (Routes.messageId fresh) (Some text) user (Routes.messageTime fresh)
               language in
  MemStorage.addMessageToConversation id message (Routes.messageStored fresh) st
  = (true, st1) ->
  Routes.postMessage id text user language fresh st
  = match fst (Routes.analyzeIntent text st1) with
    | Throw error => (Routes.Status400 error, st1)
    | Normal intent =>
        let response :=
          Routes.generateBotResponse intent
            (match language with Some l => l | None => ar end) st1 in
        let reply := Routes.botReply id language fresh (fst response) (snd response) in
        (Routes.Json message (fst reply), snd reply)
    end.
Proof.
  intros message Hadd. unfold Routes.postMessage, MemStorage.bind.
  fold message. rewrite Hadd. cbn [negb]. rewrite routes_scan. cbn [fst].
  destruct (stringKeywords st1); [|reflexivity].
  destruct (Routes.generateBotResponse _ _ st1) as [response st2].
  cbn [fst snd]. now destruct (Routes.botReply _ _ _ _ st2).
Qed.



(** C5 (amended): for an intent of confidence one tenth or more that no
    active entry of the store carries, the routes' function returns
    [null] and leaves the store as it is, and the handler then makes no
    bot message; the chat bot service has no such outcome: for a name
    that is not a key of its reply table it returns the unknown text
    itself, unless the name is that of a member that every object
    inherits, which is then what it returns. *)
Theorem resolveReply_not_found (intent : ServiceIntent.t) (language : Language) :
  num_ge (ServiceIntent.confidence intent) (Finite (1 # 10)) = true ->
  (forall st,
      (forall r, In r (fst (MemStorage.getAllBotResponses st)) ->
                 BotResponse.intent r <> ServiceIntent.intent intent) ->
      Routes.generateBotResponse intent language st = (None, st)
      /\ forall id lang fresh,
           Routes.botReply id lang fresh
             (fst (Routes.generateBotResponse intent language st)) st
           = (None, st))
  /\ ((forall kv, In kv (MobilisChatBot.responses language) ->
                  fst kv <> ServiceIntent.intent intent) ->
      MobilisChatBot.generateResponse intent language
      = if existsb (strictEq (ServiceIntent.intent intent))
                   MobilisChatBot.objectPrototypeNames
        then MobilisChatBot.Inherited (ServiceIntent.intent intent)
        else MobilisChatBot.Str
               (match language with
                | ar => lit "عذراً، لم أفهم استفساركم. يمكنكم التواصل مع خدمة العملاء على 600 أو زيارة أقرب وكالة موبليس"
                | fr => lit "Désolé, je n'ai pas compris votre demande. Vous pouvez contacter le service client au 600 ou visiter une agence Mobilis"
                end)).
Proof.
  intros Hge. apply num_ge_not_lt in Hge. split.
  - intros st Hnone. apply find_none_inactive in Hnone.
    rewrite (generateBotResponse_lookup intent language st Hge), Hnone.
    split; [reflexivity|]. intros id lang fresh. reflexivity.
  - intros Hp. rewrite (generateResponse_lookup intent language Hge).
    unfold MobilisChatBot.getProperty.
    destruct (find _ (MobilisChatBot.responses language)) as [kv|] eqn:F.
    + apply find_some in F as [Hin Heq]. apply strictEq_true in Heq.
      now apply Hp in Hin.
    + destruct (existsb _ _); [reflexivity|].
      destruct language; vm_compute; reflexivity.
Qed.

(** The entry is deleted after the classification: the classification
    of the message on the default store is [balanceIntent], and the
    reply is asked on the store without the balance entry. *)
Lemma resolveReply_not_found_witness :
  @Routes.analyzeIntent latin (lit "quel est mon solde") defaultStore
  = (Normal balanceIntent, defaultStore)
  /\ Routes.generateBotResponse balanceIntent fr deletedStore = (None, deletedStore)
  /\ MobilisChatBot.generateResponse balanceIntent fr
     = MobilisChatBot.Str
         (lit "Désolé, je n'ai pas compris votre demande. Vous pouvez contacter le service client au 600 ou visiter une agence Mobilis")
  /\ MobilisChatBot.generateResponse constructorIntent fr
     = MobilisChatBot.Inherited (lit "constructor").
Proof.
  split; [vm_compute; reflexivity|].
  destruct (resolveReply_not_found balanceIntent fr) as [Hroutes Hbot].
  - vm_compute. reflexivity.
  - split; [|split].
    + apply Hroutes. intros r Hin. cbn in Hin.
      repeat (destruct Hin as [Hin|Hin]; [subst r; discriminate|]).
      destruct Hin.
    + rewrite Hbot; [reflexivity|].
      intros kv Hin. cbn in Hin.
      repeat (destruct Hin as [Hin|Hin]; [subst kv; discriminate|]).
      destruct Hin.
    + vm_compute. reflexivity.
Defined.

(** C5, as stated, fails on the chat bot service: asked for an intent
    that its reply table lacks, it returns a reply text, the unknown one. *)
Lemma resolveReply_not_found_counterexample :
  num_ge (ServiceIntent.confidence refundIntent) (Finite (1 # 10)) = true
  /\ MobilisChatBot.getProperty (MobilisChatBot.responses fr)
       (ServiceIntent.intent refundIntent) = None
  /\ MobilisChatBot.generateResponse refundIntent fr
     = MobilisChatBot.Str
         (lit "Désolé, je n'ai pas compris votre demande. Vous pouvez contacter le service client au 600 ou visiter une agence Mobilis").
Proof.
  repeat split.
Qed.

(** ** The round trip *)

(** C7 (amended): the message has 18 code units, not 19: with the entry
    of the scenario, and with the default store, the classification of
    the message is the balance intent with confidence 5/18, and the reply
    in French is the French text of the entry. *)
Theorem balance_round_trip :
  length (lit "quel est mon solde") = 18
  /\ length (lit "solde") = 5
  /\ @Routes.analyzeIntent latin (lit "quel est mon solde") (storeOf [balanceEntry])
     = (Normal balanceIntent, storeOf [balanceEntry])
  /\ Routes.generateBotResponse balanceIntent fr (storeOf [balanceEntry])
     = (Some (lit "Vous pouvez consulter votre solde..."), storeOf [balanceEntry])
  /\ @Routes.analyzeIntent latin (lit "quel est mon solde") defaultStore
     = (Normal balanceIntent, defaultStore)
  /\ Routes.generateBotResponse balanceIntent fr defaultStore
     = (Some (lit "Vous pouvez consulter votre solde en composant *555# ou via l'application Mobilis"),
        defaultStore).
Proof.
  repeat split; vm_compute; reflexivity.
Qed.

(** C7, as stated, fails: the confidence is not 5/19. *)
Lemma balance_round_trip_counterexample :
  length (lit "quel est mon solde") <> 19
  /\ forall r q,
       fst (@Routes.analyzeIntent latin (lit "quel est mon solde")
              (storeOf [balanceEntry])) = Normal r ->
       ServiceIntent.confidence r = Finite q ->
       ~ (q == 5 # 19)%Q.
Proof.
  split; [discriminate|].
  intros r q Er E. vm_compute in Er. injection Er as <-.
  vm_compute in E. injection E as <-. discriminate.
Qed.

(** ** Normalization *)

(** Both classifiers lower-case the message and the keyword. *)
Lemma classify_case_insensitive :
  @MobilisChatBot.analyzeIntent latin MobilisChatBot.mobilisBot (lit "SOLDE please")
  = ServiceIntent.mk (lit "balance") (Finite (5 # 12)) (lit "balance")
  /\ fst (@Routes.analyzeIntent latin (lit "SOLDE please") defaultStore)
     = Normal (ServiceIntent.mk (lit "balance_inquiry") (Finite (5 # 12))
                 (lit "balance")).
Proof.
  split; vm_compute; reflexivity.
Qed.

(** C8 (the routes do not trim): the keyword is not found in the
    normalized message, and the chat bot service, which trims, returns
    the unknown result; the routes match it against the untrimmed text. *)
Theorem routes_analyzeIntent_untrimmed :
  @matches latin (@normalize latin (lit "hello ")) (lit "hello ") = false
  /\ @MobilisChatBot.analyzeIntent latin spacedBot (lit "hello ") = unknownIntent
  /\ fst (@Routes.analyzeIntent latin (lit "hello ") (storeOf [spacedEntry]))
     = Normal (ServiceIntent.mk (lit "greeting") (Finite (6 # 6)) (lit "general")).
Proof.
  repeat split.
Qed.

(** ** Frame *)

(** C9: the classification of the routes leaves the store as it is,
    with every entry of the catalog, and a second call completes as the
    first did, with the same result.  (The method of the chat bot service
    assigns to no field: in this embedding it is a function of the object
    and of the message.) *)
Theorem classify_reads_only {host : LowerCase} (text : jsstring) (st : MemStorage.t) :
  snd (Routes.analyzeIntent text st) = st
  /\ MemStorage.botResponses (snd (Routes.analyzeIntent text st))
     = MemStorage.botResponses st
  /\ Routes.analyzeIntent text (snd (Routes.analyzeIntent text st))
     = Routes.analyzeIntent text st.
Proof.
  rewrite routes_scan. cbn [snd]. rewrite routes_scan. now repeat split.
Qed.

(** * The rest of the store *)

(** ** Maps *)

Lemma strictEq_refl (s : jsstring) : strictEq s s = true.
Proof. now apply strictEq_true. Qed.

Lemma strictEq_false (s t : jsstring) : strictEq s t = false <-> s <> t.
Proof.
  unfold strictEq. destruct (list_eq_dec N.eq_dec s t); split; congruence.
Qed.

Lemma map_has_get {V} (m : JSMap.t V) (key : jsstring) :
  JSMap.has m key = false <-> JSMap.get m key = None.
Proof.
  unfold JSMap.has, JSMap.get. induction m as [|kv m IH]; simpl; [tauto|].
  destruct (strictEq (fst kv) key); simpl; [split; discriminate|exact IH].
Qed.

Lemma map_has_keys {V} (m : JSMap.t V) (key : jsstring) :
  JSMap.has m key = true <-> In key (map fst m).
Proof.
  unfold JSMap.has. rewrite existsb_exists, in_map_iff. split.
  - intros (kv & Hin & E). apply strictEq_true in E. now exists kv.
  - intros (kv & E & Hin). exists kv. split; [assumption|now apply strictEq_true].
Qed.

Lemma map_get_in {V} (m : JSMap.t V) (key : jsstring) (v : V) :
  JSMap.get m key = Some v -> In (key, v) m.
Proof.
  unfold JSMap.get. destruct (find _ m) as [kv|] eqn:F; [|discriminate].
  intros E. injection E as <-. apply find_some in F as [Hin E].
  apply strictEq_true in E. destruct kv; simpl in *; now subst.
Qed.

Lemma map_get_set_same {V} (m : JSMap.t V) (key : jsstring) (v : V) :
  JSMap.get (JSMap.set m key v) key = Some v.
Proof.
  unfold JSMap.get. induction m as [|kv m IH]; simpl.
  - now rewrite strictEq_refl.
  - destruct (strictEq (fst kv) key) eqn:E; simpl.
    + now rewrite strictEq_refl.
    + now rewrite E.
Qed.

Lemma map_get_set_other {V} (m : JSMap.t V) (key key' : jsstring) (v : V) :
  key' <> key -> JSMap.get (JSMap.set m key v) key' = JSMap.get m key'.
Proof.
  intros Hne. unfold JSMap.get. induction m as [|kv m IH]; simpl.
  - assert (E : strictEq key key' = false) by (apply strictEq_false; congruence).
    now rewrite E.
  - destruct (strictEq (fst kv) key) eqn:E; simpl.
    + apply strictEq_true in E. rewrite E.
      assert (E' : strictEq key key' = false) by (apply strictEq_false; congruence).
      now rewrite E'.
    + destruct (strictEq (fst kv) key'); [reflexivity|exact IH].
Qed.

(** A new key goes to the end. *)
Lemma map_set_fresh {V} (m : JSMap.t V) (key : jsstring) (v : V) :
  JSMap.has m key = false -> JSMap.set m key v = m ++ [(key, v)].
Proof.
  unfold JSMap.has. induction m as [|kv m IH]; simpl; [reflexivity|].
  destruct (strictEq (fst kv) key); simpl; [discriminate|].
  intros H. now rewrite IH.
Qed.

(** A known key keeps its place. *)
Lemma map_set_present {V} (m : JSMap.t V) (key : jsstring) (old v : V) :
  JSMap.get m key = Some old ->
  exists pre post,
    m = pre ++ (key, old) :: post
    /\ JSMap.set m key v = pre ++ (key, v) :: post
    /\ JSMap.has pre key = false.
Proof.
  unfold JSMap.get, JSMap.has. induction m as [|kv m IH]; simpl; [discriminate|].
  destruct (strictEq (fst kv) key) eqn:E; simpl.
  - intros H. injection H as <-. apply strictEq_true in E.
    exists [], m. destruct kv; simpl in *; subst. now repeat split.
  - intros H. destruct (IH H) as (pre & post & -> & -> & Hpre).
    exists (kv :: pre), post. simpl. rewrite E. now repeat split.
Qed.

Lemma map_set_keys {V} (m : JSMap.t V) (key : jsstring) (v : V) :
  map fst (JSMap.set m key v)
  = if JSMap.has m key then map fst m else map fst m ++ [key].
Proof.
  unfold JSMap.has. induction m as [|kv m IH]; simpl; [reflexivity|].
  destruct (strictEq (fst kv) key) eqn:E; simpl.
  - apply strictEq_true in E. now rewrite E.
  - rewrite IH. now destruct (existsb _ m).
Qed.

Lemma map_delete_has {V} (m : JSMap.t V) (key : jsstring) :
  JSMap.has (JSMap.delete m key) key = false.
Proof.
  unfold JSMap.has, JSMap.delete. induction m as [|kv m IH]; simpl; [reflexivity|].
  destruct (strictEq (fst kv) key) eqn:E; simpl; [exact IH|now rewrite E].
Qed.

Lemma map_delete_fresh {V} (m : JSMap.t V) (key : jsstring) :
  JSMap.has m key = false -> JSMap.delete m key = m.
Proof.
  unfold JSMap.has, JSMap.delete. induction m as [|kv m IH]; simpl; [reflexivity|].
  destruct (strictEq (fst kv) key); simpl; [discriminate|].
  intros H. now rewrite IH.
Qed.

Lemma map_get_delete_other {V} (m : JSMap.t V) (key key' : jsstring) :
  key' <> key -> JSMap.get (JSMap.delete m key) key' = JSMap.get m key'.
Proof.
  intros Hne. unfold JSMap.get, JSMap.delete. induction m as [|kv m IH]; simpl;
    [reflexivity|].
  destruct (strictEq (fst kv) key) eqn:E; simpl.
  - apply strictEq_true in E.
    assert (E' : strictEq (fst kv) key' = false)
      by (apply strictEq_false; congruence).
    now rewrite E'.
  - destruct (strictEq (fst kv) key'); [reflexivity|exact IH].
Qed.

Lemma unique_set {V} (m : JSMap.t V) (key : jsstring) (v : V) :
  UniqueKeys m -> UniqueKeys (JSMap.set m key v).
Proof.
  unfold UniqueKeys. intros H. rewrite map_set_keys.
  destruct (JSMap.has m key) eqn:E; [assumption|].
  apply NoDup_app; [assumption|repeat constructor; intros []|].
  intros k Hk [<-|[]]. apply map_has_keys in Hk. congruence.
Qed.

Lemma unique_delete {V} (m : JSMap.t V) (key : jsstring) :
  UniqueKeys m -> UniqueKeys (JSMap.delete m key).
Proof.
  unfold UniqueKeys, JSMap.delete. induction m as [|kv m IH]; simpl; [trivial|].
  intros H. inversion H as [|k ks Hk Hks]; subst.
  destruct (strictEq (fst kv) key); simpl; [now apply IH|].
  constructor; [|now apply IH].
  intros Hin. apply Hk. apply in_map_iff in Hin as (kv' & E & Hin).
  apply filter_In in Hin as [Hin _]. apply in_map_iff. now exists kv'.
Qed.

Lemma keyed_set {V} (ident : V -> jsstring) (m : JSMap.t V) (key : jsstring) (v : V) :
  KeyedBy ident m -> ident v = key -> KeyedBy ident (JSMap.set m key v).
Proof.
  unfold KeyedBy. intros H Hv. induction m as [|kv m IH]; simpl.
  - intros kv' [<-|[]]. now simpl.
  - destruct (strictEq (fst kv) key).
    + intros kv' [<-|Hin]; [now simpl|]. apply H. now right.
    + intros kv' [<-|Hin]; [apply H; now left|].
      apply IH; [|assumption]. intros kv'' Hin'. apply H. now right.
Qed.

Lemma keyed_delete {V} (ident : V -> jsstring) (m : JSMap.t V) (key : jsstring) :
  KeyedBy ident m -> KeyedBy ident (JSMap.delete m key).
Proof.
  unfold KeyedBy, JSMap.delete. intros H kv Hin.
  apply filter_In in Hin as [Hin _]. now apply H.
Qed.

(** ** Conversations *)

Lemma find_app_l {A} (p : A -> bool) (a b : list A) (x : A) :
  find p a = Some x -> find p (a ++ b) = Some x.
Proof.
  induction a as [|y a IH]; simpl; [discriminate|].
  destruct (p y); [trivial|exact IH].
Qed.

Lemma find_app_r {A} (p : A -> bool) (a b : list A) :
  find p a = None -> find p (a ++ b) = find p b.
Proof.
  induction a as [|y a IH]; simpl; [reflexivity|].
  destruct (p y); [discriminate|exact IH].
Qed.

Lemma values_set_fresh {V} (m : JSMap.t V) (key : jsstring) (v : V) :
  JSMap.has m key = false -> JSMap.values (JSMap.set m key v) = JSMap.values m ++ [v].
Proof.
  intros H. rewrite map_set_fresh by assumption. unfold JSMap.values.
  now rewrite map_app.
Qed.

(** The store after a message has been added to a known conversation. *)
Lemma addMessage_stored (id : jsstring) (message : Message.t) (now : N)
    (st : MemStorage.t) (c : Conversation.t) :
  JSMap.get (MemStorage.conversations st) id = Some c ->
  let result := MemStorage.addMessageToConversation id message now st in
  let r := targetArray st c in
  fst result = true
  /\ MemStorage.conversations (snd result)
     = JSMap.set (MemStorage.conversations st) id
         (Conversation.mk (Conversation.id c) (Conversation.userId c)
            (Conversation.platform c) (MessageArray r)
            (Conversation.isActive c) (Conversation.createdAt c) (Some now))
  /\ MemStorage.botResponses (snd result) = MemStorage.botResponses st
  /\ Heap.read (MemStorage.arrays (snd result)) r = messageList st c ++ [message]
  /\ (forall r', r' <> r ->
         Heap.read (MemStorage.arrays (snd result)) r'
         = Heap.read (MemStorage.arrays st) r')
  /\ Heap.next (MemStorage.arrays st) <= Heap.next (MemStorage.arrays (snd result))
  /\ (Allocated st (Conversation.messages c) ->
      r < Heap.next (MemStorage.arrays (snd result))).
Proof.
  intros Hget. cbv zeta.
  unfold MemStorage.addMessageToConversation, targetArray, messageList, Allocated.
  rewrite Hget.
  destruct (Conversation.messages c) as [r|];
    unfold MemStorage.newArray, MemStorage.push, MemStorage.updateConversation,
      Heap.alloc;
    cbn [fst snd MemStorage.conversations MemStorage.botResponses MemStorage.arrays];
    rewrite Hget;
    cbn [fst snd MemStorage.conversations MemStorage.botResponses MemStorage.arrays
         Heap.push Heap.read Heap.items Heap.next];
    rewrite Nat.eqb_refl.
  - repeat split; try reflexivity; try lia.
    intros r' Hne. apply Nat.eqb_neq in Hne. now rewrite Hne.
  - repeat split; try reflexivity; try lia.
    intros r' Hne. apply Nat.eqb_neq in Hne. now rewrite Hne.
Qed.

(** The conversation is found with the message at the end of its
    messages. *)
Lemma addMessage_found (id : jsstring) (message : Message.t) (now : N)
    (st : MemStorage.t) (c : Conversation.t) :
  JSMap.get (MemStorage.conversations st) id = Some c ->
  let result := MemStorage.addMessageToConversation id message now st in
  let c' :=
    Conversation.mk (Conversation.id c) (Conversation.userId c)
      (Conversation.platform c) (MessageArray (targetArray st c))
      (Conversation.isActive c) (Conversation.createdAt c) (Some now) in
  fst result = true
  /\ JSMap.get (MemStorage.conversations (snd result)) id = Some c'
  /\ messageList (snd result) c' = messageList st c ++ [message]
  /\ MemStorage.botResponses (snd result) = MemStorage.botResponses st.
Proof.
  intros Hget. cbv zeta.
  destruct (@addMessage_stored id message now st c Hget)
    as (Hok & Hconv & Hbots & Hread & _). cbv zeta in *.
  split; [exact Hok|]. split; [rewrite Hconv; apply map_get_set_same|].
  split; [exact Hread|exact Hbots].
Qed.

(** X1: a message added to a known conversation goes to the end of its
    messages, onto the array that the conversation holds (a new array
    when it holds none); the date of the update is the only other field
    that changes, and the conversation keeps its key and its place.  The
    other conversations are found as before; those that hold the same
    array have the message too, and the messages of the others do not
    change.  The bot responses are not touched. *)
Theorem addMessage_appends (id : jsstring) (message : Message.t) (now : N)
    (st : MemStorage.t) (c : Conversation.t) :
  ArraysAllocated st ->
  JSMap.get (MemStorage.conversations st) id = Some c ->
  let result := MemStorage.addMessageToConversation id message now st in
  let c' :=
    Conversation.mk (Conversation.id c) (Conversation.userId c)
      (Conversation.platform c) (MessageArray (targetArray st c))
      (Conversation.isActive c) (Conversation.createdAt c) (Some now) in
  fst result = true
  /\ JSMap.get (MemStorage.conversations (snd result)) id = Some c'
  /\ messageList (snd result) c' = messageList st c ++ [message]
  /\ (forall id' c2,
         id' <> id ->
         JSMap.get (MemStorage.conversations st) id' = Some c2 ->
         JSMap.get (MemStorage.conversations (snd result)) id' = Some c2
         /\ messageList (snd result) c2
            = messageList st c2 ++ (if sameArray c c2 then [message] else []))
  /\ map fst (MemStorage.conversations (snd result))
     = map fst (MemStorage.conversations st)
  /\ MemStorage.botResponses (snd result) = MemStorage.botResponses st
  /\ ArraysAllocated (snd result).
Proof.
  intros Halloc Hget. cbv zeta.
  destruct (@addMessage_stored id message now st c Hget)
    as (Hok & Hconv & Hbots & Hread & Hother & Hnext & Hnew). cbv zeta in *.
  pose proof (Halloc _ _ Hget) as Hc. specialize (Hnew Hc).
  split; [exact Hok|]. split; [rewrite Hconv; apply map_get_set_same|].
  split; [exact Hread|].
  split; [|split; [|split; [exact Hbots|]]].
  - intros id' c2 Hne Hget2. rewrite Hconv.
    split; [now rewrite map_get_set_other|].
    pose proof (Halloc _ _ Hget2) as Hc2.
    unfold messageList, sameArray, targetArray, Allocated in *.
    destruct (Conversation.messages c2) as [r2|];
      [|now destruct (Conversation.messages c)].
    destruct (Conversation.messages c) as [r|].
    + destruct (Nat.eqb_spec r r2) as [->|Hr].
      * exact Hread.
      * rewrite app_nil_r. apply Hother. congruence.
    + rewrite app_nil_r. apply Hother. lia.
  - rewrite Hconv, map_set_keys.
    destruct (JSMap.has (MemStorage.conversations st) id) eqn:E; [reflexivity|].
    apply map_has_get in E. congruence.
  - intros id' c2 Hget2. rewrite Hconv in Hget2.
    destruct (list_eq_dec N.eq_dec id' id) as [->|Hne].
    + rewrite map_get_set_same in Hget2. injection Hget2 as <-.
      cbn [Allocated Conversation.messages]. exact Hnew.
    + rewrite map_get_set_other in Hget2 by assumption.
      pose proof (Halloc _ _ Hget2) as Hc2. unfold Allocated in *.
      destruct (Conversation.messages c2); [lia|exact I].
Qed.

Lemma sharedStore_allocated : ArraysAllocated sharedStore.
Proof.
  intros id c Hget. apply map_get_in in Hget. cbn in Hget.
  destruct Hget as [E|[E|[]]]; injection E as _ <-; cbn; lia.
Qed.

(** The two conversations of [sharedStore] were made from one insertion
    object: a message added to the first is a message of the second. *)
Lemma addMessage_appends_witness :
  let st := snd (MemStorage.addMessageToConversation (lit "c-0001") soldeMessage
                   2001 sharedStore) in
  exists c1 c2,
    JSMap.get (MemStorage.conversations st) (lit "c-0001") = Some c1
    /\ messageList st c1 = [soldeMessage]
    /\ JSMap.get (MemStorage.conversations st) (lit "c-0002") = Some c2
    /\ messageList st c2 = [soldeMessage].
Proof.
  cbv zeta.
  assert (H1 : JSMap.get (MemStorage.conversations sharedStore) (lit "c-0001")
               = Some (Conversation.mk (lit "c-0001") (lit "user_1") (lit "web")
                         (MessageArray 0) true (Some 1000%N) (Some 1000%N)))
    by (vm_compute; reflexivity).
  assert (H2 : JSMap.get (MemStorage.conversations sharedStore) (lit "c-0002")
               = Some (Conversation.mk (lit "c-0002") (lit "user_1") (lit "web")
                         (MessageArray 0) true (Some 1001%N) (Some 1001%N)))
    by (vm_compute; reflexivity).
  destruct (@addMessage_appends _ soldeMessage 2001 _ _ sharedStore_allocated H1)
    as (_ & Hget & Hms & Hothers & _).
  destruct (Hothers (lit "c-0002") _ ltac:(discriminate) H2) as [Hget2 Hms2].
  eexists. eexists. split; [exact Hget|]. split; [exact Hms|].
  split; [exact Hget2|exact Hms2].
Defined.

Lemma addMessage_missing (id : jsstring) (message : Message.t) (now : N)
    (st : MemStorage.t) :
  JSMap.get (MemStorage.conversations st) id = None ->
  MemStorage.addMessageToConversation id message now st = (false, st).
Proof.
  intros H. unfold MemStorage.addMessageToConversation. now rewrite H.
Qed.

(** The conversations hold arrays of the heap in the store that the
    constructor makes, and in every store that is made from such a store
    by a new array, by a conversation created with an array of the heap
    or with no array, or by a message added. *)
Lemma arrays_allocated_kept :
  (forall uuids, ArraysAllocated (MemStorage.new uuids))
  /\ (forall st, ArraysAllocated st ->
        (forall items,
            ArraysAllocated (snd (MemStorage.newArray items st))
            /\ Allocated (snd (MemStorage.newArray items st))
                         (MessageArray (fst (MemStorage.newArray items st))))
        /\ (forall ins id now,
               Allocated st (InsertConversation.messages ins) ->
               ArraysAllocated (snd (Store.createConversation ins id now st)))
        /\ (forall id message now,
               ArraysAllocated
                 (snd (MemStorage.addMessageToConversation id message now st)))).
Proof.
  split; [intros uuids id c H; discriminate H|].
  intros st Halloc. split; [|split].
  - intros items. split; [|cbn; lia].
    intros id c Hget. specialize (Halloc id c Hget). unfold Allocated in *.
    destruct (Conversation.messages c); [cbn; lia|exact I].
  - intros ins id now Hins id' c Hget.
    unfold Store.createConversation in Hget. cbn [snd MemStorage.conversations] in Hget.
    destruct (list_eq_dec N.eq_dec id' id) as [->|Hne].
    + rewrite map_get_set_same in Hget. injection Hget as <-. exact Hins.
    + rewrite map_get_set_other in Hget by assumption. exact (Halloc _ _ Hget).
  - intros id message now.
    destruct (JSMap.get (MemStorage.conversations st) id) as [c|] eqn:Hget;
      [|now rewrite addMessage_missing by assumption].
    destruct (@addMessage_stored id message now st c Hget)
      as (_ & Hconv & _ & _ & _ & Hnext & Hnew). cbv zeta in *.
    specialize (Hnew (Halloc _ _ Hget)).
    intros id' c2 Hget2. rewrite Hconv in Hget2.
    destruct (list_eq_dec N.eq_dec id' id) as [->|Hne].
    + rewrite map_get_set_same in Hget2. injection Hget2 as <-. exact Hnew.
    + rewrite map_get_set_other in Hget2 by assumption.
      pose proof (Halloc _ _ Hget2) as Hc2. unfold Allocated in *.
      destruct (Conversation.messages c2); [lia|exact I].
Qed.

(** X2: messages added one after the other to a known conversation are
    kept in the order of the calls, after the messages it had; added to
    an unknown conversation they are dropped and no conversation is made. *)
Theorem addAll_in_order (id : jsstring) (batch : list (Message.t * N))
    (st : MemStorage.t) :
  match JSMap.get (MemStorage.conversations st) id with
  | Some c =>
      exists c',
        JSMap.get (MemStorage.conversations (addAll id batch st)) id = Some c'
        /\ messageList (addAll id batch st) c' = messageList st c ++ map fst batch
        /\ Conversation.userId c' = Conversation.userId c
        /\ Conversation.isActive c' = Conversation.isActive c
  | None => addAll id batch st = st
  end.
Proof.
  destruct (JSMap.get (MemStorage.conversations st) id) as [c|] eqn:Hget.
  - revert st c Hget. induction batch as [|[m now] batch IH]; intros st c Hget.
    + exists c. rewrite app_nil_r. now repeat split.
    + cbn [addAll fold_left fst snd map].
      destruct (@addMessage_found id m now st c Hget) as (_ & Hget' & Hms' & _).
      cbv zeta in Hget', Hms'.
      destruct (IH _ _ Hget') as (c' & Hc' & Hms & Hu & Ha).
      exists c'. split; [exact Hc'|]. unfold addAll in Hms. rewrite Hms, Hms'.
      cbn [Conversation.userId Conversation.isActive] in *.
      rewrite <- app_assoc. now repeat split.
  - revert st Hget. induction batch as [|[m now] batch IH]; intros st Hget;
      [reflexivity|].
    cbn [addAll fold_left fst snd]. rewrite addMessage_missing by assumption.
    now apply IH.
Qed.

(** X3: a conversation that has been created is found under its
    identifier, which is the one drawn; the other identifiers are found as
    before, and the catalog is not touched. *)
Theorem createConversation_lookup (insertConversation : InsertConversation.t)
    (id : jsstring) (now : N) (st : MemStorage.t) :
  let result := Store.createConversation insertConversation id now st in
  Conversation.id (fst result) = id
  /\ Store.getConversation id (snd result) = (Some (fst result), snd result)
  /\ (forall id', id' <> id ->
        fst (Store.getConversation id' (snd result))
        = fst (Store.getConversation id' st))
  /\ MemStorage.botResponses (snd result) = MemStorage.botResponses st.
Proof.
  cbv zeta. unfold Store.createConversation, Store.getConversation.
  cbn [fst snd MemStorage.conversations MemStorage.botResponses].
  split; [reflexivity|]. split; [now rewrite map_get_set_same|].
  split; [|reflexivity]. intros id' Hne. now apply map_get_set_other.
Qed.

(** X4: the lookup by user returns the first active conversation of the
    user, in the order of creation: a conversation created under a new
    identifier never replaces one that the lookup found, also for its own
    user; it is found for its user when it is active and the user had
    none. *)
Theorem createConversation_by_user (insertConversation : InsertConversation.t)
    (id : jsstring) (now : N) (st : MemStorage.t) :
  JSMap.has (MemStorage.conversations st) id = false ->
  let result := Store.createConversation insertConversation id now st in
  (forall userId c,
      fst (Store.getConversationByUserId userId st) = Some c ->
      fst (Store.getConversationByUserId userId (snd result)) = Some c)
  /\ (fst (Store.getConversationByUserId
             (InsertConversation.userId insertConversation) st) = None ->
      fst (Store.getConversationByUserId
             (InsertConversation.userId insertConversation) (snd result))
      = if InsertConversation.isActive insertConversation
        then Some (fst result) else None)
  /\ (forall userId,
         userId <> InsertConversation.userId insertConversation ->
         fst (Store.getConversationByUserId userId (snd result))
         = fst (Store.getConversationByUserId userId st)).
Proof.
  intros Hfresh. cbv zeta.
  unfold Store.createConversation, Store.getConversationByUserId.
  cbn [fst snd MemStorage.conversations]. rewrite values_set_fresh by assumption.
  split; [|split].
  - intros userId c H. now apply find_app_l.
  - intros H. rewrite find_app_r by assumption. cbn [find Conversation.userId
      Conversation.isActive]. rewrite strictEq_refl.
    now destruct (InsertConversation.isActive insertConversation).
  - intros userId Hne.
    destruct (find _ (JSMap.values (MemStorage.conversations st))) as [c|] eqn:F.
    + now apply find_app_l.
    + rewrite find_app_r by assumption. cbn [find Conversation.userId].
      assert (E : strictEq (InsertConversation.userId insertConversation) userId = false)
        by (apply strictEq_false; congruence).
      now rewrite E.
Qed.

Lemma createConversation_by_user_witness :
  fst (Store.getConversationByUserId (lit "user_1")
         (snd (Store.createConversation (webConversation NotArray) (lit "c-0002")
                 5000 chatStore)))
  = Some (Conversation.mk (lit "c-0001") (lit "user_1") (lit "web") (MessageArray 0)
            true (Some 1000%N) (Some 1000%N)).
Proof.
  refine (proj1 (@createConversation_by_user (webConversation NotArray)
                   (lit "c-0002") 5000 chatStore _) (lit "user_1") _ _);
    vm_compute; reflexivity.
Defined.

(** ** The invariant of the store *)

Lemma initial_keys (rs : list (BotResponse.t * jsstring)) (m : JSMap.t BotResponse.t) :
  UniqueKeys m -> KeyedBy BotResponse.id m ->
  let m' :=
    fold_left
      (fun m (ri : BotResponse.t * jsstring) =>
         JSMap.set m (snd ri) (MemStorage.withId (fst ri) (snd ri)))
      rs m in
  UniqueKeys m' /\ KeyedBy BotResponse.id m'.
Proof.
  revert m. induction rs as [|[r i] rs IH]; intros m Hu Hk; [now split|].
  cbn [fold_left fst snd]. apply IH; [now apply unique_set|].
  now apply keyed_set.
Qed.

Lemma new_well_formed (uuids : list jsstring) : WellFormed (MemStorage.new uuids).
Proof.
  unfold MemStorage.new, MemStorage.initializeDefaultResponses.
  cbn [snd MemStorage.botResponses MemStorage.conversations].
  destruct (@initial_keys (combine MemStorage.defaultResponses uuids) [])
    as [Hu Hk]; [constructor|intros kv []|].
  split; [exact Hu|]. split; [constructor|]. split; [exact Hk|intros kv []].
Qed.

(** X5: in the store that the constructor makes, and in every store
    that the methods make from it, no key occurs twice and every bot
    response and every conversation is stored under its own identifier
    (for [updateBotResponse], when the update carries no identifier). *)
Theorem store_well_formed :
  (forall uuids, WellFormed (MemStorage.new uuids))
  /\ (forall st, WellFormed st ->
        (forall ins id now, WellFormed (snd (Store.createConversation ins id now st)))
        /\ (forall id message now,
               WellFormed (snd (MemStorage.addMessageToConversation id message now st)))
        /\ (forall response id now,
               WellFormed (snd (Store.createBotResponse response id now st)))
        /\ (forall id, WellFormed (snd (MemStorage.deleteBotResponse id st)))
        /\ (forall id updates,
               PartialBotResponse.id updates = None ->
               WellFormed (snd (Store.updateBotResponse id updates st)))).
Proof.
  split.
  - exact new_well_formed.
  - intros st (Hub & Huc & Hkb & Hkc). split; [|split; [|split; [|split]]].
    + intros ins id now. unfold WellFormed, Store.createConversation.
      cbn [snd MemStorage.botResponses MemStorage.conversations].
      repeat split; try assumption; [now apply unique_set|now apply keyed_set].
    + intros id message now.
      destruct (JSMap.get (MemStorage.conversations st) id) as [c|] eqn:Hget;
        [|rewrite addMessage_missing by assumption; now repeat split].
      destruct (@addMessage_stored id message now st c Hget)
        as (_ & Hconv & Hbots & _). cbv zeta in Hconv, Hbots.
      unfold WellFormed. rewrite Hconv, Hbots.
      repeat split; try assumption; [now apply unique_set|].
      apply keyed_set; [assumption|]. cbn [Conversation.id].
      apply map_get_in in Hget. symmetry. exact (Hkc _ Hget).
    + intros response id now. unfold WellFormed, Store.createBotResponse.
      cbn [snd MemStorage.botResponses MemStorage.conversations].
      repeat split; try assumption; [now apply unique_set|now apply keyed_set].
    + intros id. unfold WellFormed, MemStorage.deleteBotResponse.
      cbn [snd MemStorage.botResponses MemStorage.conversations].
      repeat split; try assumption; [now apply unique_delete|now apply keyed_delete].
    + intros id updates Hid. unfold Store.updateBotResponse.
      destruct (JSMap.get (MemStorage.botResponses st) id) as [r|] eqn:Hget;
        [|now repeat split].
      unfold WellFormed. cbn [snd MemStorage.botResponses MemStorage.conversations].
      repeat split; try assumption; [now apply unique_set|].
      apply keyed_set; [assumption|]. unfold Store.spread.
      cbn [BotResponse.id]. rewrite Hid.
      apply map_get_in in Hget. symmetry. exact (Hkb _ Hget).
Qed.

Lemma store_well_formed_witness :
  WellFormed defaultStore
  /\ WellFormed (snd (MemStorage.deleteBotResponse (lit "3f2b6c1e-0001") defaultStore))
  /\ WellFormed (snd (Store.createConversation (webConversation NotArray)
                        (lit "c-0001") 1000 defaultStore)).
Proof.
  destruct store_well_formed as [Hnew Hops].
  assert (H : WellFormed defaultStore) by exact (Hnew uuids).
  split; [exact H|].
  split; [exact (proj1 (proj2 (proj2 (proj2 (Hops _ H)))) (lit "3f2b6c1e-0001"))|].
  exact (proj1 (Hops _ H) (webConversation NotArray) (lit "c-0001") 1000%N).
Defined.

(** ** Bot responses *)

Lemma filter_filter_comm {A} (p q : A -> bool) (l : list A) :
  filter p (filter q l) = filter q (filter p l).
Proof.
  induction l as [|x l IH]; simpl; [reflexivity|].
  destruct (p x) eqn:P, (q x) eqn:Q; simpl; rewrite ?P, ?Q, IH; reflexivity.
Qed.

(** X6: deleting reports whether the identifier was a key; afterwards
    the key is unknown, a second deletion reports false and changes
    nothing, the other keys are found as before, the conversations are
    not touched, and the catalog is the former one without the entries of
    that identifier, in the same order. *)
Theorem deleteBotResponse_effect (id : jsstring) (st : MemStorage.t) :
  let result := MemStorage.deleteBotResponse id st in
  (fst result = true <-> exists r, JSMap.get (MemStorage.botResponses st) id = Some r)
  /\ JSMap.get (MemStorage.botResponses (snd result)) id = None
  /\ MemStorage.deleteBotResponse id (snd result) = (false, snd result)
  /\ (forall id', id' <> id ->
        JSMap.get (MemStorage.botResponses (snd result)) id'
        = JSMap.get (MemStorage.botResponses st) id')
  /\ MemStorage.conversations (snd result) = MemStorage.conversations st
  /\ (KeyedBy BotResponse.id (MemStorage.botResponses st) ->
      fst (MemStorage.getAllBotResponses (snd result))
      = filter (fun r => negb (strictEq (BotResponse.id r) id))
               (fst (MemStorage.getAllBotResponses st))).
Proof.
  cbv zeta. unfold MemStorage.deleteBotResponse.
  cbn [fst snd MemStorage.botResponses MemStorage.conversations].
  split; [|split; [|split; [|split; [|split]]]].
  - destruct (JSMap.has (MemStorage.botResponses st) id) eqn:E.
    + split; [intros _|reflexivity].
      destruct (JSMap.get (MemStorage.botResponses st) id) as [r|] eqn:G;
        [now exists r|]. apply map_has_get in G. congruence.
    + apply map_has_get in E. split; [discriminate|]. intros [r G]. congruence.
  - apply map_has_get, map_delete_has.
  - rewrite map_delete_has, map_delete_fresh by apply map_delete_has. reflexivity.
  - intros id' Hne. now apply map_get_delete_other.
  - reflexivity.
  - intros Hk. unfold MemStorage.getAllBotResponses. cbn [fst MemStorage.botResponses].
    rewrite filter_filter_comm. f_equal.
    unfold JSMap.values, JSMap.delete.
    induction (MemStorage.botResponses st) as [|kv m IH]; [reflexivity|].
    assert (Hkv : fst kv = BotResponse.id (snd kv)) by (apply Hk; now left).
    assert (Hm : KeyedBy BotResponse.id m) by (intros kv' Hin; apply Hk; now right).
    cbn [filter map]. rewrite <- Hkv.
    destruct (strictEq (fst kv) id); cbn [negb map]; rewrite IH by assumption;
      reflexivity.
Qed.

Lemma deleteBotResponse_effect_witness :
  map BotResponse.intent
      (fst (MemStorage.getAllBotResponses
              (snd (MemStorage.deleteBotResponse (lit "3f2b6c1e-0002") defaultStore))))
  = [lit "balance_inquiry"; lit "plans"; lit "support"; lit "greeting"].
Proof.
  rewrite (proj2 (proj2 (proj2 (proj2 (proj2
             (deleteBotResponse_effect (lit "3f2b6c1e-0002") defaultStore)))))).
  - vm_compute. reflexivity.
  - exact (proj1 (proj2 (proj2 (new_well_formed uuids)))).
Defined.

Lemma activeEntries_map (st : MemStorage.t) :
  activeEntries st = map entryOf (fst (MemStorage.getAllBotResponses st)).
Proof. reflexivity. Qed.

Lemma find_filter {A} (q a : A -> bool) (l : list A) :
  find (fun x => q x && a x) l = find q (filter a l).
Proof.
  induction l as [|x l IH]; simpl; [reflexivity|].
  destruct (a x); simpl.
  - rewrite andb_true_r. destruct (q x); [reflexivity|exact IH].
  - rewrite andb_false_r. exact IH.
Qed.

(** The reply and the classification read the store through its catalog
    only. *)
Lemma reply_by_catalog (intent : ServiceIntent.t) (language : Language)
    (st st' : MemStorage.t) :
  fst (MemStorage.getAllBotResponses st') = fst (MemStorage.getAllBotResponses st) ->
  fst (Routes.generateBotResponse intent language st')
  = fst (Routes.generateBotResponse intent language st).
Proof.
  intros E. unfold Routes.generateBotResponse.
  destruct (num_lt _ _); [reflexivity|].
  unfold MemStorage.bind, MemStorage.getBotResponseByIntent.
  unfold MemStorage.getAllBotResponses in E. cbn [fst] in E.
  rewrite !find_filter, E.
  now destruct (find _ _).
Qed.

Lemma stringKeywords_items (st : MemStorage.t) :
  stringKeywords st
  = forallb (forallb isString)
            (map keywordItems (fst (MemStorage.getAllBotResponses st))).
Proof.
  unfold stringKeywords.
  induction (fst (MemStorage.getAllBotResponses st)) as [|r rs IH];
    [reflexivity|].
  cbn [forallb map]. now rewrite IH.
Qed.

(** The classification reads of an active entry its intent, its
    category and the items of its keywords. *)
Lemma classification_by_view {host : LowerCase} (text : jsstring)
    (st st' : MemStorage.t) :
  map (fun r => (entryOf r, keywordItems r)) (fst (MemStorage.getAllBotResponses st'))
  = map (fun r => (entryOf r, keywordItems r)) (fst (MemStorage.getAllBotResponses st)) ->
  fst (Routes.analyzeIntent text st') = fst (Routes.analyzeIntent text st).
Proof.
  intros E. rewrite !routes_scan. cbn [fst].
  assert (E1 : activeEntries st' = activeEntries st).
  { rewrite !activeEntries_map. apply (f_equal (map fst)) in E.
    now rewrite !map_map in E. }
  assert (E2 : stringKeywords st' = stringKeywords st).
  { rewrite !stringKeywords_items. apply (f_equal (map snd)) in E.
    rewrite !map_map in E. cbn [snd] in E. f_equal. exact E. }
  now rewrite E1, E2.
Qed.

Lemma classification_by_catalog {host : LowerCase} (text : jsstring)
    (st st' : MemStorage.t) :
  fst (MemStorage.getAllBotResponses st') = fst (MemStorage.getAllBotResponses st) ->
  fst (Routes.analyzeIntent text st') = fst (Routes.analyzeIntent text st).
Proof. intros E. apply classification_by_view. now rewrite E. Qed.

Lemma getAll_create_fresh (response : InsertBotResponse.t) (id : jsstring) (now : N)
    (st : MemStorage.t) :
  JSMap.has (MemStorage.botResponses st) id = false ->
  fst (MemStorage.getAllBotResponses (snd (Store.createBotResponse response id now st)))
  = fst (MemStorage.getAllBotResponses st)
    ++ (if InsertBotResponse.isActive response
        then [fst (Store.createBotResponse response id now st)] else []).
Proof.
  intros Hfresh. unfold Store.createBotResponse, MemStorage.getAllBotResponses.
  cbn [fst snd MemStorage.botResponses]. rewrite values_set_fresh by assumption.
  rewrite filter_app. cbn [filter BotResponse.isActive].
  now destruct (InsertBotResponse.isActive response).
Qed.

(** X7: an entry created under a new identifier goes to the end of the
    catalog when it is active, and is left out of it otherwise; no reply
    that the store gave changes, also for the intent of the new entry:
    the older entry of an intent is the one found. *)
Theorem createBotResponse_appends (response : InsertBotResponse.t) (id : jsstring)
    (now : N) (st : MemStorage.t) :
  JSMap.has (MemStorage.botResponses st) id = false ->
  let result := Store.createBotResponse response id now st in
  fst (MemStorage.getAllBotResponses (snd result))
  = fst (MemStorage.getAllBotResponses st)
    ++ (if InsertBotResponse.isActive response then [fst result] else [])
  /\ (forall intent language t,
         fst (Routes.generateBotResponse intent language st) = Some t ->
         fst (Routes.generateBotResponse intent language (snd result)) = Some t)
  /\ MemStorage.conversations (snd result) = MemStorage.conversations st.
Proof.
  intros Hfresh. cbv zeta. split; [now apply getAll_create_fresh|].
  split; [|reflexivity]. intros intent language t.
  unfold Routes.generateBotResponse. destruct (num_lt _ _); [trivial|].
  unfold MemStorage.bind, MemStorage.getBotResponseByIntent,
    Store.createBotResponse. cbn [fst snd MemStorage.botResponses].
  rewrite values_set_fresh by assumption.
  destruct (find _ (JSMap.values (MemStorage.botResponses st))) as [r|] eqn:F;
    [|discriminate].
  rewrite (find_app_l _ _ _ F). trivial.
Qed.

Lemma createBotResponse_appends_witness :
  fst (Routes.generateBotResponse balanceIntent fr
         (snd (Store.createBotResponse secondBalance (lit "3f2b6c1e-0006") 7000
                 defaultStore)))
  = Some (lit "Vous pouvez consulter votre solde en composant *555# ou via l'application Mobilis").
Proof.
  refine (proj1 (proj2 (@createBotResponse_appends secondBalance (lit "3f2b6c1e-0006")
                          7000 defaultStore _)) balanceIntent fr _ _);
    vm_compute; reflexivity.
Defined.

(** ** The catalog and the classification *)

(** The result of the scan of a non-empty message, read on the entries:
    the unknown result when every matching keyword is empty, and otherwise
    the selection of a matching keyword of greatest length. *)
Lemma scan_max {host : LowerCase} (normalized : jsstring) (len : nat)
    (entries : list entry) :
  0 < len ->
  (scan normalized len entries = unknownIntent
   /\ forall e k, In e entries -> hit normalized e k -> length k = 0)
  \/ (exists e k,
        In e entries /\ hit normalized e k /\ 0 < length k
        /\ scan normalized len entries = selection len e k
        /\ forall e' k', In e' entries -> hit normalized e' k' ->
                         length k' <= length k).
Proof.
  intros Hlen. unfold scan.
  destruct (fold_consider_selected normalized (visits entries) Hlen)
    as [[E Hall]|(l1 & [e k] & l2 & E & Hv & Hpos & Hr & Hl1 & Hl2)].
  - left. split; [exact E|]. intros e k He [Hk Hm].
    apply (Hall (e, k)); [now apply in_visits|exact Hm].
  - right. exists e, k. cbn [fst snd] in *.
    assert (Hin : In (e, k) (visits entries)) by (rewrite E; apply in_elt).
    apply in_visits in Hin as [He Hk].
    split; [exact He|]. split; [now split|]. split; [exact Hpos|].
    split; [exact Hr|]. intros e' k' He' [Hk' Hm'].
    assert (Hin' : In (e', k') (visits entries)) by now apply in_visits.
    rewrite E in Hin'. apply in_app_or in Hin' as [H|[H|H]].
    + specialize (Hl1 _ H Hm'). cbn [snd] in Hl1. lia.
    + injection H as <- <-. lia.
    + exact (Hl2 _ H Hm').
Qed.

Lemma fold_consider_stable {host : LowerCase} (normalized : jsstring) (len : nat)
    (vs : list (entry * jsstring)) (best : ServiceIntent.t) :
  (forall v, In v vs -> matches normalized (snd v) = true ->
             num_gt (div_length (length (snd v)) len)
                    (ServiceIntent.confidence best) = false) ->
  fold_left (consider normalized len) vs best = best.
Proof.
  induction vs as [|v vs IH]; intros H; [reflexivity|].
  cbn [fold_left]. unfold consider at 2.
  destruct (matches normalized (snd v)) eqn:Hm.
  - rewrite (H v (or_introl eq_refl) Hm). apply IH. intros v' Hv'. apply H. now right.
  - apply IH. intros v' Hv'. apply H. now right.
Qed.

Lemma scan_app {host : LowerCase} (normalized : jsstring) (len : nat)
    (entries more : list entry) :
  scan normalized len (entries ++ more)
  = fold_left (consider normalized len) (visits more) (scan normalized len entries).
Proof.
  unfold scan, visits. now rewrite flat_map_app, fold_left_app.
Qed.

(** X8: an active entry created under a new identifier, with keywords
    that are strings, changes the classification of a text only through
    a keyword of its own that is found in the text with a confidence
    strictly above the former one; and when its longest keyword found in a
    non-empty text is such a keyword, the text is classified as the new
    entry. *)
Theorem createBotResponse_classification {host : LowerCase}
    (response : InsertBotResponse.t) (id : jsstring) (now : N)
    (st : MemStorage.t) (text : jsstring) :
  JSMap.has (MemStorage.botResponses st) id = false ->
  InsertBotResponse.isActive response = true ->
  let result := Store.createBotResponse response id now st in
  let e := entryOf (fst result) in
  StringKeywords (snd result) ->
  exists before after,
    fst (Routes.analyzeIntent text st) = Normal before
    /\ fst (Routes.analyzeIntent text (snd result)) = Normal after
    /\ ((forall k, In k (entryKeywords e) -> matches (toLowerCase text) k = true ->
                   num_gt (div_length (length k) (length text))
                          (ServiceIntent.confidence before) = false) ->
        after = before)
    /\ (forall k,
           text <> [] ->
           hit (toLowerCase text) e k ->
           (forall k', hit (toLowerCase text) e k' -> length k' <= length k) ->
           num_gt (div_length (length k) (length text))
                  (ServiceIntent.confidence before) = true ->
           after = selection (length text) e k).
Proof.
  intros Hfresh Hact. cbv zeta. intros Hstr.
  assert (Hall : fst (MemStorage.getAllBotResponses
                        (snd (Store.createBotResponse response id now st)))
                 = fst (MemStorage.getAllBotResponses st)
                   ++ [fst (Store.createBotResponse response id now st)])
    by (rewrite getAll_create_fresh by assumption; now rewrite Hact).
  assert (Hentries : activeEntries (snd (Store.createBotResponse response id now st))
                     = activeEntries st
                       ++ [entryOf (fst (Store.createBotResponse response id now st))])
    by (rewrite !activeEntries_map, Hall; now rewrite map_app).
  assert (Hstr0 : StringKeywords st).
  { unfold StringKeywords, stringKeywords in *. rewrite Hall, forallb_app in Hstr.
    now apply andb_true_iff in Hstr as [Hstr _]. }
  rewrite !routes_scan_ok by assumption. cbn [fst]. rewrite Hentries.
  set (e := entryOf (fst (Store.createBotResponse response id now st))).
  eexists. eexists. split; [reflexivity|]. split; [reflexivity|].
  split.
  - intros Hnone. rewrite scan_app. apply fold_consider_stable.
    intros [e' k] Hin Hm. unfold visits in Hin. cbn [flat_map] in Hin.
    rewrite app_nil_r in Hin. apply in_map_iff in Hin as (k' & E & Hin).
    injection E as <- <-. cbn [snd] in *. now apply Hnone.
  - intros k Hne Hk Hbest Hgt. apply nonempty_length in Hne.
    assert (Hpos : 0 < length k).
    { destruct (length k) eqn:L; [|lia]. exfalso.
      destruct (scan_unknown_or_selected (toLowerCase text) (length text)
                  (activeEntries st)) as [E|(e0 & k0 & _ & _ & _ & E)];
        rewrite E in Hgt; cbn [unknownIntent selection ServiceIntent.confidence] in Hgt.
      - rewrite num_gt_div_zero in Hgt. discriminate.
      - rewrite num_gt_div_div in Hgt by assumption. discriminate. }
    apply (@scan_first_seen host (toLowerCase text) (length text) (length k)
             (activeEntries st) [] e); try assumption.
    + now exists k.
    + intros e' k' He' Hk'.
      destruct (scan_max (toLowerCase text) (activeEntries st) Hne)
        as [[E Hall']|(e0 & k0 & _ & _ & _ & E & Hmax)].
      * rewrite (Hall' e' k' He' Hk'). exact Hpos.
      * rewrite E in Hgt. cbn [selection ServiceIntent.confidence] in Hgt.
        rewrite num_gt_div_div in Hgt by assumption. apply Nat.ltb_lt in Hgt.
        specialize (Hmax e' k' He' Hk'). lia.
    + intros e' k' [].
Qed.

Lemma createBotResponse_classification_witness :
  fst (@Routes.analyzeIntent latin (lit "quel est mon solde")
         (snd (Store.createBotResponse secondBalance (lit "3f2b6c1e-0006") 7000
                 defaultStore)))
  = Normal balanceIntent
  /\ fst (@Routes.analyzeIntent latin (lit "quel est mon solde")
            (snd (Store.createBotResponse soldeRestant (lit "3f2b6c1e-0006") 7000
                    defaultStore)))
     = Normal (ServiceIntent.mk (lit "remaining") (Finite (9 # 18)) (lit "balance")).
Proof.
  split.
  - destruct (@createBotResponse_classification latin secondBalance
                (lit "3f2b6c1e-0006") 7000 defaultStore (lit "quel est mon solde"))
      as (before & after & Hb & Ha & Hsame & _);
      [vm_compute; reflexivity|reflexivity|vm_compute; reflexivity|].
    rewrite Ha, Hsame.
    + rewrite <- Hb. vm_compute. reflexivity.
    + intros k [<-|[]] Hm. vm_compute in Hm. discriminate Hm.
  - destruct (@createBotResponse_classification latin soldeRestant
                (lit "3f2b6c1e-0006") 7000 defaultStore (lit "quel est mon solde"))
      as (before & after & Hb & Ha & _ & Hnew);
      [vm_compute; reflexivity|reflexivity|vm_compute; reflexivity|].
    rewrite Ha. f_equal.
    rewrite (Hnew (lit "mon solde")); [vm_compute; reflexivity|discriminate| | |].
    + split; [left; reflexivity|vm_compute; reflexivity].
    + intros k' [[<-|[]] _]. apply Nat.le_refl.
    + vm_compute in Hb. injection Hb as <-. vm_compute. reflexivity.
Defined.

(** At or above the threshold, the intent of the classification is the
    intent of an active entry, so that the lookup by intent finds one. *)
Lemma selected_intent_found {host : LowerCase} (text : jsstring) (st : MemStorage.t)
    (intent : ServiceIntent.t) :
  fst (Routes.analyzeIntent text st) = Normal intent ->
  num_lt (ServiceIntent.confidence intent) (Finite (1 # 10)) = false ->
  exists r,
    fst (MemStorage.getBotResponseByIntent (ServiceIntent.intent intent) st) = Some r
    /\ In r (fst (MemStorage.getAllBotResponses st))
    /\ BotResponse.intent r = ServiceIntent.intent intent.
Proof.
  rewrite routes_scan. cbn [fst].
  destruct (stringKeywords st); [|discriminate]. intros [= <-].
  set (intent := scan (toLowerCase text) (length text) (activeEntries st)).
  intros Hlt.
  destruct (scan_unknown_or_selected (toLowerCase text) (length text)
              (activeEntries st)) as [E|(e & k & He & _ & _ & E)].
  - unfold intent in Hlt. rewrite E in Hlt. discriminate Hlt.
  - unfold MemStorage.getBotResponseByIntent. cbn [fst].
    rewrite find_filter.
    destruct (find _ _) as [r|] eqn:F.
    + exists r. split; [reflexivity|].
      apply find_some in F as [Hin Heq]. apply strictEq_true in Heq. now split.
    + exfalso. rewrite activeEntries_map in He.
      apply in_map_iff in He as (r & Er & Hr).
      apply (find_none _ _ F) in Hr. apply strictEq_false in Hr. apply Hr.
      fold intent in E. rewrite E, <- Er. reflexivity.
Qed.

Lemma reply_exists {host : LowerCase} (text : jsstring) (language : Language)
    (st : MemStorage.t) (intent : ServiceIntent.t) :
  fst (Routes.analyzeIntent text st) = Normal intent ->
  exists t, Routes.generateBotResponse intent language st = (Some t, st).
Proof.
  intros Hi.
  destruct (num_lt (ServiceIntent.confidence intent) (Finite (1 # 10))) eqn:Hlt.
  - exists (Routes.unknownMessage language).
    unfold Routes.generateBotResponse. now rewrite Hlt.
  - rewrite (generateBotResponse_lookup _ language st Hlt).
    destruct (@selected_intent_found host text st intent Hi Hlt) as (r & -> & _).
    eexists. reflexivity.
Qed.

(** X9: the intent that the routes classify a text as always has a reply
    in the same store, which is never [null]: below the threshold it is
    the unknown text of the language; from the threshold on it is the
    text, in the language, of the entry that the lookup by intent finds,
    an active entry of exactly that intent.  The store is left as it is.
    (The classification itself raises a [TypeError] when a keyword of an
    active entry is not a string.) *)
Theorem classified_intent_has_reply {host : LowerCase} (text : jsstring)
    (language : Language) (st : MemStorage.t) :
  Completes st
    (fun intent =>
       if num_lt (ServiceIntent.confidence intent) (Finite (1 # 10)) then
         Routes.generateBotResponse intent language st
         = (Some
              (match language with
               | ar => lit "عذراً، لم أفهم استفساركم. يمكنكم التواصل مع خدمة العملاء على 600"
               | fr => lit "Désolé, je n'ai pas compris votre demande. Vous pouvez contacter le service client au 600"
               end), st)
       else
         exists r,
           fst (MemStorage.getBotResponseByIntent (ServiceIntent.intent intent) st)
           = Some r
           /\ In r (fst (MemStorage.getAllBotResponses st))
           /\ BotResponse.intent r = ServiceIntent.intent intent
           /\ Routes.generateBotResponse intent language st
              = (Some (localized language r), st))
    (fst (Routes.analyzeIntent text st)).
Proof.
  destruct (fst (Routes.analyzeIntent text st)) as [intent|e] eqn:Hi.
  2:{ rewrite routes_scan in Hi. cbn [fst] in Hi. cbn [Completes].
      unfold StringKeywords. destruct (stringKeywords st); [discriminate|].
      injection Hi as <-. split; [reflexivity|discriminate]. }
  cbn [Completes]. split.
  { rewrite routes_scan in Hi. cbn [fst] in Hi. unfold StringKeywords.
    now destruct (stringKeywords st). }
  destruct (num_lt (ServiceIntent.confidence intent) (Finite (1 # 10))) eqn:Hlt.
  - unfold Routes.generateBotResponse. rewrite Hlt. now destruct language.
  - destruct (@selected_intent_found host text st intent Hi Hlt)
      as (r & Hfind & Hin & Hr).
    exists r. split; [exact Hfind|]. split; [exact Hin|]. split; [exact Hr|].
    rewrite (generateBotResponse_lookup _ language st Hlt), Hfind.
    now destruct language.
Qed.

Lemma getAll_update (id : jsstring) (updates : PartialBotResponse.t)
    (st : MemStorage.t) (r : BotResponse.t) :
  JSMap.get (MemStorage.botResponses st) id = Some r ->
  exists pre post,
    JSMap.values (MemStorage.botResponses st) = pre ++ r :: post
    /\ JSMap.values (MemStorage.botResponses (snd (Store.updateBotResponse id updates st)))
       = pre ++ Store.spread r updates :: post.
Proof.
  intros Hget. unfold Store.updateBotResponse. rewrite Hget.
  cbn [snd MemStorage.botResponses].
  destruct (@map_set_present _ _ id r (Store.spread r updates) Hget)
    as (pre & post & E & E' & _).
  exists (JSMap.values pre), (JSMap.values post). rewrite E', E. unfold JSMap.values.
  rewrite !map_app. now split.
Qed.

(** X10: an update of an entry that carries no intent, keywords,
    category or active flag (a change of the reply texts) changes the
    classification of no text; an update under an unknown identifier
    returns nothing and leaves the store as it is. *)
Theorem updateBotResponse_replies_only {host : LowerCase} (id : jsstring)
    (updates : PartialBotResponse.t) (st : MemStorage.t) :
  PartialBotResponse.intent updates = None ->
  PartialBotResponse.keywords updates = None ->
  PartialBotResponse.category updates = None ->
  PartialBotResponse.isActive updates = None ->
  (forall text,
      fst (Routes.analyzeIntent text (snd (Store.updateBotResponse id updates st)))
      = fst (Routes.analyzeIntent text st))
  /\ (JSMap.get (MemStorage.botResponses st) id = None ->
      Store.updateBotResponse id updates st = (None, st)).
Proof.
  intros Hi Hk Hc Ha. split.
  - intros text. apply classification_by_view.
    destruct (JSMap.get (MemStorage.botResponses st) id) as [r|] eqn:Hget.
    + destruct (@getAll_update id updates st r Hget) as (pre & post & E & E').
      unfold MemStorage.getAllBotResponses. cbn [fst].
      rewrite E, E', !filter_app. cbn [filter].
      assert (Hact : BotResponse.isActive (Store.spread r updates)
                     = BotResponse.isActive r)
        by (unfold Store.spread; cbn [BotResponse.isActive]; now rewrite Ha).
      assert (Hent : entryOf (Store.spread r updates) = entryOf r).
      { unfold entryOf, keywordList, keywordItems, Store.spread.
        cbn [BotResponse.intent BotResponse.category BotResponse.keywords].
        now rewrite Hi, Hk, Hc. }
      assert (Hitems : keywordItems (Store.spread r updates) = keywordItems r).
      { unfold keywordItems, Store.spread. cbn [BotResponse.keywords].
        now rewrite Hk. }
      rewrite Hact. destruct (BotResponse.isActive r); [|reflexivity].
      rewrite !map_app. cbn [map]. now rewrite Hent, Hitems.
    + unfold Store.updateBotResponse. now rewrite Hget.
  - intros Hget. unfold Store.updateBotResponse. now rewrite Hget.
Qed.

Lemma updateBotResponse_replies_only_witness :
  fst (@Routes.analyzeIntent latin (lit "quel est mon solde")
         (snd (Store.updateBotResponse (lit "3f2b6c1e-0001") replyUpdate defaultStore)))
  = Normal balanceIntent
  /\ fst (Routes.generateBotResponse balanceIntent fr
            (snd (Store.updateBotResponse (lit "3f2b6c1e-0001") replyUpdate
                    defaultStore)))
     = Some (lit "Composez *555#").
Proof.
  split; [|vm_compute; reflexivity].
  rewrite (proj1 (@updateBotResponse_replies_only latin (lit "3f2b6c1e-0001")
                    replyUpdate defaultStore eq_refl eq_refl eq_refl eq_refl)).
  vm_compute. reflexivity.
Defined.

Lemma unique_middle {V} (pre post : JSMap.t V) (key : jsstring) (v : V) :
  UniqueKeys (pre ++ (key, v) :: post) ->
  JSMap.has pre key = false /\ JSMap.has post key = false.
Proof.
  unfold UniqueKeys. rewrite map_app. cbn [map fst]. intros H.
  apply NoDup_remove_2 in H.
  split; (destruct (JSMap.has _ key) eqn:E; [|reflexivity]);
    exfalso; apply H, in_or_app; apply map_has_keys in E; tauto.
Qed.

(** X11: deactivating an entry has the effect of deleting it on the
    catalog, and so on every classification and every reply. *)
Theorem deactivation_as_deletion {host : LowerCase} (id : jsstring)
    (updates : PartialBotResponse.t) (st : MemStorage.t) :
  UniqueKeys (MemStorage.botResponses st) ->
  PartialBotResponse.isActive updates = Some false ->
  let updated := snd (Store.updateBotResponse id updates st) in
  let deleted := snd (MemStorage.deleteBotResponse id st) in
  fst (MemStorage.getAllBotResponses updated)
  = fst (MemStorage.getAllBotResponses deleted)
  /\ (forall text,
         fst (Routes.analyzeIntent text updated)
         = fst (Routes.analyzeIntent text deleted))
  /\ (forall intent language,
         fst (Routes.generateBotResponse intent language updated)
         = fst (Routes.generateBotResponse intent language deleted)).
Proof.
  intros Hu Ha. cbv zeta.
  assert (E : fst (MemStorage.getAllBotResponses
                     (snd (Store.updateBotResponse id updates st)))
              = fst (MemStorage.getAllBotResponses
                       (snd (MemStorage.deleteBotResponse id st)))).
  { unfold MemStorage.getAllBotResponses, MemStorage.deleteBotResponse,
      Store.updateBotResponse. cbn [fst snd MemStorage.botResponses].
    destruct (JSMap.get (MemStorage.botResponses st) id) as [r|] eqn:Hget.
    - cbn [snd MemStorage.botResponses].
      destruct (@map_set_present _ _ id r (Store.spread r updates) Hget)
        as (pre & post & Em & Es & _).
      rewrite Es. rewrite Em in Hu. apply unique_middle in Hu as [Hpre Hpost].
      rewrite Em. unfold JSMap.delete. rewrite filter_app. cbn [filter fst].
      rewrite strictEq_refl. cbn [negb].
      fold (JSMap.delete pre id). fold (JSMap.delete post id).
      rewrite !map_delete_fresh by assumption.
      unfold JSMap.values. rewrite !map_app, !filter_app. cbn [map filter snd].
      unfold Store.spread at 1. cbn [BotResponse.isActive]. now rewrite Ha.
    - cbn [snd MemStorage.botResponses]. apply map_has_get in Hget.
      now rewrite map_delete_fresh. }
  split; [exact E|]. split.
  - intros text. now apply classification_by_catalog.
  - intros intent language. now apply reply_by_catalog.
Qed.

Lemma deactivation_as_deletion_witness :
  fst (@Routes.analyzeIntent latin (lit "quel est mon solde")
         (snd (Store.updateBotResponse (lit "3f2b6c1e-0001") deactivation defaultStore)))
  = Normal unknownIntent
  /\ fst (Routes.generateBotResponse balanceIntent fr
            (snd (Store.updateBotResponse (lit "3f2b6c1e-0001") deactivation
                    defaultStore)))
     = None.
Proof.
  destruct (@deactivation_as_deletion latin (lit "3f2b6c1e-0001") deactivation
              defaultStore (proj1 (new_well_formed uuids)) eq_refl)
    as (_ & Hclass & Hreply).
  split; [rewrite Hclass|rewrite Hreply]; vm_compute; reflexivity.
Defined.

(** ** The handler of the web messages *)

(** X12: the handler answers 404 and leaves the store as it is when the
    conversation is unknown.  Otherwise the conversation receives the
    message.  A message sent as the bot is stored without a reply.  For a
    message of the user the text is classified: when the keywords of the
    active entries are strings, the handler answers with the message and
    the bot message, which the conversation receives after the message;
    the text of the bot message is the reply to the classification of
    the text, which is never [null], and no bot message is made only when
    that reply is the empty text.  When a keyword is not a string, the
    classification raises a [TypeError] and the handler answers 400: the
    message of the user stays in the conversation, without a bot message.
    The catalog is never touched. *)
Theorem postMessage_effect {host : LowerCase} (id text : jsstring) (sender : Sender)
    (language : option Language) (fresh : Routes.Fresh) (st : MemStorage.t) :
  let message :=
    Message.mk (Routes.messageId fresh) (Some text) sender (Routes.messageTime fresh)
               language in
  match JSMap.get (MemStorage.conversations st) id with
  | None => Routes.postMessage id text sender language fresh st = (Routes.Status404, st)
  | Some c =>
      exists reply st' c',
        Routes.postMessage id text sender language fresh st = (reply, st')
        /\ MemStorage.botResponses st' = MemStorage.botResponses st
        /\ JSMap.get (MemStorage.conversations st') id = Some c'
        /\ match sender with
           | bot =>
               reply = Routes.Json message None
               /\ messageList st' c' = messageList st c ++ [message]
           | user =>
               match fst (Routes.analyzeIntent text st) with
               | Throw error =>
                   ~ StringKeywords st
                   /\ error = TypeError
                   /\ reply = Routes.Status400 error
                   /\ messageList st' c' = messageList st c ++ [message]
               | Normal intent =>
                   StringKeywords st
                   /\ exists t,
                        fst (Routes.generateBotResponse intent
                               (match language with Some l => l | None => ar end) st)
                        = Some t
                        /\ let botResponse :=
                             match t with
                             | [] => None
                             | _ :: _ =>
                                 Some (Message.mk (Routes.botMessageId fresh) (Some t)
                                         bot (Routes.botMessageTime fresh) language)
                             end in
                           reply = Routes.Json message botResponse
                           /\ messageList st' c'
                              = messageList st c
                                ++ message
                                   :: match botResponse with
                                      | Some b => [b]
                                      | None => []
                                      end
               end
           end
  end.
Proof.
  cbv zeta.
  destruct (JSMap.get (MemStorage.conversations st) id) as [c|] eqn:Hget.
  2:{ unfold Routes.postMessage, MemStorage.bind.
      now rewrite addMessage_missing by assumption. }
  set (message := Message.mk (Routes.messageId fresh) (Some text) sender
                    (Routes.messageTime fresh) language).
  destruct (@addMessage_found id message (Routes.messageStored fresh) st c Hget)
    as (Hok & Hget1 & Hms1 & Hbots). cbv zeta in *.
  destruct (MemStorage.addMessageToConversation id message
              (Routes.messageStored fresh) st) as [ok st1] eqn:Hadd.
  cbn [fst snd] in *. subst ok.
  assert (Hcat : fst (MemStorage.getAllBotResponses st1)
                 = fst (MemStorage.getAllBotResponses st))
    by (unfold MemStorage.getAllBotResponses; cbn [fst]; now rewrite Hbots).
  destruct sender.
  - (* a message of the user *)
    pose proof (@postMessage_user host id text language fresh st st1) as Hpost.
    cbv zeta in Hpost. fold message in Hpost. rewrite (Hpost Hadd). clear Hpost.
    rewrite (@classification_by_catalog host text st st1 Hcat).
    set (lang := match language with Some l => l | None => ar end).
    destruct (fst (Routes.analyzeIntent text st)) as [intent|error] eqn:Hi.
    + (* the classification returns *)
      assert (Hi1 : fst (Routes.analyzeIntent text st1) = Normal intent)
        by now rewrite (@classification_by_catalog host text st st1 Hcat).
      destruct (@reply_exists host text lang st1 intent Hi1) as (t & Ht).
      rewrite Ht. cbn [fst snd].
      assert (Hreply : fst (Routes.generateBotResponse intent lang st) = Some t)
        by (rewrite <- (reply_by_catalog _ lang st st1 Hcat); now rewrite Ht).
      destruct t as [|u t].
      * eexists. exists st1. eexists. cbn [Routes.botReply MemStorage.ret fst snd].
        split; [reflexivity|]. split; [exact Hbots|]. split; [exact Hget1|].
        split; [exact (routes_normal _ _ Hi)|]. exists []. split; [exact Hreply|].
        split; [reflexivity|exact Hms1].
      * unfold Routes.botReply, MemStorage.bind, MemStorage.ret.
        set (botMessage := Message.mk (Routes.botMessageId fresh) _ bot
                             (Routes.botMessageTime fresh) language).
        destruct (@addMessage_found id botMessage (Routes.botMessageStored fresh)
                    st1 _ Hget1) as (_ & Hget2 & Hms2 & Hbots2). cbv zeta in *.
        destruct (MemStorage.addMessageToConversation id botMessage
                    (Routes.botMessageStored fresh) st1) as [ok2 st2].
        cbn [fst snd] in *.
        eexists. exists st2. eexists.
        split; [reflexivity|]. split; [congruence|]. split; [exact Hget2|].
        split; [exact (routes_normal _ _ Hi)|]. exists (u :: t).
        split; [exact Hreply|]. split; [reflexivity|].
        rewrite Hms2, Hms1. now rewrite <- app_assoc.
    + (* the classification raises *)
      destruct (routes_throw _ _ Hi) as [-> Hstr].
      eexists. exists st1. eexists.
      split; [reflexivity|]. split; [exact Hbots|]. split; [exact Hget1|].
      split; [exact Hstr|]. split; [reflexivity|]. split; [reflexivity|exact Hms1].
  - (* a message sent as the bot *)
    unfold Routes.postMessage, MemStorage.bind. fold message. rewrite Hadd.
    cbn [negb MemStorage.ret]. eexists. exists st1. eexists.
    split; [reflexivity|]. split; [exact Hbots|]. split; [exact Hget1|].
    split; [reflexivity|exact Hms1].
Qed.

(** ** The threshold and the length of the message *)

Lemma num_lt_tenth (a d : nat) :
  0 < d -> num_lt (div_length a d) (Finite (1 # 10)) = (10 * a <? d).
Proof.
  destruct d as [|d]; [lia|intros _]. unfold num_lt. cbn [div_length num_gt].
  unfold Qle_bool. cbn [Qnum Qden].
  destruct (Nat.ltb_spec (10 * a) (S d)).
  - apply negb_true_iff, Z.leb_gt. lia.
  - apply negb_false_iff, Z.leb_le. lia.
Qed.

(** The confidence of the scan of a non-empty message is below one tenth
    exactly when every keyword found is shorter than a tenth of the
    message. *)
Lemma scan_below_tenth {host : LowerCase} (normalized : jsstring) (len : nat)
    (entries : list entry) :
  0 < len ->
  num_lt (ServiceIntent.confidence (scan normalized len entries)) (Finite (1 # 10))
  = true
  <-> (forall e k, In e entries -> hit normalized e k -> 10 * length k < len).
Proof.
  intros Hlen.
  destruct (scan_max normalized entries Hlen)
    as [[E Hall]|(e & k & He & Hk & Hpos & E & Hmax)]; rewrite E.
  - split; [|reflexivity]. intros _ e k He Hk. rewrite (Hall e k He Hk). lia.
  - cbn [selection ServiceIntent.confidence]. rewrite num_lt_tenth by assumption.
    rewrite Nat.ltb_lt. split.
    + intros H e' k' He' Hk'. specialize (Hmax e' k' He' Hk'). lia.
    + intros H. now apply (H e k).
Qed.

(** X13: for a non-empty message, the classification is below the
    threshold exactly when every keyword found in the message is shorter
    than a tenth of it; the reply is then the unknown text, whatever was
    found.  (The routes return a classification when the keywords of the
    active entries are strings, and raise a [TypeError] otherwise.) *)
Theorem unknown_below_tenth {host : LowerCase} (message : jsstring)
    (language : Language) :
  message <> [] ->
  (forall this,
      let intent := MobilisChatBot.analyzeIntent this message in
      (num_lt (ServiceIntent.confidence intent) (Finite (1 # 10)) = true
       <-> forall e k, In e (botEntries this) -> hit (normalize message) e k ->
                       10 * length k < length message)
      /\ ((forall e k, In e (botEntries this) -> hit (normalize message) e k ->
                       10 * length k < length message) ->
          MobilisChatBot.generateResponse intent language
          = MobilisChatBot.Str (MobilisChatBot.unknownResponse language)))
  /\ (forall st,
         Completes st
           (fun intent =>
              (num_lt (ServiceIntent.confidence intent) (Finite (1 # 10)) = true
               <-> forall e k, In e (activeEntries st) ->
                               hit (toLowerCase message) e k ->
                               10 * length k < length message)
              /\ ((forall e k, In e (activeEntries st) ->
                               hit (toLowerCase message) e k ->
                               10 * length k < length message) ->
                  Routes.generateBotResponse intent language st
                  = (Some (Routes.unknownMessage language), st)))
           (fst (Routes.analyzeIntent message st))).
Proof.
  intros Hne. apply nonempty_length in Hne. split.
  - intros this. cbv zeta. rewrite bot_scan.
    pose proof (scan_below_tenth (normalize message) (botEntries this) Hne) as H.
    split; [exact H|]. intros Hshort. apply H in Hshort.
    unfold MobilisChatBot.generateResponse. unfold normalize in Hshort.
    now rewrite Hshort.
  - intros st. apply routes_completes. intros _.
    pose proof (scan_below_tenth (toLowerCase message) (activeEntries st) Hne) as H.
    split; [exact H|]. intros Hshort. apply H in Hshort.
    unfold Routes.generateBotResponse. now rewrite Hshort.
Qed.

Lemma unknown_below_tenth_witness :
  MobilisChatBot.generateResponse
    (@MobilisChatBot.analyzeIntent latin MobilisChatBot.mobilisBot longMessage) fr
  = MobilisChatBot.Str (MobilisChatBot.unknownResponse fr)
  /\ exists intent,
       fst (@Routes.analyzeIntent latin longMessage defaultStore) = Normal intent
       /\ Routes.generateBotResponse intent fr defaultStore
          = (Some (Routes.unknownMessage fr), defaultStore).
Proof.
  destruct (@unknown_below_tenth latin longMessage fr) as [Hbot Hroutes];
    [discriminate|].
  split.
  - apply (Hbot MobilisChatBot.mobilisBot).
    intros e k He [Hin Hm]. each_entry e He k Hin Hm.
  - destruct (@completes_returns defaultStore _ _ eq_refl (Hroutes defaultStore))
      as (intent & Hi & _ & Hreply).
    exists intent. split; [exact Hi|]. apply Hreply.
    intros e k He [Hin Hm]. each_entry e He k Hin Hm.
Defined.

(** ** The chat bot service *)

Lemma getProperty_own (table : list (jsstring * jsstring)) (name : jsstring) :
  existsb (strictEq name) (map fst table) = true ->
  exists t,
    MobilisChatBot.getProperty table name = Some (MobilisChatBot.Str t)
    /\ In (name, t) table.
Proof.
  intros H. apply existsb_exists in H as (n & Hin & E). apply strictEq_true in E.
  subst n. unfold MobilisChatBot.getProperty.
  destruct (find _ table) as [kv|] eqn:F.
  - apply find_some in F as [Hkv E]. apply strictEq_true in E.
    exists (snd kv). split; [reflexivity|]. destruct kv; simpl in *. now subst.
  - exfalso. apply in_map_iff in Hin as (kv & E & Hkv).
    apply (find_none _ _ F) in Hkv. apply strictEq_false in Hkv. now apply Hkv.
Qed.

Lemma responses_nonempty (language : Language) (name t : jsstring) :
  In (name, t) (MobilisChatBot.responses language) -> t <> [].
Proof.
  assert (H : forallb (fun kv => negb (strictEq (snd kv) []))
                (MobilisChatBot.responses language) = true)
    by (destruct language; vm_compute; reflexivity).
  intros Hin E. rewrite forallb_forall in H. apply H in Hin. cbn [snd] in Hin.
  subst t. discriminate Hin.
Qed.

Lemma responses_names (language : Language) (e : entry) :
  In e (botEntries MobilisChatBot.mobilisBot) ->
  existsb (strictEq (entryIntent e)) (map fst (MobilisChatBot.responses language))
  = true.
Proof.
  assert (H : forallb
                (fun e => existsb (strictEq (entryIntent e))
                            (map fst (MobilisChatBot.responses language)))
                (botEntries MobilisChatBot.mobilisBot) = true)
    by (destruct language; vm_compute; reflexivity).
  rewrite forallb_forall in H. exact (H e).
Qed.

Lemma unknownResponse_own (language : Language) :
  In (lit "unknown", MobilisChatBot.unknownResponse language)
     (MobilisChatBot.responses language).
Proof.
  destruct (@getProperty_own (MobilisChatBot.responses language) (lit "unknown"))
    as (t & E & Hin); [destruct language; vm_compute; reflexivity|].
  unfold MobilisChatBot.unknownResponse. now rewrite E.
Qed.

(** X14: whatever the message, the chat bot service answers with a text
    of its reply table for the language, never with an empty text and
    never with an inherited member: every intent that its classifier
    returns has an entry in both tables. *)
Theorem mobilisBot_always_replies {host : LowerCase} (message : jsstring)
    (language : Language) :
  exists t,
    MobilisChatBot.generateResponse
      (MobilisChatBot.analyzeIntent MobilisChatBot.mobilisBot message) language
    = MobilisChatBot.Str t
    /\ t <> []
    /\ In t (map snd (MobilisChatBot.responses language)).
Proof.
  assert (Hunknown : exists t,
             MobilisChatBot.Str (MobilisChatBot.unknownResponse language)
             = MobilisChatBot.Str t
             /\ t <> [] /\ In t (map snd (MobilisChatBot.responses language))).
  { pose proof (unknownResponse_own language) as Hin.
    exists (MobilisChatBot.unknownResponse language). split; [reflexivity|].
    split; [exact (@responses_nonempty _ _ _ Hin)|].
    apply in_map_iff. now exists (lit "unknown", MobilisChatBot.unknownResponse language). }
  unfold MobilisChatBot.generateResponse.
  destruct (num_lt _ _); [exact Hunknown|].
  rewrite bot_scan.
  destruct (scan_unknown_or_selected (trim (toLowerCase message)) (length message)
              (botEntries MobilisChatBot.mobilisBot))
    as [->|(e & k & He & _ & _ & ->)].
  - cbn [unknownIntent ServiceIntent.intent].
    destruct (@getProperty_own (MobilisChatBot.responses language) (lit "unknown"))
      as (t & -> & Hin); [destruct language; vm_compute; reflexivity|].
    pose proof (@responses_nonempty _ _ _ Hin) as Hne.
    destruct t as [|c t]; [congruence|].
    exists (c :: t). split; [reflexivity|]. split; [exact Hne|].
    apply in_map_iff. now exists (lit "unknown", c :: t).
  - cbn [selection ServiceIntent.intent].
    destruct (@getProperty_own _ _ (@responses_names language e He)) as (t & -> & Hin).
    pose proof (@responses_nonempty _ _ _ Hin) as Hne.
    destruct t as [|c t]; [congruence|].
    exists (c :: t). split; [reflexivity|]. split; [exact Hne|].
    apply in_map_iff. now exists (entryIntent e, c :: t).
Qed.

(** The scans of one normalized message for two lengths select the same
    keyword of the same entry. *)
Lemma fold_consider_lengths {host : LowerCase} (normalized : jsstring)
    (len1 len2 : nat) (vs : list (entry * jsstring)) :
  0 < len1 -> 0 < len2 ->
  let r1 := fold_left (consider normalized len1) vs unknownIntent in
  let r2 := fold_left (consider normalized len2) vs unknownIntent in
  (r1 = unknownIntent /\ r2 = unknownIntent)
  \/ (exists e k, 0 < length k /\ r1 = selection len1 e k /\ r2 = selection len2 e k).
Proof.
  intros H1 H2. induction vs as [|v vs IH] using rev_ind; [now left|].
  cbv zeta in *. rewrite !fold_left_app. cbn [fold_left].
  set (r1 := fold_left (consider normalized len1) vs unknownIntent) in *.
  set (r2 := fold_left (consider normalized len2) vs unknownIntent) in *.
  unfold consider. destruct (matches normalized (snd v)); [|exact IH].
  destruct IH as [[-> ->]|(e & k & Hpos & -> & ->)].
  - cbn [unknownIntent ServiceIntent.confidence]. rewrite !num_gt_div_zero.
    destruct (Nat.ltb_spec 0 (length (snd v))); [right|now left].
    now exists (fst v), (snd v).
  - cbn [selection ServiceIntent.confidence]. rewrite !num_gt_div_div by assumption.
    destruct (Nat.ltb_spec (length k) (length (snd v))); right.
    + exists (fst v), (snd v). split; [lia|now split].
    + now exists e, k.
Qed.

Lemma num_ge_div_lengths (a len1 len2 : nat) :
  0 < len1 -> len1 <= len2 ->
  num_ge (div_length a len1) (div_length a len2) = true.
Proof.
  intros H1 H. destruct len1 as [|l1]; [lia|]. destruct len2 as [|l2]; [lia|].
  cbn [div_length num_ge num_gt]. rewrite negb_involutive.
  unfold Qle_bool. cbn [Qnum Qden]. apply Z.leb_le. nia.
Qed.

(** X15: two non-empty messages with the same normalization (a message
    and the same message with white space around it) are given the same
    intent and category by the chat bot service; the longer of the two
    has the lower confidence. *)
Theorem intent_independent_of_padding {host : LowerCase} (this : MobilisChatBot.t)
    (m1 m2 : jsstring) :
  m1 <> [] -> m2 <> [] ->
  normalize m1 = normalize m2 ->
  let r1 := MobilisChatBot.analyzeIntent this m1 in
  let r2 := MobilisChatBot.analyzeIntent this m2 in
  ServiceIntent.intent r1 = ServiceIntent.intent r2
  /\ ServiceIntent.category r1 = ServiceIntent.category r2
  /\ (length m1 <= length m2 ->
      num_ge (ServiceIntent.confidence r1) (ServiceIntent.confidence r2) = true).
Proof.
  intros H1 H2 Hn. apply nonempty_length in H1, H2. cbv zeta. rewrite !bot_scan.
  unfold normalize in Hn. rewrite <- Hn. unfold scan.
  destruct (fold_consider_lengths (trim (toLowerCase m1))
              (visits (botEntries this)) H1 H2)
    as [[-> ->]|(e & k & _ & -> & ->)]; cbv zeta.
  - now repeat split.
  - split; [reflexivity|]. split; [reflexivity|]. intros Hle.
    now apply num_ge_div_lengths.
Qed.

Lemma intent_independent_of_padding_witness :
  ServiceIntent.intent
    (@MobilisChatBot.analyzeIntent latin MobilisChatBot.mobilisBot (lit "solde"))
  = ServiceIntent.intent
      (@MobilisChatBot.analyzeIntent latin MobilisChatBot.mobilisBot (lit "  solde  ")).
Proof.
  refine (proj1 (@intent_independent_of_padding latin MobilisChatBot.mobilisBot
                   (lit "solde") (lit "  solde  ") _ _ _));
    [discriminate|discriminate|reflexivity].
Defined.

(** X16: the confidence of the classification of a non-empty message
    depends on the entries of the catalog, not on their order (the order
    decides the intent among entries of equal confidence only); for the
    routes, on two stores whose keywords are strings, which both return a
    classification. *)
Theorem confidence_independent_of_order {host : LowerCase} (message : jsstring) :
  message <> [] ->
  (forall this this',
      (forall e, In e (botEntries this) <-> In e (botEntries this')) ->
      ServiceIntent.confidence (MobilisChatBot.analyzeIntent this message)
      = ServiceIntent.confidence (MobilisChatBot.analyzeIntent this' message))
  /\ (forall st st',
         StringKeywords st -> StringKeywords st' ->
         (forall e, In e (activeEntries st) <-> In e (activeEntries st')) ->
         exists r r',
           fst (Routes.analyzeIntent message st) = Normal r
           /\ fst (Routes.analyzeIntent message st') = Normal r'
           /\ ServiceIntent.confidence r = ServiceIntent.confidence r').
Proof.
  intros Hne. apply nonempty_length in Hne.
  assert (Hscan : forall normalized a b,
             (forall e : entry, In e a <-> In e b) ->
             ServiceIntent.confidence (scan normalized (length message) a)
             = ServiceIntent.confidence (scan normalized (length message) b)).
  { intros normalized a b Hab.
    destruct (scan_max normalized a Hne)
      as [[Ea Ha]|(e & k & He & Hk & Hpos & Ea & Ha)];
      destruct (scan_max normalized b Hne)
        as [[Eb Hb]|(e' & k' & He' & Hk' & Hpos' & Eb & Hb)];
      rewrite Ea, Eb.
    - reflexivity.
    - apply Hab in He'. specialize (Ha e' k' He' Hk'). lia.
    - apply Hab in He. specialize (Hb e k He Hk). lia.
    - cbn [selection ServiceIntent.confidence]. f_equal.
      apply Hab in He as Heb. apply Hab in He' as Hea.
      specialize (Ha e' k' Hea Hk'). specialize (Hb e k Heb Hk). lia. }
  split.
  - intros this this' H. rewrite !bot_scan. now apply Hscan.
  - intros st st' Hs Hs' H. rewrite !routes_scan_ok by assumption. cbn [fst].
    eexists. eexists. split; [reflexivity|]. split; [reflexivity|].
    now apply Hscan.
Qed.

Lemma confidence_independent_of_order_witness :
  exists r r',
    fst (@Routes.analyzeIntent latin (lit "credit") defaultStore) = Normal r
    /\ fst (@Routes.analyzeIntent latin (lit "credit") reversedStore) = Normal r'
    /\ ServiceIntent.confidence r = ServiceIntent.confidence r'
    /\ ServiceIntent.intent r = lit "balance_inquiry"
    /\ ServiceIntent.intent r' = lit "recharge".
Proof.
  destruct (proj2 (@confidence_independent_of_order latin (lit "credit")
                     ltac:(discriminate))
              defaultStore reversedStore eq_refl eq_refl)
    as (r & r' & Hr & Hr' & Hc).
  { intros e.
    assert (E : activeEntries reversedStore = rev (activeEntries defaultStore))
      by (vm_compute; reflexivity).
    rewrite E. apply in_rev. }
  exists r, r'. split; [exact Hr|]. split; [exact Hr'|]. split; [exact Hc|].
  vm_compute in Hr, Hr'. injection Hr as <-. injection Hr' as <-.
  split; reflexivity.
Defined.

(** X17: a quick reply leads to the topic it names: in both languages
    the payload of every quick reply, and its title as well, is classified
    by the chat bot service as the intent of that name, the payload with a
    confidence of 1, and the reply to it is the text of that name in the
    table of the language. *)
Theorem quick_replies_reach_their_topic (language : Language) (q : QuickReply.t) :
  In q (generateServiceQuickReplies language) ->
  let byPayload :=
    @MobilisChatBot.analyzeIntent latin MobilisChatBot.mobilisBot (QuickReply.payload q) in
  let byTitle :=
    @MobilisChatBot.analyzeIntent latin MobilisChatBot.mobilisBot (QuickReply.title q) in
  ServiceIntent.intent byPayload = QuickReply.payload q
  /\ ServiceIntent.confidence byPayload
     = div_length (length (QuickReply.payload q)) (length (QuickReply.payload q))
  /\ ServiceIntent.intent byTitle = QuickReply.payload q
  /\ Some (MobilisChatBot.generateResponse byPayload language)
     = MobilisChatBot.getProperty (MobilisChatBot.responses language)
         (QuickReply.payload q).
Proof.
  intros Hin. cbv zeta.
  destruct language; cbn [generateServiceQuickReplies In] in Hin;
    repeat (destruct Hin as [Hin|Hin];
            [subst q;
             split; [vm_compute; reflexivity|];
             split; [vm_compute; reflexivity|];
             split; vm_compute; reflexivity|]);
    destruct Hin.
Qed.

Lemma quick_replies_reach_their_topic_witness :
  ServiceIntent.intent
    (@MobilisChatBot.analyzeIntent latin MobilisChatBot.mobilisBot (lit "Forfaits"))
  = lit "plans".
Proof.
  refine (proj1 (proj2 (proj2 (@quick_replies_reach_their_topic fr
            (QuickReply.mk (lit "Forfaits") (lit "plans")) _)))).
  right. right. left. reflexivity.
Defined.

(** ** Statistics and settings *)

Lemma orText_nonempty (a b : jsstring) : b <> [] -> Storage.orText a b <> [].
Proof. destruct a; simpl; [trivial|discriminate]. Qed.

Lemma orGiven_nonempty (a : option jsstring) (b : jsstring) :
  b <> [] -> Storage.orGiven a b <> [].
Proof. destruct a as [[|c s]|]; simpl; trivial; discriminate. Qed.

Lemma orGiven_blank (a : option jsstring) (b : jsstring) :
  blank a -> Storage.orGiven a b = b.
Proof. intros [->| ->]; reflexivity. Qed.

Lemma orText_kept (a b : jsstring) : a <> [] -> Storage.orText a b = a.
Proof. destruct a; [congruence|reflexivity]. Qed.

(** X18: the statistics that an update returns are the ones found
    afterwards under the date, and the other dates are not touched; no
    counter of theirs is empty; the identifier of the statistics of the
    date is kept, and one is drawn when there were none; and an update
    whose counters are absent or empty returns well-kept statistics as
    they were: a counter cannot be cleared. *)
Theorem updateChatStats_effect (date : jsstring) (updates : PartialChatStats.t)
    (uuid : jsstring) (st : Storage.t) :
  uuid <> [] ->
  let result := Storage.updateChatStats date updates uuid st in
  Storage.getChatStats date (snd result) = (Some (fst result), snd result)
  /\ (forall date', date' <> date ->
        fst (Storage.getChatStats date' (snd result))
        = fst (Storage.getChatStats date' st))
  /\ WellStats date (fst result)
  /\ match JSMap.get (Storage.chatStats st) date with
     | Some existing =>
         (ChatStats.id existing <> [] ->
          ChatStats.id (fst result) = ChatStats.id existing)
         /\ (WellStats date existing ->
             blank (PartialChatStats.totalConversations updates) ->
             blank (PartialChatStats.resolvedQueries updates) ->
             blank (PartialChatStats.balanceInquiries updates) ->
             blank (PartialChatStats.averageResponses updates) ->
             fst result = existing)
     | None => ChatStats.id (fst result) = uuid
     end
  /\ Storage.core (snd result) = Storage.core st
  /\ Storage.facebookSettings (snd result) = Storage.facebookSettings st.
Proof.
  intros Huuid. cbv zeta. unfold Storage.updateChatStats, Storage.getChatStats.
  cbn [fst snd Storage.chatStats Storage.core Storage.facebookSettings].
  split; [now rewrite map_get_set_same|].
  split; [intros date' Hne; now apply map_get_set_other|].
  assert (Hzero : lit "0" <> []) by discriminate.
  split.
  { unfold WellStats. cbn [ChatStats.date ChatStats.id ChatStats.totalConversations
      ChatStats.resolvedQueries ChatStats.balanceInquiries ChatStats.averageResponses].
    split; [reflexivity|]. split; [now apply orText_nonempty|].
    repeat split; apply orGiven_nonempty; now apply orText_nonempty. }
  split; [|now split].
  destruct (JSMap.get (Storage.chatStats st) date) as [existing|];
    [|reflexivity].
  split.
  - intros Hid. cbn [ChatStats.id]. now apply orText_kept.
  - intros (Hd & Hid & H1 & H2 & H3 & H4) B1 B2 B3 B4.
    rewrite !orGiven_blank, !orText_kept by assumption.
    destruct existing. cbn in *. now subst.
Qed.

Lemma updateChatStats_effect_witness :
  fst (Storage.updateChatStats (lit "2025-01-15")
         (PartialChatStats.mk None (Some []) None None None) (lit "s-0002") fullStore)
  = ChatStats.mk (lit "s-0001") (lit "2025-01-15") (lit "324") (lit "289")
      (lit "156") (lit "2.3").
Proof.
  pose proof (@updateChatStats_effect (lit "2025-01-15")
                (PartialChatStats.mk None (Some []) None None None) (lit "s-0002")
                fullStore) as H.
  cbv zeta in H. destruct H as (_ & _ & _ & H & _); [discriminate|].
  assert (E : JSMap.get (Storage.chatStats fullStore) (lit "2025-01-15")
              = Some (ChatStats.mk (lit "s-0001") (lit "2025-01-15") (lit "324")
                        (lit "289") (lit "156") (lit "2.3")))
    by (vm_compute; reflexivity).
  rewrite E in H. apply (proj2 H).
  - repeat split; discriminate.
  - now right.
  - now left.
  - now left.
  - now left.
Defined.

(** X19: an update of the settings replaces them whole: the settings
    found afterwards carry the fields of the update and nothing of the
    former ones, but for the identifier, which is kept; so an update
    without a page access token stops every sending, whatever token was
    stored. *)
Theorem updateFacebookSettings_replaces (settings : InsertFacebookSettings.t)
    (uuid : jsstring) (now : N) (st : Storage.t) :
  let result := Storage.updateFacebookSettings settings uuid now st in
  Storage.getFacebookSettings (snd result) = (Some (fst result), snd result)
  /\ FacebookSettings.given (fst result) = settings
  /\ match Storage.facebookSettings st with
     | Some old =>
         FacebookSettings.id old <> [] ->
         FacebookSettings.id (fst result) = FacebookSettings.id old
     | None => FacebookSettings.id (fst result) = uuid
     end
  /\ Storage.core (snd result) = Storage.core st
  /\ Storage.chatStats (snd result) = Storage.chatStats st
  /\ (forall recipientId messageText,
        fst (Messenger.sendFacebookMessage recipientId messageText (snd result))
        = match InsertFacebookSettings.pageAccessToken settings with
          | Value (c :: token) =>
              Some (Messenger.mkOutbound (c :: token) recipientId messageText)
          | _ => None
          end).
Proof.
  cbv zeta. unfold Storage.updateFacebookSettings, Storage.getFacebookSettings.
  cbn [fst snd Storage.facebookSettings Storage.core Storage.chatStats
       FacebookSettings.given FacebookSettings.id].
  split; [reflexivity|]. split; [reflexivity|]. split.
  { destruct (Storage.facebookSettings st) as [old|]; [|reflexivity].
    intros H. now apply orText_kept. }
  split; [reflexivity|]. split; [reflexivity|].
  intros recipientId messageText.
  unfold Messenger.sendFacebookMessage, Storage.getFacebookSettings.
  cbn [fst snd Storage.facebookSettings FacebookSettings.given].
  now destruct (InsertFacebookSettings.pageAccessToken settings) as [| |[|c token]].
Qed.

(** X20: after the settings have been stored with a verify token, the
    verification returns the challenge exactly to the requests of mode
    subscribe that carry this token; stored with the token [null], it
    returns it to none; stored without the field, it returns it to the
    request of mode subscribe that carries no token.  Without settings no
    request is verified, and the verification never changes the store. *)
Theorem verifyWebhook_after_update (settings : InsertFacebookSettings.t)
    (uuid : jsstring) (now : N) (st : Storage.t)
    (mode token challenge : Messenger.QueryValue) :
  let configured := snd (Storage.updateFacebookSettings settings uuid now st) in
  let verified s := fst (Messenger.verifyWebhook mode token challenge s)
                    = Messenger.Challenge challenge in
  match InsertFacebookSettings.verifyToken settings with
  | Value t =>
      verified configured
      <-> mode = Messenger.QText (lit "subscribe") /\ token = Messenger.QText t
  | Null => ~ verified configured
  | Undefined =>
      verified configured
      <-> mode = Messenger.QText (lit "subscribe") /\ token = Messenger.QAbsent
  end
  /\ (Storage.facebookSettings st = None -> ~ verified st)
  /\ snd (Messenger.verifyWebhook mode token challenge st) = st.
Proof.
  cbv zeta. unfold Messenger.verifyWebhook, Storage.updateFacebookSettings,
    Storage.getFacebookSettings.
  cbn [fst snd Storage.facebookSettings FacebookSettings.given].
  split; [|split].
  - destruct mode as [|m|].
    + destruct (InsertFacebookSettings.verifyToken settings);
        try split; try intros [H _]; try intros H; discriminate.
    + destruct (strictEq m (lit "subscribe")) eqn:Em.
      * apply strictEq_true in Em. subst m. cbn [fst].
        destruct (InsertFacebookSettings.verifyToken settings) as [| |t];
          destruct token as [|s|]; cbn [Messenger.sameToken fst];
          try (split; [discriminate|intros [_ H]; discriminate]);
          try (intros H; discriminate).
        -- now split.
        -- destruct (strictEq s t) eqn:Es; cbn [fst].
           ++ apply strictEq_true in Es. subst s. now split.
           ++ apply strictEq_false in Es. split; [discriminate|].
              intros [_ H]. congruence.
      * apply strictEq_false in Em. cbn [fst].
        destruct (InsertFacebookSettings.verifyToken settings);
          try split; try intros [H _]; try intros H; try discriminate; congruence.
    + destruct (InsertFacebookSettings.verifyToken settings);
        try split; try intros [H _]; try intros H; discriminate.
  - intros Hnone. rewrite Hnone.
    destruct mode as [|m|]; try discriminate.
    destruct (strictEq m (lit "subscribe")); discriminate.
  - destruct mode as [|m|]; try reflexivity.
    destruct (strictEq m (lit "subscribe")); [|reflexivity].
    destruct (Storage.facebookSettings st) as [s|]; [|reflexivity].
    now destruct (Messenger.sameToken _ _).
Qed.

(** ** Messenger *)












